(** * GitHub Contributors Badge Service: a shallow embedding of [server.js]

    The development follows the second (enhanced) server of the source file:
    the avatar helpers [getBase64Avatar] and [generateAvatarPattern], the two
    upstream fetchers [getContributors] and [getAllContributors] with their
    shared in-memory cache, the renderer [generateSVGBadge] and the route
    handlers [/badge], [/badge/all], [/badge/fast], [/stats] and
    [/repo-info].

    Conventions of the model:
    - JavaScript strings are [string]s of ASCII characters (repository
      identifiers and GitHub logins are ASCII);
    - counts, coordinates and page numbers are [nat]; clock readings are [Z]
      (milliseconds), so that a difference of two readings can be negative;
    - a value that may be [NaN] or [Infinity] is a [jsnum];
    - the outside world (clock, GitHub API, avatar host) is an oracle [Env]
      indexed by the number of reads/calls made so far, so that upstream may
      answer differently every time it is asked;
    - a handler is a computation in the monad [M]: it reads the oracle,
      threads the cache, may throw, and emits the list of observable events
      (cache accesses, upstream calls, renderer invocations). *)

From Stdlib Require Import ZArith Ascii String DecimalString DecimalNat List Bool Lia.
From stdpp Require Import gmap strings list.
From Equations Require Import Equations.
Import ListNotations.

Local Open Scope string_scope.
Local Open Scope nat_scope.
Local Open Scope list_scope.

(* ===================================================================== *)
(** * JavaScript string primitives used by the server                      *)
(* ===================================================================== *)

Module Js.

(** [s.includes(c)] for a one-character needle [c]. *)
Fixpoint includes (s : string) (c : ascii) : bool :=
  match s with
  | EmptyString => false
  | String a s' => if Ascii.eqb a c then true else includes s' c
  end.

(** [s.split(c)]: the pieces between the occurrences of [c]; always at
    least one piece (the empty string splits into one empty piece). *)
Fixpoint split (c : ascii) (s : string) : list string :=
  match s with
  | EmptyString => [EmptyString]
  | String a s' =>
      if Ascii.eqb a c then EmptyString :: split c s'
      else match split c s' with
           | p :: ps => String a p :: ps
           | [] => [String a EmptyString]
           end
  end.

(** Number of occurrences of a character. *)
Fixpoint count (c : ascii) (s : string) : nat :=
  match s with
  | EmptyString => 0
  | String a s' => (if Ascii.eqb a c then 1 else 0) + count c s'
  end.

(** [s.charAt(0)]: the first character as a string, or the empty string. *)
Definition charAt0 (s : string) : string :=
  match s with
  | EmptyString => EmptyString
  | String a _ => String a EmptyString
  end.

Definition upper_ascii (a : ascii) : ascii :=
  let n := nat_of_ascii a in
  if (97 <=? n) && (n <=? 122) then ascii_of_nat (n - 32) else a.

(** [s.toUpperCase()] on ASCII text. *)
Fixpoint toUpperCase (s : string) : string :=
  match s with
  | EmptyString => EmptyString
  | String a s' => String (upper_ascii a) (toUpperCase s')
  end.

(** [s.substring(0, n)]. *)
Definition substring0 (n : nat) (s : string) : string := String.substring 0 n s.

(** Decimal rendering of a number inside a template literal. *)
Definition of_nat (n : nat) : string := NilEmpty.string_of_uint (Nat.to_uint n).

Definition of_bool (b : bool) : string := if b then "true" else "false".

(** Truthiness of a value that is either [undefined]/[null] or a string. *)
Definition truthy (o : option string) : bool :=
  match o with
  | Some (String _ _) => true
  | _ => false
  end.

(** ** [parseInt(s)] without a radix argument

    Leading white space is skipped, one sign is read, a [0x]/[0X] prefix
    selects radix 16, and the longest prefix of digits of the radix is
    converted; [None] is [NaN] (no digit at all). *)

Definition is_space (a : ascii) : bool :=
  let n := nat_of_ascii a in
  (n =? 9) || (n =? 10) || (n =? 11) || (n =? 12) || (n =? 13) || (n =? 32).

Fixpoint trim_start (s : string) : string :=
  match s with
  | String a s' => if is_space a then trim_start s' else s
  | EmptyString => EmptyString
  end.

Definition digit_value (radix : nat) (a : ascii) : option nat :=
  let n := nat_of_ascii a in
  let v :=
    if (48 <=? n) && (n <=? 57) then Some (n - 48)
    else if (97 <=? n) && (n <=? 122) then Some (n - 87)
    else if (65 <=? n) && (n <=? 90) then Some (n - 55)
    else None in
  match v with
  | Some d => if d <? radix then Some d else None
  | None => None
  end.

(** Reads digits while they last; [acc] is [None] until a digit is seen. *)
Fixpoint read_digits (radix : nat) (s : string) (acc : option Z) : option Z :=
  match s with
  | EmptyString => acc
  | String a s' =>
      match digit_value radix a with
      | Some d =>
          read_digits radix s'
            (Some (match acc with
                   | Some v => v * Z.of_nat radix + Z.of_nat d
                   | None => Z.of_nat d
                   end)%Z)
      | None => acc
      end
  end.

Definition strip_sign (s : string) : Z * string :=
  match s with
  | String "-" s' => ((-1)%Z, s')
  | String "+" s' => (1%Z, s')
  | _ => (1%Z, s)
  end.

Definition strip_radix (s : string) : nat * string :=
  match s with
  | String "0" (String "x" s') => (16, s')
  | String "0" (String "X" s') => (16, s')
  | _ => (10, s)
  end.

Definition parseInt (s : string) : option Z :=
  let '(sign, s1) := strip_sign (trim_start s) in
  let '(radix, s2) := strip_radix s1 in
  match read_digits radix s2 None with
  | Some v => Some (sign * v)%Z
  | None => None
  end.

End Js.

(** Numbers that [Math.ceil(a / b)] can produce. *)
Inductive jsnum : Type :=
| Num (n : nat)
| PosInf
| NaN.

(** [k * a + b] in JavaScript arithmetic, for a positive [a] and a
    non-negative [b]: infinity and [NaN] are absorbing. *)
Definition jsnum_affine (k : jsnum) (a b : nat) : jsnum :=
  match k with
  | Num n => Num (n * a + b)
  | PosInf => PosInf
  | NaN => NaN
  end.

(** [Math.ceil(Math.sqrt(n))].  For the integers the server can see (at
    most 100 pages of 100 contributors) the double-precision square root is
    exact on squares and strictly between two integers otherwise, so the
    result is the integer ceiling of the square root. *)
Definition ceil_sqrt (n : nat) : nat := Nat.sqrt_up n.

(** [Math.ceil(n / c)]: [0 / 0] is [NaN], [n / 0] is [Infinity]. *)
Definition ceil_div (n c : nat) : jsnum :=
  match c with
  | 0 => match n with 0 => NaN | _ => PosInf end
  | S _ => Num (n / c + (if n mod c =? 0 then 0 else 1))
  end.

(* ===================================================================== *)
(** * Data model                                                           *)
(* ===================================================================== *)

(** One item of the upstream contributor listing. *)
Record RawContributor : Type := mkRaw {
  raw_login : string;
  raw_avatar_url : string;
  raw_html_url : string;
  raw_contributions : nat
}.

(** Result of [generateAvatarPattern]. *)
Record Fallback : Type := mkFallback {
  color : string;
  initial : string;
  patternId : string
}.

(** A processed contributor, as stored in the cache and rendered. *)
Record Contributor : Type := mkContributor {
  login : string;
  avatar_url : string;
  avatar_base64 : option string;        (* [None] is [null] *)
  html_url : string;
  contributions : nat;
  fallback : Fallback
}.

Record CacheEntry : Type := mkEntry {
  data : list Contributor;
  timestamp : Z
}.

(** [const CACHE_DURATION = 5 * 60 * 1000] *)
Definition CACHE_DURATION : Z := (5 * 60 * 1000)%Z.

(* ===================================================================== *)
(** * [generateAvatarPattern]                                              *)
(* ===================================================================== *)

Definition palette : list string :=
  [ "#FF6B6B"; "#4ECDC4"; "#45B7D1"; "#96CEB4"; "#FFEAA7";
    "#DDA0DD"; "#98D8C8"; "#FFB6C1"; "#87CEEB"; "#DEB887";
    "#F0E68C"; "#FFE4B5"; "#D3D3D3"; "#B0C4DE"; "#FFA07A" ].

Definition generateAvatarPattern (username : string) (index : nat) : Fallback :=
  {| color := nth (index mod length palette) palette "undefined";
     initial := Js.toUpperCase (Js.charAt0 username);
     patternId := "pattern-" +:+ Js.of_nat index |}.

(* ===================================================================== *)
(** * [generateSVGBadge]                                                   *)
(* ===================================================================== *)

(** The renderer returns one long template string.  Its data-dependent
    content is kept as a structured document: the canvas size, the palette
    interpolated into the style sheet and the frame, the number of clip
    paths, and one element per contributor.  Every coordinate printed for an
    element is its origin [(el_x, el_y)] plus a constant: the border ring and
    the hover circle are centred at [(x + 20, y + 20)], the image is placed
    at [(x, y)], the label at [(x + 20, y + 58)]. *)

Record ThemeColors : Type := mkTheme {
  bg : string;
  border : string;
  text : string;
  shadow : string;
  hover : string;
  fallbackText : string
}.

Definition theme_light : ThemeColors :=
  {| bg := "#ffffff"; border := "#e1e4e8"; text := "#586069";
     shadow := "rgba(0,0,0,0.1)"; hover := "rgba(3,102,214,0.1)";
     fallbackText := "#ffffff" |}.

Definition theme_dark : ThemeColors :=
  {| bg := "#161b22"; border := "#30363d"; text := "#8b949e";
     shadow := "rgba(0,0,0,0.3)"; hover := "rgba(56,139,253,0.1)";
     fallbackText := "#ffffff" |}.

(** Property names that every object literal inherits: [themes[theme]] is a
    truthy function or object for them, and each colour read from it is
    [undefined]. *)
Definition inherited_keys : list string :=
  [ "constructor"; "hasOwnProperty"; "isPrototypeOf"; "propertyIsEnumerable";
    "toLocaleString"; "toString"; "valueOf"; "__proto__";
    "__defineGetter__"; "__defineSetter__"; "__lookupGetter__";
    "__lookupSetter__" ].

Definition theme_undefined : ThemeColors :=
  {| bg := "undefined"; border := "undefined"; text := "undefined";
     shadow := "undefined"; hover := "undefined"; fallbackText := "undefined" |}.

Definition str_in (s : string) (l : list string) : bool :=
  existsb (String.eqb s) l.

(** [themes[theme] || themes.light] *)
Definition theme_colors (theme : string) : ThemeColors :=
  if String.eqb theme "light" then theme_light
  else if String.eqb theme "dark" then theme_dark
  else if str_in theme inherited_keys then theme_undefined
  else theme_light.

Inductive AvatarElement : Type :=
| AvatarImage (href : string) (clip : nat)
    (* <image href=.. x y width=40 height=40 clip-path="url(#clip<index>)"> *)
| AvatarFallback (fill : string) (glyph_fill : string) (glyph : string).
    (* <circle r=20 fill=..> and <text fill=..>glyph</text> *)

Record ContributorElement : Type := mkElement {
  el_x : nat;
  el_y : nat;
  el_username : string;      (* data-username *)
  el_href : string;          (* link target *)
  el_ring : string;          (* fill of the border ring *)
  el_avatar : AvatarElement;
  el_label_fill : string;
  el_label : string          (* displayName *)
}.

Record SvgDoc : Type := mkSvg {
  svg_width : jsnum;
  svg_height : jsnum;
  svg_clips : nat;           (* clip paths clip0 .. clip(n-1) *)
  svg_colors : ThemeColors;
  svg_elements : list ContributorElement
}.

Definition avatarSize : nat := 40.
Definition padding : nat := 12.
Definition usernameHeight : nat := 16.
Definition spacing : nat := 6.
Definition minItemWidth : nat := 70.
Definition maxUsernameLength : nat := 8.

Definition displayName (c : Contributor) : string :=
  if maxUsernameLength <? String.length (login c)
  then Js.substring0 maxUsernameLength (login c) +:+ "..."
  else login c.

(** The body shared by the two [forEach] callbacks once [x] and [y] are
    computed. *)
Definition render_contributor (colors : ThemeColors) (x y index : nat)
    (c : Contributor) : ContributorElement :=
  {| el_x := x;
     el_y := y;
     el_username := login c;
     el_href := html_url c;
     el_ring := border colors;
     el_avatar :=
       if Js.truthy (avatar_base64 c)
       then AvatarImage (default EmptyString (avatar_base64 c)) index
       else AvatarFallback (color (fallback c)) (fallbackText colors)
                           (initial (fallback c));
     el_label_fill := text colors;
     el_label := displayName c |}.

Definition generateSVGBadge (contributors : list Contributor)
    (style theme : string) : SvgDoc :=
  let colors := theme_colors theme in
  let n := length contributors in
  if String.eqb style "grid" then
    let cols := ceil_sqrt n in
    let rows := ceil_div n cols in
    let itemWidth := Nat.max (avatarSize + padding) minItemWidth in
    let itemHeight := avatarSize + usernameHeight + spacing + padding in
    {| svg_width := Num (cols * itemWidth + padding);
       svg_height := jsnum_affine rows itemHeight padding;
       svg_clips := n;
       svg_colors := colors;
       svg_elements :=
         imap (fun index c =>
                 let col := index mod cols in
                 let row := index / cols in
                 render_contributor colors (col * itemWidth + padding)
                                    (row * itemHeight + padding) index c)
              contributors |}
  else
    let itemWidth := Nat.max (avatarSize + padding) minItemWidth in
    {| svg_width := Num (n * itemWidth + padding);
       svg_height := Num (avatarSize + usernameHeight + spacing + padding * 2);
       svg_clips := n;
       svg_colors := colors;
       svg_elements :=
         imap (fun index c =>
                 render_contributor colors (index * itemWidth + padding)
                                    padding index c)
              contributors |}.

(* ===================================================================== *)
(** * The outside world and the handler monad                              *)
(* ===================================================================== *)

(** What a thrown value looks like to the [catch] blocks: its [message] and
    [error.response?.status] ([None] when there is no response: a timeout, a
    transport failure, a body of unexpected shape, or a plain [Error]). *)
Record JsError : Type := mkError {
  message : string;
  response_status : option nat
}.

(** Answer of [GET /repos/<repo>/contributors]. *)
Inductive ListResp : Type :=
| ListOk (items : list RawContributor)
| ListFail (status : option nat).

(** Answer of the avatar host: the body (already in its base64 rendering)
    and the [content-type] header, if any. *)
Inductive AvatarResp : Type :=
| AvatarOk (base64 : string) (content_type : option string)
| AvatarFail.

Record RepoInfo : Type := mkRepoInfo {
  ri_name : string;
  ri_full_name : string;
  ri_description : option string;
  ri_stars : nat;
  ri_forks : nat;
  ri_language : option string;
  ri_created_at : string;
  ri_updated_at : string;
  ri_html_url : string
}.

(** Answer of [GET /repos/<repo>]. *)
Inductive RepoResp : Type :=
| RepoOk (info : RepoInfo)
| RepoFail (status : option nat).

(** The oracle.  The first argument of every field is the number of clock
    reads, respectively upstream calls, made before this one. *)
Record Env : Type := mkEnv {
  now : nat -> Z;
  contributors_api : nat -> string -> nat -> option nat -> ListResp;
  avatar_api : nat -> string -> AvatarResp;
  repo_api : nat -> string -> RepoResp
}.

(** The process state: the [cache] map and the two oracle counters. *)
Record World : Type := mkWorld {
  cache : gmap string CacheEntry;
  clock_reads : nat;
  api_calls : nat
}.

Inductive Event : Type :=
| EvCacheGet (key : string)
| EvCacheSet (key : string)
| EvListContributors (repo : string) (per_page : nat) (page : option nat)
| EvAvatarFetch (url : string)
| EvRepoFetch (repo : string)
| EvDelay (ms : nat)
| EvRender (n : nat) (style theme : string).

Inductive Result (A : Type) : Type :=
| Ok (a : A)
| Throw (e : JsError).
Arguments Ok {A} a.
Arguments Throw {A} e.

Definition M (A : Type) : Type := Env -> World -> Result A * World * list Event.

Definition ret {A} (a : A) : M A := fun _ w => (Ok a, w, []).

Definition throw {A} (e : JsError) : M A := fun _ w => (Throw e, w, []).

Definition bind {A B} (m : M A) (k : A -> M B) : M B :=
  fun env w =>
    match m env w with
    | (Ok a, w1, t1) =>
        match k a env w1 with
        | (r, w2, t2) => (r, w2, t1 ++ t2)
        end
    | (Throw e, w1, t1) => (Throw e, w1, t1)
    end.

(** [try { m } catch (error) { h error }] *)
Definition try_catch {A} (m : M A) (h : JsError -> M A) : M A :=
  fun env w =>
    match m env w with
    | (Ok a, w1, t1) => (Ok a, w1, t1)
    | (Throw e, w1, t1) =>
        match h e env w1 with
        | (r, w2, t2) => (r, w2, t1 ++ t2)
        end
    end.

Definition emit (ev : Event) : M unit := fun _ w => (Ok tt, w, [ev]).

Declare Scope js_scope.
Delimit Scope js_scope with js.
Notation "x <- m ;; k" := (bind m (fun x => k))
  (at level 100, m at next level, right associativity) : js_scope.
Notation "m ;;; k" := (bind m (fun _ => k))
  (at level 100, right associativity) : js_scope.
Local Open Scope js_scope.

(** [new Error(msg)] *)
Definition Error (msg : string) : JsError :=
  {| message := msg; response_status := None |}.

(** [Date.now()] *)
Definition date_now : M Z :=
  fun env w =>
    (Ok (now env (clock_reads w)),
     {| cache := cache w; clock_reads := S (clock_reads w); api_calls := api_calls w |},
     []).

(** [cache.get(key)] *)
Definition cache_get (key : string) : M (option CacheEntry) :=
  fun _ w => (Ok (cache w !! key), w, [EvCacheGet key]).

(** [cache.set(key, entry)] *)
Definition cache_set (key : string) (e : CacheEntry) : M unit :=
  fun _ w =>
    (Ok tt,
     {| cache := <[key := e]> (cache w); clock_reads := clock_reads w;
        api_calls := api_calls w |},
     [EvCacheSet key]).

Definition count_call (w : World) : World :=
  {| cache := cache w; clock_reads := clock_reads w; api_calls := S (api_calls w) |}.

(** [axios.get(`${GITHUB_API_BASE}/repos/${repo}/contributors`, { params })];
    a failed request throws. *)
Definition axios_contributors (repo : string) (per_page : nat) (page : option nat)
  : M (list RawContributor) :=
  fun env w =>
    (match contributors_api env (api_calls w) repo per_page page with
     | ListOk items => Ok items
     | ListFail st => Throw {| message := "Request failed"; response_status := st |}
     end,
     count_call w,
     [EvListContributors repo per_page page]).

(** [axios.get(avatarUrl, { responseType: 'arraybuffer' })] *)
Definition axios_avatar (url : string) : M (string * option string) :=
  fun env w =>
    (match avatar_api env (api_calls w) url with
     | AvatarOk b64 ct => Ok (b64, ct)
     | AvatarFail => Throw {| message := "Request failed"; response_status := None |}
     end,
     count_call w,
     [EvAvatarFetch url]).

(** [axios.get(`${GITHUB_API_BASE}/repos/${repo}`)] *)
Definition axios_repo (repo : string) : M RepoInfo :=
  fun env w =>
    (match repo_api env (api_calls w) repo with
     | RepoOk info => Ok info
     | RepoFail st => Throw {| message := "Request failed"; response_status := st |}
     end,
     count_call w,
     [EvRepoFetch repo]).

(** [await new Promise(resolve => setTimeout(resolve, ms))] *)
Definition delay (ms : nat) : M unit := emit (EvDelay ms).

(** [Promise.all(items.map(async (item, index) => f item index))], with the
    callbacks run in index order. *)
Fixpoint map_async_from {A B} (f : A -> nat -> M B) (index : nat) (items : list A)
  : M (list B) :=
  match items with
  | [] => ret []
  | item :: rest =>
      b <- f item index ;;
      bs <- map_async_from f (S index) rest ;;
      ret (b :: bs)
  end.

Definition map_async {A B} (f : A -> nat -> M B) (items : list A) : M (list B) :=
  map_async_from f 0 items.

(* ===================================================================== *)
(** * Upstream client: [getBase64Avatar], [getContributors],
      [getAllContributors]                                                 *)
(* ===================================================================== *)

(** [error.response?.status === code] *)
Definition status_is (error : JsError) (code : nat) : bool :=
  match response_status error with
  | Some st => st =? code
  | None => false
  end.

(** Every failure of the avatar request is caught and turned into [null]. *)
Definition getBase64Avatar (avatarUrl : string) : M (option string) :=
  try_catch
    (response <- axios_avatar avatarUrl ;;
     let base64 := fst response in
     let contentType :=
       if Js.truthy (snd response) then default EmptyString (snd response) else "image/png" in
     ret (Some ("data:" +:+ contentType +:+ ";base64," +:+ base64)))
    (fun _ => ret None).

(** The [catch] block shared by the two fetchers. *)
Definition rethrow_upstream {A} (error : JsError) : M A :=
  if status_is error 404 then throw (Error "Repository not found")
  else if status_is error 403 then throw (Error "API rate limit exceeded")
  else if status_is error 401 then throw (Error "Authentication failed")
  else throw (Error "Failed to fetch contributors").

Definition freshEntry (cached : CacheEntry) (t : Z) : bool :=
  (t - timestamp cached <? CACHE_DURATION)%Z.

(** The callback of [response.data.map] in [getContributors]. *)
Definition process_contributor (includeAvatars : bool)
    (contributor : RawContributor) (index : nat) : M Contributor :=
  avatarData <- (if includeAvatars
                 then getBase64Avatar (raw_avatar_url contributor)
                 else ret None) ;;
  ret {| login := raw_login contributor;
         avatar_url := raw_avatar_url contributor;
         avatar_base64 := avatarData;
         html_url := raw_html_url contributor;
         contributions := raw_contributions contributor;
         fallback := generateAvatarPattern (raw_login contributor) index |}.

Definition contributorsKey (repo : string) (limit : nat) (includeAvatars : bool)
  : string :=
  repo +:+ "-" +:+ Js.of_nat limit +:+ "-" +:+ Js.of_bool includeAvatars.

(** The [try] block of [getContributors]. *)
Definition fetchContributors (repo : string) (limit : nat) (includeAvatars : bool)
  : M (list Contributor) :=
  try_catch
    (response <- axios_contributors repo (Nat.min limit 100) None ;;
     contributors <- map_async (process_contributor includeAvatars) response ;;
     t <- date_now ;;
     cache_set (contributorsKey repo limit includeAvatars)
               {| data := contributors; timestamp := t |} ;;;
     ret contributors)
    rethrow_upstream.

Definition getContributors (repo : string) (limit : nat) (includeAvatars : bool)
  : M (list Contributor) :=
  cached <- cache_get (contributorsKey repo limit includeAvatars) ;;
  match cached with
  | Some entry =>
      t <- date_now ;;
      if freshEntry entry t then ret (data entry)
      else fetchContributors repo limit includeAvatars
  | None => fetchContributors repo limit includeAvatars
  end.

(** The [while (hasMore)] loop of [getAllContributors], entered at its head
    with [hasMore = true]: one page request, then either the end of the loop
    or the next iteration. *)
Equations? fetchPages (repo : string) (page : nat)
    (allContributors : list RawContributor)
  : M (list RawContributor) by wf (101 - page) lt :=
  fetchPages repo page allContributors :=
    response <- axios_contributors repo 100 (Some page) ;;
    if length response =? 0 then
      (* hasMore = false; the loop ends through [break] or its condition *)
      if 100 <? page then ret allContributors
      else (delay 100 ;;; ret allContributors)
    else
      (* allContributors.push(...response.data); page++ *)
      match lt_dec 100 (page + 1) with
      | left _ => ret (allContributors ++ response)
      | right _ =>
          delay 100 ;;;
          fetchPages repo (page + 1) (allContributors ++ response)
      end.
Proof. lia. Qed.

(** The callback of [batch.map] in [getAllContributors]. *)
Definition process_batch_item (includeAvatars : bool) (i : nat)
    (contributor : RawContributor) (batchIndex : nat) : M Contributor :=
  let globalIndex := i + batchIndex in
  avatarData <- (if includeAvatars && (globalIndex <? 50)
                 then getBase64Avatar (raw_avatar_url contributor)
                 else ret None) ;;
  ret {| login := raw_login contributor;
         avatar_url := raw_avatar_url contributor;
         avatar_base64 := avatarData;
         html_url := raw_html_url contributor;
         contributions := raw_contributions contributor;
         fallback := generateAvatarPattern (raw_login contributor) globalIndex |}.

Definition batchSize : nat := 10.

(** [for (let i = ..; i < allContributors.length; i += batchSize)] *)
Equations? processBatches (includeAvatars : bool)
    (allContributors : list RawContributor) (i : nat)
    (processedContributors : list Contributor)
  : M (list Contributor) by wf (length allContributors - i) lt :=
  processBatches includeAvatars allContributors i processedContributors :=
    match lt_dec i (length allContributors) with
    | left _ =>
        let batch := take batchSize (drop i allContributors) in
        processedBatch <- map_async (process_batch_item includeAvatars i) batch ;;
        processBatches includeAvatars allContributors (i + batchSize)
                       (processedContributors ++ processedBatch)
    | right _ => ret processedContributors
    end.
Proof. unfold batchSize. lia. Qed.

Definition allKey (repo : string) (includeAvatars : bool) : string :=
  repo +:+ "-all-" +:+ Js.of_bool includeAvatars.

(** The [try] block of [getAllContributors]. *)
Definition fetchAllContributors (repo : string) (includeAvatars : bool)
  : M (list Contributor) :=
  try_catch
    (allContributors <- fetchPages repo 1 [] ;;
     processedContributors <- processBatches includeAvatars allContributors 0 [] ;;
     t <- date_now ;;
     cache_set (allKey repo includeAvatars)
               {| data := processedContributors; timestamp := t |} ;;;
     ret processedContributors)
    rethrow_upstream.

Definition getAllContributors (repo : string) (includeAvatars : bool)
  : M (list Contributor) :=
  cached <- cache_get (allKey repo includeAvatars) ;;
  match cached with
  | Some entry =>
      t <- date_now ;;
      if freshEntry entry t then ret (data entry)
      else fetchAllContributors repo includeAvatars
  | None => fetchAllContributors repo includeAvatars
  end.

(* ===================================================================== *)
(** * Request handlers                                                     *)
(* ===================================================================== *)

(** [req.query]: each parameter is absent or a string. *)
Record Query : Type := mkQuery {
  q_repo : option string;
  q_limit : option string;
  q_style : option string;
  q_theme : option string;
  q_avatars : option string
}.

Inductive Body : Type :=
| ErrorJson (error : string)
| Svg (doc : SvgDoc)
| StatsJson (repository : string) (total_contributors total_contributions : nat)
            (top_contributors : list Contributor) (last_updated : Z)
| RepoJson (info : RepoInfo).

Record Response : Type := mkResponse {
  status : nat;
  body : Body;
  cache_control : option string
}.

(** [return res.status(code).json({ error: msg })] *)
Definition reject (code : nat) (msg : string) : M Response :=
  ret {| status := code; body := ErrorJson msg; cache_control := None |}.

(** The double quote that the error messages contain. *)
Definition dq : string := String (ascii_of_nat 34) EmptyString.

Definition msgRepoFormat : string :=
  "Repository must be in format " +:+ dq +:+ "username/repo-name" +:+ dq.
Definition msgStyle : string :=
  "Style must be " +:+ dq +:+ "horizontal" +:+ dq +:+ " or " +:+ dq +:+ "grid" +:+ dq.
Definition msgTheme : string :=
  "Theme must be " +:+ dq +:+ "light" +:+ dq +:+ " or " +:+ dq +:+ "dark" +:+ dq.
Definition msgLimit : string :=
  "Limit must be between 1 and 100, or " +:+ dq +:+ "all" +:+ dq.

(** [!repo.includes('/') || repo.split('/').length !== 2] *)
Definition badRepoFormat (repo : string) : bool :=
  negb (Js.includes repo "/") || negb (length (Js.split "/" repo) =? 2).

(** [isNaN(limitNum) || limitNum < 1 || limitNum > 100]; a value that passes
    is returned as the number it is. *)
Definition checkLimit (limitNum : option Z) : option nat :=
  match limitNum with
  | None => None
  | Some v => if (v <? 1)%Z || (100 <? v)%Z then None else Some (Z.to_nat v)
  end.

(** [generateSVGBadge(..)] followed by the three headers and [res.send]. *)
Definition sendBadge (contributors : list Contributor) (finalStyle theme : string)
    (cacheControl : string) : M Response :=
  emit (EvRender (length contributors) finalStyle theme) ;;;
  ret {| status := 200;
         body := Svg (generateSVGBadge contributors finalStyle theme);
         cache_control := Some cacheControl |}.

(** The [catch] block of [/badge]. *)
Definition badgeCatch (error : JsError) : M Response :=
  if String.eqb (message error) "Repository not found"
  then reject 404 "Repository not found"
  else if String.eqb (message error) "API rate limit exceeded"
  then reject 429 "API rate limit exceeded. Please try again later."
  else if String.eqb (message error) "Authentication failed"
  then reject 401 "GitHub authentication failed"
  else reject 500 "Failed to generate badge".

(** [app.get('/badge', ..)] *)
Definition badge (q : Query) : M Response :=
  let repo := default EmptyString (q_repo q) in
  let limit := default "10" (q_limit q) in
  let style := default "horizontal" (q_style q) in
  let theme := default "light" (q_theme q) in
  let avatars := default "true" (q_avatars q) in
  if negb (Js.truthy (q_repo q)) then
    reject 400 "Repository parameter is required"
  else if badRepoFormat repo then
    reject 400 msgRepoFormat
  else if negb (str_in style ["horizontal"; "grid"]) then
    reject 400 msgStyle
  else if negb (str_in theme ["light"; "dark"]) then
    reject 400 msgTheme
  else
    try_catch
      (let includeAvatars := negb (String.eqb avatars "false") in
       if String.eqb limit "all" then
         contributors <- getAllContributors repo includeAvatars ;;
         let finalStyle :=
           if (20 <? length contributors) && String.eqb style "horizontal"
           then "grid" else style in
         if length contributors =? 0 then reject 404 "No contributors found"
         else sendBadge contributors finalStyle theme
                        "public, max-age=300, s-maxage=300"
       else
         match checkLimit (Js.parseInt limit) with
         | None => reject 400 msgLimit
         | Some limitNum =>
             contributors <- getContributors repo limitNum includeAvatars ;;
             if length contributors =? 0 then reject 404 "No contributors found"
             else sendBadge contributors style theme
                            "public, max-age=300, s-maxage=300"
         end)
      badgeCatch.

(** The [catch] block of [/badge/all]. *)
Definition badgeAllCatch (error : JsError) : M Response :=
  if String.eqb (message error) "Repository not found"
  then reject 404 "Repository not found"
  else if String.eqb (message error) "API rate limit exceeded"
  then reject 429 "API rate limit exceeded. Consider using a GitHub token."
  else reject 500 "Failed to generate badge with all contributors".

(** [app.get('/badge/all', ..)] *)
Definition badgeAll (q : Query) : M Response :=
  let repo := default EmptyString (q_repo q) in
  let style := default "grid" (q_style q) in
  let theme := default "light" (q_theme q) in
  let avatars := default "true" (q_avatars q) in
  if negb (Js.truthy (q_repo q)) then
    reject 400 "Repository parameter is required"
  else if badRepoFormat repo then
    reject 400 msgRepoFormat
  else
    try_catch
      (let includeAvatars := negb (String.eqb avatars "false") in
       contributors <- getAllContributors repo includeAvatars ;;
       if length contributors =? 0 then reject 404 "No contributors found"
       else
         let finalStyle := if 20 <? length contributors then "grid" else style in
         sendBadge contributors finalStyle theme
                   "public, max-age=3600, s-maxage=3600")
      badgeAllCatch.

(** The [catch] block of [/badge/fast]. *)
Definition badgeFastCatch (error : JsError) : M Response :=
  if String.eqb (message error) "Repository not found"
  then reject 404 "Repository not found"
  else if String.eqb (message error) "API rate limit exceeded"
  then reject 429 "API rate limit exceeded. Please try again later."
  else reject 500 "Failed to generate badge".

(** [app.get('/badge/fast', ..)] *)
Definition badgeFast (q : Query) : M Response :=
  let repo := default EmptyString (q_repo q) in
  let limit := default "10" (q_limit q) in
  let style := default "horizontal" (q_style q) in
  let theme := default "light" (q_theme q) in
  if negb (Js.truthy (q_repo q)) then
    reject 400 "Repository parameter is required"
  else if badRepoFormat repo then
    reject 400 msgRepoFormat
  else
    try_catch
      (if String.eqb limit "all" then
         contributors <- getAllContributors repo false ;;
         let finalStyle :=
           if (20 <? length contributors) && String.eqb style "horizontal"
           then "grid" else style in
         if length contributors =? 0 then reject 404 "No contributors found"
         else sendBadge contributors finalStyle theme
                        "public, max-age=300, s-maxage=300"
       else
         match checkLimit (Js.parseInt limit) with
         | None => reject 400 msgLimit
         | Some limitNum =>
             contributors <- getContributors repo limitNum false ;;
             if length contributors =? 0 then reject 404 "No contributors found"
             else sendBadge contributors style theme
                            "public, max-age=300, s-maxage=300"
         end)
      badgeFastCatch.

(** The [catch] block of [/stats]. *)
Definition statsCatch (error : JsError) : M Response :=
  if String.eqb (message error) "Repository not found"
  then reject 404 "Repository not found"
  else if String.eqb (message error) "API rate limit exceeded"
  then reject 429 "API rate limit exceeded"
  else reject 500 "Failed to fetch repository stats".

(** [app.get('/stats', ..)] *)
Definition stats (q : Query) : M Response :=
  let repo := default EmptyString (q_repo q) in
  if negb (Js.truthy (q_repo q)) then
    reject 400 "Repository parameter is required"
  else if badRepoFormat repo then
    reject 400 msgRepoFormat
  else
    try_catch
      (contributors <- getAllContributors repo false ;;
       t <- date_now ;;
       ret {| status := 200;
              body := StatsJson repo (length contributors)
                        (foldl (fun sum c => sum + contributions c) 0 contributors)
                        (take 10 contributors) t;
              cache_control := None |})
      statsCatch.

(** [app.get('/repo-info', ..)]: the identifier is only required to be
    present; its [catch] block looks at the upstream status itself. *)
Definition repoInfo (q : Query) : M Response :=
  let repo := default EmptyString (q_repo q) in
  if negb (Js.truthy (q_repo q)) then
    reject 400 "Repository parameter is required"
  else
    try_catch
      (info <- axios_repo repo ;;
       ret {| status := 200; body := RepoJson info; cache_control := None |})
      (fun error =>
         if status_is error 404 then reject 404 "Repository not found"
         else reject 500 "Failed to fetch repository information").

(** The four endpoints that render or summarise the contributor listing. *)
Inductive Endpoint : Type := EBadge | EBadgeAll | EBadgeFast | EStats.

Definition handle (e : Endpoint) : Query -> M Response :=
  match e with
  | EBadge => badge
  | EBadgeAll => badgeAll
  | EBadgeFast => badgeFast
  | EStats => stats
  end.

(* ===================================================================== *)
(** * Vocabulary of the statements                                         *)
(* ===================================================================== *)

(** ** Outcomes and events *)

Definition result_of {A} (o : Result A * World * list Event) : Result A := fst (fst o).
Definition world_of {A} (o : Result A * World * list Event) : World := snd (fst o).
Definition trace_of {A} (o : Result A * World * list Event) : list Event := snd o.

(** A computation all of whose events, in every run, satisfy [P]. *)
Definition emits {A} (P : Event -> Prop) (m : M A) : Prop :=
  forall env w, Forall P (trace_of (m env w)).

Definition is_render (ev : Event) : bool :=
  match ev with EvRender _ _ _ => true | _ => false end.

Definition is_list_request (ev : Event) : bool :=
  match ev with EvListContributors _ _ _ => true | _ => false end.

Definition is_avatar_fetch (ev : Event) : bool :=
  match ev with EvAvatarFetch _ => true | _ => false end.

(** Events other than renderer invocations. *)
Definition quiet (ev : Event) : Prop := is_render ev = false.

(** The listing requests of a trace, in order. *)
Definition list_requests (t : list Event) : list Event := List.filter is_list_request t.

(** The requests of one paginated fetch that asked for [k] pages from page
    [p] on. *)
Definition page_requests (repo : string) (p k : nat) : list Event :=
  map (fun j => EvListContributors repo 100 (Some j)) (seq p k).

(** The world after one clock read. *)
Definition tick (w : World) : World :=
  {| cache := cache w; clock_reads := S (clock_reads w); api_calls := api_calls w |}.

(** A computation that only talks to upstream: from [a] calls made so far
    it reaches [a'] calls, leaves cache and clock alone, and its outcome
    does not depend on them. *)
Definition upstream_run {A} (m : M A) (env : Env) (a : nat)
    (r : Result A) (a' : nat) (t : list Event) : Prop :=
  forall c n,
    m env {| cache := c; clock_reads := n; api_calls := a |}
    = (r, {| cache := c; clock_reads := n; api_calls := a' |}, t).

(** ** The two fetchers, uniformly *)

(** The two ways of fetching, as the cache keys distinguish them. *)
Inductive FetchKind : Type :=
| Bounded (limit : nat)
| Unbounded.

Definition fetcher (k : FetchKind) (repo : string) (includeAvatars : bool)
  : M (list Contributor) :=
  match k with
  | Bounded limit => getContributors repo limit includeAvatars
  | Unbounded => getAllContributors repo includeAvatars
  end.

(** The [try] block of each fetcher. *)
Definition fetchBlock (k : FetchKind) (repo : string) (includeAvatars : bool)
  : M (list Contributor) :=
  match k with
  | Bounded limit => fetchContributors repo limit includeAvatars
  | Unbounded => fetchAllContributors repo includeAvatars
  end.

Definition cacheKey (k : FetchKind) (repo : string) (includeAvatars : bool) : string :=
  match k with
  | Bounded limit => contributorsKey repo limit includeAvatars
  | Unbounded => allKey repo includeAvatars
  end.

(** The first listing request of a fetch: its page size and page. *)
Definition firstRequest (k : FetchKind) : nat * option nat :=
  match k with
  | Bounded limit => (Nat.min limit 100, None)
  | Unbounded => (100, Some 1)
  end.

(** What "one upstream fetch" is for each kind: one request without a page
    number, or the pages 1 .. k of one pagination, k between 1 and 100. *)
Definition one_fetch (k : FetchKind) (repo : string) (reqs : list Event) : Prop :=
  match k with
  | Bounded limit => reqs = [EvListContributors repo (Nat.min limit 100) None]
  | Unbounded => exists n, 1 <= n <= 100 /\ reqs = page_requests repo 1 n
  end.

(** The cache cannot serve [key]: it holds no entry for it, or one that is
    no longer fresh at the next clock reading. *)
Definition needs_fetch (env : Env) (w : World) (key : string) : Prop :=
  forall entry, cache w !! key = Some entry ->
                freshEntry entry (now env (clock_reads w)) = false.

(** The world a [try] block leaves behind when it started with cache [c]
    and [n] clock reads, ended with result [r] and made upstream calls up to
    [a']: a result is stored under [key] with the next clock reading, a
    failure stores nothing. *)
Definition after_fetch (env : Env) (key : string) (r : Result (list Contributor))
    (c : gmap string CacheEntry) (n a' : nat) : World :=
  match r with
  | Ok ps =>
      {| cache := <[key := {| data := ps; timestamp := now env n |}]> c;
         clock_reads := S n; api_calls := a' |}
  | Throw _ => {| cache := c; clock_reads := n; api_calls := a' |}
  end.

(** The items of the page answered at call number [a]. *)
Definition pageItems (env : Env) (repo : string) (a page : nat) : list RawContributor :=
  match contributors_api env a repo 100 (Some page) with
  | ListOk items => items
  | ListFail _ => []
  end.

(** The items of [k] successive pages from page [page], call number [a]. *)
Definition collected (env : Env) (repo : string) (a page k : nat)
  : list RawContributor :=
  flat_map (fun j => pageItems env repo (a + j) (page + j)) (seq 0 k).

(** Upstream answers every listing request for [repo]. *)
Definition listing_healthy (env : Env) (repo : string) : Prop :=
  forall a per_page page, exists items,
    contributors_api env a repo per_page page = ListOk items.

(** The message of the error the fetchers throw for an upstream status. *)
Definition upstreamMessage (st : option nat) : string :=
  let code := default 0 st in
  if code =? 404 then "Repository not found"
  else if code =? 403 then "API rate limit exceeded"
  else if code =? 401 then "Authentication failed"
  else "Failed to fetch contributors".

(** ** Processed records *)

(** The avatar host fails for [url] whenever it is asked. *)
Definition avatar_fails (env : Env) (url : string) : Prop :=
  forall k, avatar_api env k url = AvatarFail.

(** [p] is what the fetchers build from the upstream item [c] at position
    [index]: the upstream fields copied, the placeholder computed from the
    login and the position, and no inlined avatar when its fetch fails. *)
Definition processed_from (env : Env) (c : RawContributor) (index : nat)
    (p : Contributor) : Prop :=
  login p = raw_login c /\
  avatar_url p = raw_avatar_url c /\
  html_url p = raw_html_url c /\
  contributions p = raw_contributions c /\
  fallback p = generateAvatarPattern (raw_login c) index /\
  (avatar_fails env (raw_avatar_url c) -> avatar_base64 p = None).

(** [ps] is the processed form of the upstream items [raws], the first of
    which sits at position [start]. *)
Definition processed_list (env : Env) (raws : list RawContributor) (start : nat)
    (ps : list Contributor) : Prop :=
  length ps = length raws /\
  forall j c p, raws !! j = Some c -> ps !! j = Some p ->
                processed_from env c (start + j) p.

(** ** The handlers, uniformly *)

(** Which fetch a handler performs for a query, if the query gets past the
    parameter checks; [None] when a check rejects it. *)
Definition fetcherOf (e : Endpoint) (q : Query) : option (FetchKind * bool) :=
  let repo := default EmptyString (q_repo q) in
  let limit := default "10" (q_limit q) in
  let includeAvatars := negb (String.eqb (default "true" (q_avatars q)) "false") in
  if negb (Js.truthy (q_repo q)) || badRepoFormat repo then None
  else
    match e with
    | EBadge =>
        if negb (str_in (default "horizontal" (q_style q)) ["horizontal"; "grid"])
           || negb (str_in (default "light" (q_theme q)) ["light"; "dark"])
        then None
        else if String.eqb limit "all" then Some (Unbounded, includeAvatars)
        else match checkLimit (Js.parseInt limit) with
             | Some n => Some (Bounded n, includeAvatars)
             | None => None
             end
    | EBadgeAll => Some (Unbounded, includeAvatars)
    | EBadgeFast =>
        if String.eqb limit "all" then Some (Unbounded, false)
        else match checkLimit (Js.parseInt limit) with
             | Some n => Some (Bounded n, false)
             | None => None
             end
    | EStats => Some (Unbounded, false)
    end.

(** The style a request asks for, with the endpoint's default. *)
Definition requestedStyle (e : Endpoint) (q : Query) : string :=
  match e with
  | EBadgeAll => default "grid" (q_style q)
  | _ => default "horizontal" (q_style q)
  end.

Definition requestedTheme (q : Query) : string := default "light" (q_theme q).

(** The style handed to the renderer for a fetched list. *)
Definition finalStyleOf (e : Endpoint) (q : Query) (kind : FetchKind)
    (contributors : list Contributor) : string :=
  match e, kind with
  | EBadgeAll, _ =>
      if 20 <? length contributors then "grid" else requestedStyle e q
  | _, Unbounded =>
      if (20 <? length contributors) && String.eqb (requestedStyle e q) "horizontal"
      then "grid" else requestedStyle e q
  | _, Bounded _ => requestedStyle e q
  end.

Definition cacheControlOf (e : Endpoint) : string :=
  match e with
  | EBadgeAll => "public, max-age=3600, s-maxage=3600"
  | _ => "public, max-age=300, s-maxage=300"
  end.

Definition catchOf (e : Endpoint) : JsError -> M Response :=
  match e with
  | EBadge => badgeCatch
  | EBadgeAll => badgeAllCatch
  | EBadgeFast => badgeFastCatch
  | EStats => statsCatch
  end.

Definition is_badge (e : Endpoint) : bool :=
  match e with EStats => false | _ => true end.

(** What a handler does with the fetched list. *)
Definition afterFetch (e : Endpoint) (q : Query) (kind : FetchKind)
    (l : list Contributor) : M Response :=
  match e with
  | EStats =>
      t <- date_now ;;
      ret {| status := 200;
             body := StatsJson (default EmptyString (q_repo q)) (length l)
                       (foldl (fun sum c => sum + contributions c) 0 l)
                       (take 10 l) t;
             cache_control := None |}
  | _ =>
      if length l =? 0 then reject 404 "No contributors found"
      else sendBadge l (finalStyleOf e q kind l) (requestedTheme q) (cacheControlOf e)
  end.

(** The two answers of a badge endpoint after a successful fetch. *)
Definition notFound : Response :=
  {| status := 404; body := ErrorJson "No contributors found"; cache_control := None |}.

Definition badgeResponse (e : Endpoint) (q : Query) (kind : FetchKind)
    (l : list Contributor) : Response :=
  {| status := 200;
     body := Svg (generateSVGBadge l (finalStyleOf e q kind l) (requestedTheme q));
     cache_control := Some (cacheControlOf e) |}.

(** The status an endpoint answers with when the first listing request of a
    fetch fails with upstream status [st] ([None]: no response at all). *)
Definition reportedStatus (e : Endpoint) (st : option nat) : nat :=
  let code := default 0 st in
  if code =? 404 then 404
  else if code =? 403 then 429
  else if code =? 401 then match e with EBadge => 401 | _ => 500 end
  else 500.

(** ** The specification's wording *)

(** The status the specification asks for: not found gives 404, forbidden
    429, unauthorized 401, anything else 500. *)
Definition specStatus (st : option nat) : nat :=
  let code := default 0 st in
  if code =? 404 then 404
  else if code =? 403 then 429
  else if code =? 401 then 401
  else 500.

(** The repository identifier as the specification words it: exactly one
    separator, with a non-empty segment on each side. *)
Definition spec_repo_ok (repo : string) : bool :=
  match Js.split "/" repo with
  | [String _ _; String _ _] => true
  | _ => false
  end.

(** A decimal integer literal: digits only, at least one. *)
Definition is_integer_literal (s : string) : bool :=
  match s with
  | EmptyString => false
  | _ => forallb (fun a => (48 <=? nat_of_ascii a) && (nat_of_ascii a <=? 57))
                 (list_ascii_of_string s)
  end.

(** ** Sample queries and worlds used to run the handlers *)

Definition query (repo limit style : string) : Query :=
  {| q_repo := Some repo; q_limit := Some limit; q_style := Some style;
     q_theme := None; q_avatars := None |}.

Definition with_limit (q : Query) (limit : string) : Query :=
  {| q_repo := q_repo q; q_limit := Some limit; q_style := q_style q;
     q_theme := q_theme q; q_avatars := q_avatars q |}.

Definition sampleRaw (k : nat) : RawContributor :=
  {| raw_login := "user" +:+ Js.of_nat k;
     raw_avatar_url := "https://avatars.example/u/" +:+ Js.of_nat k;
     raw_html_url := "https://github.com/user" +:+ Js.of_nat k;
     raw_contributions := 100 - k |}.

Definition sampleList (n : nat) : list RawContributor := map sampleRaw (seq 0 n).

(** The sample contributors as the fetchers hand them to the renderer when
    no avatar could be inlined. *)
Definition data_of (n : nat) : list Contributor :=
  imap (fun index c =>
          {| login := raw_login c; avatar_url := raw_avatar_url c;
             avatar_base64 := None; html_url := raw_html_url c;
             contributions := raw_contributions c;
             fallback := generateAvatarPattern (raw_login c) index |})
       (sampleList n).

Definition emptyWorld : World := {| cache := ∅; clock_reads := 0; api_calls := 0 |}.

(** A world whose cache holds one entry, stored at [stored_at], after
    [reads] clock reads. *)
Definition cachedWorld (key : string) (ps : list Contributor) (stored_at : Z)
    (reads : nat) : World :=
  {| cache := <[key := {| data := ps; timestamp := stored_at |}]> ∅;
     clock_reads := reads; api_calls := 0 |}.

(** An upstream that answers every listing request with [answer], whose
    avatar host always answers [avatar], and whose clock advances by one
    second per reading. *)
Definition constEnv (answer : ListResp) (avatar : AvatarResp) : Env :=
  {| now := fun k => Z.of_nat (1000 * k);
     contributors_api := fun _ _ _ _ => answer;
     avatar_api := fun _ _ => avatar;
     repo_api := fun _ _ => RepoFail (Some 404) |}.

(** An upstream holding [n] contributors: a request without page number gets
    the first [per_page] of them, a paginated one gets them in pages. *)
Definition repoEnv (n : nat) (avatar : AvatarResp) : Env :=
  {| now := fun k => Z.of_nat (1000 * k);
     contributors_api := fun _ _ per_page page =>
       match page with
       | None => ListOk (take per_page (sampleList n))
       | Some p => ListOk (take per_page (drop ((p - 1) * per_page) (sampleList n)))
       end;
     avatar_api := fun _ _ => avatar;
     repo_api := fun _ _ => RepoFail (Some 404) |}.

(** ** Proof steps *)

Ltac unfold_handlers :=
  cbn [handle]; unfold badge, badgeAll, badgeFast, stats.

(* ===================================================================== *)
(** * Further vocabulary                                                   *)
(* ===================================================================== *)

(** The cell of an element: [itemWidth] by [itemHeight] from its origin. *)
Definition cellWidth : nat := Nat.max (avatarSize + padding) minItemWidth.
Definition cellHeight : nat := avatarSize + usernameHeight + spacing + padding.

(** Two elements whose cells do not overlap. *)
Definition cells_apart (a b : ContributorElement) : Prop :=
  el_x a + cellWidth <= el_x b \/ el_x b + cellWidth <= el_x a \/
  el_y a + cellHeight <= el_y b \/ el_y b + cellHeight <= el_y a.

(** The avatar requests of a trace, in order. *)
Definition avatar_requests (t : list Event) : list Event := List.filter is_avatar_fetch t.

(** The request for the avatar of an upstream item. *)
Definition avatarRequest (c : RawContributor) : Event := EvAvatarFetch (raw_avatar_url c).

(** [rel_from R index cs ps tss]: item by item, [R] relates the upstream
    item, its position (counted from [index]), the record built from it and
    the events of building it. *)
Inductive rel_from (R : RawContributor -> nat -> Contributor -> list Event -> Prop)
  : nat -> list RawContributor -> list Contributor -> list (list Event) -> Prop :=
| rel_nil index : rel_from R index [] [] []
| rel_cons index c cs p ps t tss :
    R c index p t -> rel_from R (S index) cs ps tss ->
    rel_from R index (c :: cs) (p :: ps) (t :: tss).

(** What the two processing callbacks build: the upstream fields, the
    placeholder of the position, and an avatar request exactly when
    [wanted]; without a request the record has no inlined avatar. *)
Definition built (wanted : nat -> bool) (c : RawContributor) (index : nat)
    (p : Contributor) (t : list Event) : Prop :=
  login p = raw_login c /\ avatar_url p = raw_avatar_url c
  /\ html_url p = raw_html_url c /\ contributions p = raw_contributions c
  /\ fallback p = generateAvatarPattern (raw_login c) index
  /\ t = (if wanted index then [avatarRequest c] else [])
  /\ (wanted index = false -> avatar_base64 p = None).

(** The positions whose avatar [getAllContributors] asks for. *)
Definition firstFifty (includeAvatars : bool) (index : nat) : bool :=
  includeAvatars && (index <? 50).

(* ===================================================================== *)
(** * The administrative endpoints                                         *)
(* ===================================================================== *)

(** [key.startsWith(prefix)] *)
Fixpoint startsWith (s prefix : string) {struct prefix} : bool :=
  match prefix with
  | EmptyString => true
  | String p prefix' =>
      match s with
      | String a s' => Ascii.eqb a p && startsWith s' prefix'
      | EmptyString => false
      end
  end.

(** The other operations of the [cache] map.  The events record the
    accesses of the fetchers only; these operations emit none. *)

(** [cache.size] *)
Definition cache_size : M nat := fun _ w => (Ok (size (cache w)), w, []).

(** [cache.clear()] *)
Definition cache_clear : M unit :=
  fun _ w =>
    (Ok tt, {| cache := ∅; clock_reads := clock_reads w; api_calls := api_calls w |}, []).

(** [cache.keys()], consumed by a [for .. of] loop.  The order is the one of
    the map; what the handler below does with the keys does not depend on
    it. *)
Definition cache_keys : M (list string) :=
  fun _ w => (Ok (map fst (map_to_list (cache w))), w, []).

(** [cache.delete(key)] *)
Definition cache_delete (key : string) : M unit :=
  fun _ w =>
    (Ok tt,
     {| cache := delete key (cache w); clock_reads := clock_reads w;
        api_calls := api_calls w |},
     []).

(** [items.forEach(f)] *)
Fixpoint forEach {A} (f : A -> M unit) (items : list A) : M unit :=
  match items with
  | [] => ret tt
  | item :: rest => f item ;;; forEach f rest
  end.

Inductive AdminBody : Type :=
| AdminError (error : string)
| ClearedJson (message : string) (cleared_entries : nat) (timestamp : Z)
| InvalidatedJson (message repository : string) (cleared_entries : nat) (timestamp : Z).

Record AdminResponse : Type := mkAdminResponse {
  admin_status : nat;
  admin_body : AdminBody
}.

(** [app.post('/clear-cache', ..)] *)
Definition clearCache : M AdminResponse :=
  originalSize <- cache_size ;;
  cache_clear ;;;
  t <- date_now ;;
  ret {| admin_status := 200;
         admin_body := ClearedJson "Cache cleared successfully" originalSize t |}.

(** [app.post('/webhook/invalidate', ..)].  The argument is [req.body]:
    [None] when it is [undefined] (no body parser has filled it in), in
    which case the destructuring throws; otherwise its [repo] field, absent
    or a string. *)
Definition webhookInvalidate (body : option (option string)) : M AdminResponse :=
  match body with
  | None =>
      throw (Error "Cannot destructure property 'repo' of 'req.body' as it is undefined.")
  | Some field =>
      if negb (Js.truthy field) then
        ret {| admin_status := 400;
               admin_body := AdminError "Repository parameter is required" |}
      else
        let repo := default EmptyString field in
        keys <- cache_keys ;;
        let keysToDelete := List.filter (fun key => startsWith key repo) keys in
        forEach cache_delete keysToDelete ;;;
        t <- date_now ;;
        ret {| admin_status := 200;
               admin_body := InvalidatedJson "Cache invalidated successfully" repo
                               (length keysToDelete) t |}
  end.

(* ===================================================================== *)
(** * The report of the batch endpoint                                     *)
(* ===================================================================== *)

(** An element of the array that [Promise.allSettled] resolves to. *)
Inductive Settled (A : Type) : Type :=
| Fulfilled (value : A)
| Rejected (reason : JsError).
Arguments Fulfilled {A} value.
Arguments Rejected {A} reason.

(** [results.filter(result => result.status === 'fulfilled')
            .map(result => result.value)] *)
Definition batchSuccessful {A} (results : list (Settled A)) : list A :=
  omap (fun result => match result with Fulfilled v => Some v | Rejected _ => None end)
       results.

Record FailedEntry : Type := mkFailed {
  failed_repository : option string;     (* [undefined] out of range *)
  failed_error : string
}.

(** [results.filter(result => result.status === 'rejected')
            .map((result, index) => ({ repository: repositories[index],
                                       error: result.reason.message }))] *)
Definition batchFailed {A} (repositories : list string) (results : list (Settled A))
  : list FailedEntry :=
  imap (fun index reason =>
          {| failed_repository := repositories !! index;
             failed_error := message reason |})
       (omap (fun result => match result with Rejected reason => Some reason | Fulfilled _ => None end)
             results).

(* ===================================================================== *)
(** * Pacing of the pagination                                             *)
(* ===================================================================== *)

(** The events of [k] page requests from page [p] on, each followed by the
    pause of 100 ms. *)
Definition paced_requests (repo : string) (p k : nat) : list Event :=
  flat_map (fun j => [EvListContributors repo 100 (Some j); EvDelay 100]) (seq p k).

(* ===================================================================== *)
(** * Strings                                                              *)
(* ===================================================================== *)

Lemma split_nonempty c s : Js.split c s <> [].
Proof.
  induction s as [|a s IH]; simpl; [discriminate|].
  destruct (Ascii.eqb a c); [discriminate|].
  destruct (Js.split c s); [contradiction | discriminate].
Qed.

Lemma split_length c s : length (Js.split c s) = S (Js.count c s).
Proof.
  induction s as [|a s IH]; simpl; [reflexivity|].
  destruct (Ascii.eqb a c); simpl; [now rewrite IH|].
  destruct (Js.split c s) eqn:E; [now destruct (split_nonempty c s)|]. simpl in *. lia.
Qed.

Lemma includes_count s c : Js.includes s c = (0 <? Js.count c s).
Proof.
  induction s as [|a s IH]; simpl; [reflexivity|].
  destruct (Ascii.eqb a c); simpl; [reflexivity|exact IH].
Qed.

Lemma badRepoFormat_count repo : badRepoFormat repo = negb (Js.count "/" repo =? 1).
Proof.
  unfold badRepoFormat. rewrite includes_count, split_length.
  destruct (Js.count "/" repo) as [|[|n]]; reflexivity.
Qed.



(* ===================================================================== *)
(** * Anatomy of a handler                                                 *)
(* ===================================================================== *)

(** A query that fails a parameter check is answered 400 at once: the world
    is untouched and nothing is emitted. *)
Lemma handle_rejected e q :
  fetcherOf e q = None ->
  exists msg, forall env w,
    handle e q env w =
    (Ok {| status := 400; body := ErrorJson msg; cache_control := None |}, w, []).
Proof.
  unfold fetcherOf. intros H.
  destruct (Js.truthy (q_repo q)) eqn:Ht; cbn [negb orb] in H.
  2: { exists "Repository parameter is required". intros.
       destruct e; unfold_handlers; rewrite Ht; reflexivity. }
  destruct (badRepoFormat _) eqn:Hf.
  { exists msgRepoFormat. intros.
    destruct e; unfold_handlers; rewrite Ht, Hf; reflexivity. }
  destruct e; try discriminate.
  - destruct (str_in (default "horizontal" _) _) eqn:Hs; cbn [negb orb] in H.
    2: { exists msgStyle. intros. unfold_handlers. rewrite Ht, Hf, Hs. reflexivity. }
    destruct (str_in (default "light" _) _) eqn:Hth; cbn [negb orb] in H.
    2: { exists msgTheme. intros. unfold_handlers. rewrite Ht, Hf, Hs, Hth. reflexivity. }
    destruct (String.eqb _ "all") eqn:Hall; [discriminate|].
    destruct (checkLimit _) eqn:Hl; [discriminate|].
    exists msgLimit. intros. unfold_handlers.
    rewrite Ht, Hf, Hs, Hth, Hall, Hl. reflexivity.
  - destruct (String.eqb _ "all") eqn:Hall; [discriminate|].
    destruct (checkLimit _) eqn:Hl; [discriminate|].
    exists msgLimit. intros. unfold_handlers.
    rewrite Ht, Hf, Hall, Hl. reflexivity.
Qed.

(** A query that passes the checks runs its fetcher inside the handler's
    [try] block. *)
Lemma handle_anatomy e q kind incl :
  fetcherOf e q = Some (kind, incl) ->
  forall env w,
    handle e q env w =
    try_catch (l <- fetcher kind (default EmptyString (q_repo q)) incl ;;
               afterFetch e q kind l)
              (catchOf e) env w.
Proof.
  unfold fetcherOf. intros H env w.
  destruct (Js.truthy (q_repo q)) eqn:Ht; cbn [negb orb] in H; [|discriminate].
  destruct (badRepoFormat _) eqn:Hf; [discriminate|].
  destruct e; unfold_handlers; rewrite Ht, Hf; cbn [negb].
  - destruct (str_in (default "horizontal" _) _) eqn:Hs; cbn [negb orb] in H |- *;
      [|discriminate].
    destruct (str_in (default "light" _) _) eqn:Hth; cbn [negb orb] in H |- *;
      [|discriminate].
    destruct (String.eqb _ "all") eqn:Hall.
    + injection H as <- <-. reflexivity.
    + destruct (checkLimit _); [|discriminate]. injection H as <- <-. reflexivity.
  - injection H as <- <-. unfold try_catch, bind. cbn [fetcher].
    destruct (getAllContributors _ _ env w) as [[[l|err] w1] t1]; [|reflexivity].
    unfold afterFetch. destruct (length l =? 0); reflexivity.
  - destruct (String.eqb _ "all") eqn:Hall.
    + injection H as <- <-. reflexivity.
    + destruct (checkLimit _); [|discriminate]. injection H as <- <-. reflexivity.
  - injection H as <- <-. reflexivity.
Qed.

(* ===================================================================== *)
(** * Events of a computation                                              *)
(* ===================================================================== *)

Section Emits.
Context (P : Event -> Prop).

Lemma emits_ret {A} (a : A) : emits P (ret a).
Proof. intros env w. constructor. Qed.

Lemma emits_throw {A} e : emits P (@throw A e).
Proof. intros env w. constructor. Qed.

Lemma emits_bind {A B} (m : M A) (k : A -> M B) :
  emits P m -> (forall a, emits P (k a)) -> emits P (bind m k).
Proof.
  intros Hm Hk env w. unfold bind, trace_of.
  specialize (Hm env w). unfold trace_of in Hm.
  destruct (m env w) as [[[a|e] w1] t1]; cbn in *; [|exact Hm].
  specialize (Hk a env w1). unfold trace_of in Hk.
  destruct (k a env w1) as [[r w2] t2]; cbn in *.
  apply Forall_app; split; assumption.
Qed.

Lemma emits_try_catch {A} (m : M A) (h : JsError -> M A) :
  emits P m -> (forall e, emits P (h e)) -> emits P (try_catch m h).
Proof.
  intros Hm Hh env w. unfold try_catch, trace_of.
  specialize (Hm env w). unfold trace_of in Hm.
  destruct (m env w) as [[[a|e] w1] t1]; cbn in *; [exact Hm|].
  specialize (Hh e env w1). unfold trace_of in Hh.
  destruct (h e env w1) as [[r w2] t2]; cbn in *.
  apply Forall_app; split; assumption.
Qed.

Lemma emits_emit ev : P ev -> emits P (emit ev).
Proof. intros H env w. repeat constructor. exact H. Qed.

Lemma emits_date_now : emits P date_now.
Proof. intros env w. constructor. Qed.

Lemma emits_map_async {A B} (f : A -> nat -> M B) items :
  (forall a i, emits P (f a i)) -> emits P (map_async f items).
Proof.
  intros Hf. unfold map_async. generalize 0.
  induction items as [|a items IH]; intros i; cbn [map_async_from].
  - apply emits_ret.
  - apply emits_bind; [apply Hf|]. intros b.
    apply emits_bind; [apply IH|]. intros bs. apply emits_ret.
Qed.
End Emits.


(** The upstream client never invokes the renderer. *)
Lemma quiet_getBase64Avatar url : emits quiet (getBase64Avatar url).
Proof.
  apply emits_try_catch.
  - apply emits_bind.
    + intros env w. repeat constructor.
    + intros a. apply emits_ret.
  - intros e. apply emits_ret.
Qed.

Lemma quiet_axios_contributors repo pp pg : emits quiet (axios_contributors repo pp pg).
Proof. intros env w. repeat constructor. Qed.

Lemma quiet_cache_get key : emits quiet (cache_get key).
Proof. intros env w. repeat constructor. Qed.

Lemma quiet_cache_set key e : emits quiet (cache_set key e).
Proof. intros env w. repeat constructor. Qed.

Lemma quiet_rethrow {A} e : emits quiet (@rethrow_upstream A e).
Proof.
  unfold rethrow_upstream.
  repeat match goal with |- context [if ?b then _ else _] => destruct b end;
    apply emits_throw.
Qed.

Lemma quiet_fetchPages repo page acc : emits quiet (fetchPages repo page acc).
Proof.
  funelim (fetchPages repo page acc).
  apply emits_bind; [apply quiet_axios_contributors|]. intros response.
  destruct (length response =? 0).
  - destruct (100 <? page); [apply emits_ret|].
    apply emits_bind; [apply emits_emit; reflexivity|]. intros _. apply emits_ret.
  - destruct (lt_dec 100 (page + 1)); [apply emits_ret|].
    apply emits_bind; [apply emits_emit; reflexivity|]. intros u env w.
    match goal with IH : forall r, _ -> unit -> Env -> World -> _ |- _ =>
      exact (IH response n u env w env w) end.
Qed.

Lemma quiet_process_batch_item incl i c j : emits quiet (process_batch_item incl i c j).
Proof.
  unfold process_batch_item. apply emits_bind.
  - destruct (incl && _); [apply quiet_getBase64Avatar | apply emits_ret].
  - intros a. apply emits_ret.
Qed.

Lemma quiet_process_contributor incl c j : emits quiet (process_contributor incl c j).
Proof.
  unfold process_contributor. apply emits_bind.
  - destruct incl; [apply quiet_getBase64Avatar | apply emits_ret].
  - intros a. apply emits_ret.
Qed.

Lemma quiet_processBatches incl all i acc : emits quiet (processBatches incl all i acc).
Proof.
  funelim (processBatches incl all i acc).
  destruct (lt_dec i (length allContributors)); [|apply emits_ret].
  apply emits_bind.
  - apply emits_map_async. intros; apply quiet_process_batch_item.
  - intros pb env w.
    match goal with IH : forall _ : _ < _, _ |- _ =>
      exact (IH l pb env w env w) end.
Qed.

Lemma quiet_fetcher kind repo incl : emits quiet (fetcher kind repo incl).
Proof.
  destruct kind as [limit|]; cbn [fetcher].
  - unfold getContributors.
    assert (Hf : emits quiet (fetchContributors repo limit incl)).
    { apply emits_try_catch; [|intros; apply quiet_rethrow].
      apply emits_bind; [apply quiet_axios_contributors|]. intros response.
      apply emits_bind.
      { apply emits_map_async. intros; apply quiet_process_contributor. }
      intros l. apply emits_bind; [apply emits_date_now|]. intros t.
      apply emits_bind; [apply quiet_cache_set|]. intros _. apply emits_ret. }
    apply emits_bind; [apply quiet_cache_get|]. intros [entry|]; [|exact Hf].
    apply emits_bind; [apply emits_date_now|]. intros t.
    destruct (freshEntry entry t); [apply emits_ret|exact Hf].
  - unfold getAllContributors.
    assert (Hf : emits quiet (fetchAllContributors repo incl)).
    { apply emits_try_catch; [|intros; apply quiet_rethrow].
      apply emits_bind; [apply quiet_fetchPages|]. intros response.
      apply emits_bind; [apply quiet_processBatches|].
      intros l. apply emits_bind; [apply emits_date_now|]. intros t.
      apply emits_bind; [apply quiet_cache_set|]. intros _. apply emits_ret. }
    apply emits_bind; [apply quiet_cache_get|]. intros [entry|]; [|exact Hf].
    apply emits_bind; [apply emits_date_now|]. intros t.
    destruct (freshEntry entry t); [apply emits_ret|exact Hf].
Qed.

Lemma catchOf_run e err :
  exists resp, (forall env w, catchOf e err env w = (Ok resp, w, [])) /\
               In (status resp) [404; 429; 401; 500].
Proof.
  destruct e; cbn [catchOf];
    unfold badgeCatch, badgeAllCatch, badgeFastCatch, statsCatch;
    repeat match goal with |- context [if ?b then _ else _] => destruct b end;
    eexists; (split; [intros; reflexivity | cbn; tauto]).
Qed.



(** The run of a badge endpoint in terms of the run of its fetcher. *)
Lemma handle_run e q kind incl :
  fetcherOf e q = Some (kind, incl) -> is_badge e = true ->
  forall env w,
    match fetcher kind (default EmptyString (q_repo q)) incl env w with
    | (Ok l, w1, t1) =>
        handle e q env w =
        if length l =? 0 then (Ok notFound, w1, t1)
        else (Ok (badgeResponse e q kind l), w1,
              t1 ++ [EvRender (length l) (finalStyleOf e q kind l) (requestedTheme q)])
    | (Throw err, w1, t1) =>
        exists resp, handle e q env w = (Ok resp, w1, t1) /\
                     In (status resp) [404; 429; 401; 500] /\
                     forall env' w', catchOf e err env' w' = (Ok resp, w', [])
    end.
Proof.
  intros Hf Hb env w. rewrite (handle_anatomy _ _ _ _ Hf).
  unfold try_catch, bind.
  destruct (fetcher kind _ incl env w) as [[[l|err] w1] t1].
  - assert (afterFetch e q kind l =
            if length l =? 0 then reject 404 "No contributors found"
            else sendBadge l (finalStyleOf e q kind l) (requestedTheme q) (cacheControlOf e)) as ->
      by (destruct e; try discriminate; reflexivity).
    destruct (length l =? 0); cbn; [rewrite app_nil_r|]; reflexivity.
  - destruct (catchOf_run e err) as (resp & Hr & Hs).
    exists resp. rewrite Hr, app_nil_r. auto.
Qed.

Lemma quiet_no_render t n s th : Forall quiet t -> In (EvRender n s th) t -> False.
Proof.
  induction 1 as [|ev t Hev _ IH]; intros Hin; [destruct Hin|].
  destruct Hin as [->|Hin]; [discriminate|auto].
Qed.

(* ===================================================================== *)
(** * Renderer invocations                                                 *)
(* ===================================================================== *)

(** Every renderer invocation of a handler comes after a successful fetch of
    a non-empty list, with the style and theme the handler computed. *)
Lemma renders_of_handle e q env w n s th :
  In (EvRender n s th) (trace_of (handle e q env w)) ->
  is_badge e = true /\
  exists kind incl l w1 t1,
    fetcherOf e q = Some (kind, incl) /\
    fetcher kind (default EmptyString (q_repo q)) incl env w = (Ok l, w1, t1) /\
    l <> [] /\ n = length l /\ s = finalStyleOf e q kind l /\ th = requestedTheme q.
Proof.
  intros Hin.
  destruct (fetcherOf e q) as [[kind incl]|] eqn:Hf.
  2: { destruct (handle_rejected _ _ Hf) as [msg Hr]. rewrite Hr in Hin. destruct Hin. }
  pose proof (quiet_fetcher kind (default EmptyString (q_repo q)) incl env w) as Hq.
  destruct (is_badge e) eqn:Hb.
  - split; [reflexivity|].
    pose proof (handle_run _ _ _ _ Hf Hb env w) as Hr.
    destruct (fetcher kind _ incl env w) as [[[l|err] w1] t1] eqn:Hm; cbn in Hq.
    + destruct (length l =? 0) eqn:Hl; rewrite Hr in Hin; cbn in Hin.
      * destruct (quiet_no_render _ _ _ _ Hq Hin).
      * apply in_app_or in Hin. destruct Hin as [Hin|[Hin|[]]].
        { destruct (quiet_no_render _ _ _ _ Hq Hin). }
        injection Hin as <- <- <-.
        exists kind, incl, l, w1, t1. repeat split; auto.
        intros ->. discriminate.
    + destruct Hr as (resp & Hr & _). rewrite Hr in Hin. cbn in Hin.
      destruct (quiet_no_render _ _ _ _ Hq Hin).
  - exfalso. destruct e; try discriminate.
    rewrite (handle_anatomy _ _ _ _ Hf) in Hin.
    unfold try_catch, bind, trace_of in Hin.
    destruct (fetcher kind _ incl env w) as [[[l|err] w1] t1]; cbn in Hq, Hin.
    + rewrite app_nil_r in Hin.
      destruct (quiet_no_render _ _ _ _ Hq Hin).
    + destruct (catchOf_run EStats err) as (resp & Hr & _). rewrite Hr in Hin.
      cbn in Hin. rewrite app_nil_r in Hin.
      destruct (quiet_no_render _ _ _ _ Hq Hin).
Qed.

Lemma unbounded_kind e q kind incl :
  fetcherOf e q = Some (kind, incl) ->
  e = EBadgeAll \/ q_limit q = Some "all" -> e = EStats \/ kind = Unbounded.
Proof.
  unfold fetcherOf. intros H Hc.
  destruct (negb _ || _); [discriminate|].
  destruct e; auto.
  - destruct Hc as [|Hl]; [discriminate|]. rewrite Hl in H. cbn in H.
    destruct (negb _ || _); [discriminate|]. injection H as <- _. auto.
  - injection H as <- _. auto.
  - destruct Hc as [|Hl]; [discriminate|]. rewrite Hl in H. cbn in H.
    injection H as <- _. auto.
Qed.

(** C1 as stated fails: [/badge] with a numeric limit of 25, 25 contributors
    fetched and style [horizontal] invokes the renderer with [horizontal]. *)
Lemma numeric_limit_keeps_horizontal :
  ~ (forall e q env w n s th,
        is_badge e = true ->
        In (EvRender n s th) (trace_of (handle e q env w)) ->
        20 < n -> requestedStyle e q = "horizontal" -> s = "grid").
Proof.
  intros H.
  specialize (H EBadge (query "octocat/hello" "25" "horizontal")
                (repoEnv 25 AvatarFail) emptyWorld 25 "horizontal" "light" eq_refl).
  assert (Hin : In (EvRender 25 "horizontal" "light")
                   (trace_of (handle EBadge (query "octocat/hello" "25" "horizontal")
                                     (repoEnv 25 AvatarFail) emptyWorld))).
  { vm_compute. repeat (first [left; reflexivity | right]). }
  specialize (H Hin ltac:(lia) eq_refl). discriminate.
Qed.

Lemma bounded_kind e q kind incl :
  fetcherOf e q = Some (kind, incl) ->
  e <> EBadgeAll -> q_limit q <> Some "all" -> e = EStats \/ exists n, kind = Bounded n.
Proof.
  unfold fetcherOf. intros H He Hl.
  assert (String.eqb (default "10" (q_limit q)) "all" = false) as Hall.
  { apply String.eqb_neq. destruct (q_limit q) as [l|]; [|discriminate].
    cbn. congruence. }
  destruct (negb _ || _); [discriminate|].
  destruct e; auto; try congruence; rewrite Hall in H.
  - destruct (negb _ || _); [discriminate|].
    destruct (checkLimit _); [|discriminate]. injection H as <- _. eauto.
  - destruct (checkLimit _); [|discriminate]. injection H as <- _. eauto.
Qed.

(** C1, amended.  When the list comes from the unbounded fetch ([/badge/all],
    or [/badge] and [/badge/fast] with [limit=all]), more than 20
    contributors requested in style [horizontal] are rendered in style
    [grid]; with a numeric limit the renderer gets the requested style. *)
Theorem escalation_on_unbounded_fetch e q env w n s th :
  In (EvRender n s th) (trace_of (handle e q env w)) ->
  (e = EBadgeAll \/ q_limit q = Some "all" ->
   20 < n -> requestedStyle e q = "horizontal" -> s = "grid")
  /\
  (e <> EBadgeAll -> q_limit q <> Some "all" -> s = requestedStyle e q).
Proof.
  intros Hin.
  destruct (renders_of_handle _ _ _ _ _ _ _ Hin)
    as (Hb & kind & incl & l & w1 & t1 & Hf & Hm & Hne & -> & -> & ->).
  split.
  - intros Hc Hn Hs.
    destruct (unbounded_kind _ _ _ _ Hf Hc) as [->| ->]; [discriminate|].
    apply Nat.ltb_lt in Hn.
    destruct e; try discriminate; cbn [finalStyleOf]; rewrite Hn; [|reflexivity|];
      rewrite Hs; reflexivity.
  - intros He Hl.
    destruct (bounded_kind _ _ _ _ Hf He Hl) as [->|[m ->]]; [discriminate|].
    destruct e; try discriminate; try congruence; reflexivity.
Qed.

Lemma escalation_on_unbounded_fetch_witness :
  In (EvRender 25 "grid" "light")
     (trace_of (handle EBadge (query "octocat/hello" "all" "horizontal")
                       (repoEnv 25 AvatarFail) emptyWorld))
  /\ "grid" = "grid"
  /\ In (EvRender 25 "horizontal" "light")
        (trace_of (handle EBadgeFast (query "octocat/hello" "25" "horizontal")
                          (repoEnv 25 AvatarFail) emptyWorld))
  /\ "horizontal" = requestedStyle EBadgeFast (query "octocat/hello" "25" "horizontal").
Proof.
  assert (Hall : In (EvRender 25 "grid" "light")
     (trace_of (handle EBadge (query "octocat/hello" "all" "horizontal")
                       (repoEnv 25 AvatarFail) emptyWorld))).
  { vm_compute. repeat (first [left; reflexivity | right]). }
  assert (Hnum : In (EvRender 25 "horizontal" "light")
     (trace_of (handle EBadgeFast (query "octocat/hello" "25" "horizontal")
                       (repoEnv 25 AvatarFail) emptyWorld))).
  { vm_compute. repeat (first [left; reflexivity | right]). }
  split; [exact Hall|]. split.
  - apply (proj1 (escalation_on_unbounded_fetch EBadge
                    (query "octocat/hello" "all" "horizontal")
                    (repoEnv 25 AvatarFail) emptyWorld 25 "grid" "light" Hall));
      [right; reflexivity | lia | reflexivity].
  - split; [exact Hnum|].
    apply (proj2 (escalation_on_unbounded_fetch EBadgeFast
                    (query "octocat/hello" "25" "horizontal")
                    (repoEnv 25 AvatarFail) emptyWorld 25 "horizontal" "light" Hnum));
      discriminate.
Defined.

Lemma ceil_sqrt_pos n : 0 < n -> 0 < ceil_sqrt n.
Proof.
  intros H. unfold ceil_sqrt.
  destruct (Nat.sqrt_up_spec n H) as [_ Hle].
  destruct (Nat.sqrt_up n); [simpl in Hle; lia | lia].
Qed.

Lemma ceil_div_num n c : 0 < c -> exists rows, ceil_div n c = Num rows.
Proof. destruct c; [lia|]. intros _. eexists. reflexivity. Qed.

(** C9. On [/badge], [/badge/all] and [/badge/fast] the renderer is only
    invoked with a non-empty list, so the grid branch never divides by a
    zero column count; and when the fetch returns no contributor the answer
    is 404 and the renderer is not invoked. *)
Theorem renderer_never_sees_empty_list e q env w :
  is_badge e = true ->
  (forall n s th,
      In (EvRender n s th) (trace_of (handle e q env w)) ->
      0 < n /\ 0 < ceil_sqrt n /\ exists rows, ceil_div n (ceil_sqrt n) = Num rows)
  /\
  (forall kind incl w1 t1,
      fetcherOf e q = Some (kind, incl) ->
      fetcher kind (default EmptyString (q_repo q)) incl env w = (Ok [], w1, t1) ->
      handle e q env w = (Ok notFound, w1, t1) /\
      forall n s th, ~ In (EvRender n s th) t1).
Proof.
  intros Hb. split.
  - intros n s th Hin.
    destruct (renders_of_handle _ _ _ _ _ _ _ Hin)
      as (_ & kind & incl & l & w1 & t1 & Hf & Hm & Hne & -> & _).
    assert (0 < length l) by (destruct l; [congruence | simpl; lia]).
    split; [assumption|]. split; [now apply ceil_sqrt_pos|].
    apply ceil_div_num. now apply ceil_sqrt_pos.
  - intros kind incl w1 t1 Hf Hm.
    pose proof (handle_run _ _ _ _ Hf Hb env w) as Hr. rewrite Hm in Hr.
    split; [exact Hr|]. intros n s th Hin.
    pose proof (quiet_fetcher kind (default EmptyString (q_repo q)) incl env w) as Hq.
    rewrite Hm in Hq. exact (quiet_no_render _ _ _ _ Hq Hin).
Qed.

Lemma renderer_never_sees_empty_list_witness :
  handle EBadgeAll (query "octocat/hello" "10" "grid")
         (constEnv (ListOk []) AvatarFail) emptyWorld
  = (Ok notFound,
     {| cache := <[ "octocat/hello-all-true" := {| data := []; timestamp := 0 |} ]> ∅;
        clock_reads := 1; api_calls := 1 |},
     [EvCacheGet "octocat/hello-all-true";
      EvListContributors "octocat/hello" 100 (Some 1);
      EvDelay 100;
      EvCacheSet "octocat/hello-all-true"]).
Proof.
  apply (proj2 (renderer_never_sees_empty_list EBadgeAll (query "octocat/hello" "10" "grid")
                  (constEnv (ListOk []) AvatarFail) emptyWorld eq_refl)
               Unbounded true); reflexivity.
Defined.

(* ===================================================================== *)
(** * Parameter validation                                                 *)
(* ===================================================================== *)

Lemma handle_status e q kind incl :
  fetcherOf e q = Some (kind, incl) ->
  forall env w, exists resp,
    result_of (handle e q env w) = Ok resp /\ In (status resp) [200; 404; 429; 401; 500].
Proof.
  intros Hf env w. rewrite (handle_anatomy _ _ _ _ Hf).
  unfold try_catch, bind, result_of.
  destruct (fetcher kind _ incl env w) as [[[l|err] w1] t1].
  - destruct e; cbn [afterFetch]; try destruct (length l =? 0); cbn;
      eexists; (split; [reflexivity | cbn; tauto]).
  - destruct (catchOf_run e err) as (resp & Hr & Hs). rewrite Hr.
    exists resp. split; [reflexivity | cbn in *; tauto].
Qed.

Lemma fetcherOf_bad_repo e q :
  Js.truthy (q_repo q) = false \/ Js.count "/" (default EmptyString (q_repo q)) <> 1 ->
  fetcherOf e q = None.
Proof.
  intros H. unfold fetcherOf. rewrite badRepoFormat_count.
  destruct H as [-> | H]; [reflexivity|].
  apply Nat.eqb_neq in H. rewrite H. now rewrite orb_true_r.
Qed.

(** C2 as stated fails: the identifier [a/] has an empty segment, yet
    [/badge] looks it up in the cache and asks upstream for it. *)
Lemma trailing_slash_reaches_upstream :
  ~ (forall e q env w repo,
        q_repo q = Some repo -> spec_repo_ok repo = false ->
        exists resp, handle e q env w = (Ok resp, w, []) /\ status resp = 400).
Proof.
  intros H.
  destruct (H EBadge (query "a/" "10" "horizontal")
              (constEnv (ListFail (Some 404)) AvatarFail) emptyWorld "a/"
              eq_refl eq_refl) as (resp & Hr & _).
  vm_compute in Hr. discriminate.
Qed.

Lemma bad_repo_rejected e q env w :
  Js.truthy (q_repo q) = false \/
  Js.count "/" (default EmptyString (q_repo q)) <> 1 ->
  exists resp, handle e q env w = (Ok resp, w, []) /\ status resp = 400.
Proof.
  intros H. destruct (handle_rejected _ _ (fetcherOf_bad_repo e q H)) as [msg Hr].
  eexists. split; [apply Hr | reflexivity].
Qed.

(** C2, amended.  On [/badge], [/badge/all], [/badge/fast] and [/stats] an
    identifier that is absent, empty, or does not contain exactly one
    separator is answered 400 before any cache access or upstream call; an
    identifier with exactly one separator passes the check even when a
    segment is empty, and on [/badge/all] and [/stats], which check nothing
    else, such a request is never answered 400. *)
Theorem malformed_repo_rejected e q env w :
  (Js.truthy (q_repo q) = false \/
   Js.count "/" (default EmptyString (q_repo q)) <> 1 ->
   exists resp, handle e q env w = (Ok resp, w, []) /\ status resp = 400)
  /\
  (Js.truthy (q_repo q) = true ->
   Js.count "/" (default EmptyString (q_repo q)) = 1 ->
   badRepoFormat (default EmptyString (q_repo q)) = false /\
   (e = EBadgeAll \/ e = EStats ->
    exists resp, result_of (handle e q env w) = Ok resp /\ status resp <> 400)).
Proof.
  split; [apply bad_repo_rejected|].
  intros Ht Hc.
  assert (Hf : badRepoFormat (default EmptyString (q_repo q)) = false)
    by (rewrite badRepoFormat_count, Hc; reflexivity).
  split; [exact Hf|]. intros He.
  assert (exists kind incl, fetcherOf e q = Some (kind, incl)) as (kind & incl & Hk).
  { unfold fetcherOf. rewrite Ht, Hf. cbn [negb orb].
    destruct He as [-> | ->]; eauto. }
  destruct (handle_status _ _ _ _ Hk env w) as (resp & Hr & Hs).
  exists resp. split; [exact Hr|]. cbn in Hs. intuition lia.
Qed.

Lemma malformed_repo_rejected_witness :
  (exists resp,
      handle EStats (query "a/b/c" "10" "grid") (repoEnv 3 AvatarFail) emptyWorld
      = (Ok resp, emptyWorld, []) /\ status resp = 400)
  /\
  (badRepoFormat "/b" = false /\
   exists resp,
     result_of (handle EBadgeAll (query "/b" "10" "grid") (repoEnv 3 AvatarFail) emptyWorld)
     = Ok resp /\ status resp <> 400).
Proof.
  split.
  - apply (proj1 (malformed_repo_rejected EStats (query "a/b/c" "10" "grid")
                    (repoEnv 3 AvatarFail) emptyWorld)).
    right. vm_compute. lia.
  - destruct (proj2 (malformed_repo_rejected EBadgeAll (query "/b" "10" "grid")
                       (repoEnv 3 AvatarFail) emptyWorld) eq_refl eq_refl) as [Hf Hs].
    split; [exact Hf|]. apply Hs. left. reflexivity.
Defined.

(** The examples of the specification, on every validating endpoint. *)
Lemma repo_examples_rejected e env w :
  forall repo, In repo ["noSlash"; "a/b/c"; EmptyString] ->
    exists resp,
      handle e (query repo "10" "grid") env w = (Ok resp, w, []) /\ status resp = 400.
Proof.
  intros repo Hin. apply bad_repo_rejected.
  cbn in Hin. destruct Hin as [<-|[<-|[<-|[]]]]; (left; reflexivity) || (right; vm_compute; lia).
Qed.

(** [/repo-info] does not look at the shape of the identifier. *)
Lemma repo_info_skips_format_check :
  repoInfo (query "noSlash" "10" "grid") (repoEnv 3 AvatarFail) emptyWorld
  = (Ok {| status := 404; body := ErrorJson "Repository not found"; cache_control := None |},
     {| cache := ∅; clock_reads := 0; api_calls := 1 |},
     [EvRepoFetch "noSlash"]).
Proof. reflexivity. Qed.

Lemma bad_limit_rejected q env w limit :
  q_limit q = Some limit ->
  limit <> "all" ->
  (forall v, Js.parseInt limit = Some v -> (v < 1 \/ 100 < v)%Z) ->
  exists resp, badge q env w = (Ok resp, w, []) /\ status resp = 400.
Proof.
  intros Hl Hne Hv.
  assert (Hf : fetcherOf EBadge q = None).
  { unfold fetcherOf. rewrite Hl. cbn [from_option id].
    destruct (negb _ || _); [reflexivity|].
    destruct (negb _ || _); [reflexivity|].
    apply String.eqb_neq in Hne. rewrite Hne.
    unfold checkLimit. destruct (Js.parseInt limit) as [v|]; [|reflexivity].
    destruct (Hv v eq_refl) as [H|H].
    - apply Z.ltb_lt in H. rewrite H. reflexivity.
    - apply Z.ltb_lt in H. rewrite H. now rewrite orb_true_r. }
  destruct (handle_rejected _ _ Hf) as [msg Hr].
  eexists. split; [apply (Hr env w) | reflexivity].
Qed.



(** The three rejected values of the specification. *)
Lemma limit_examples_rejected q env w :
  forall limit, In limit ["0"; "101"; "abc"] ->
    exists resp, badge (with_limit q limit) env w = (Ok resp, w, []) /\ status resp = 400.
Proof.
  intros limit Hin.
  apply (bad_limit_rejected (with_limit q limit) env w limit eq_refl).
  - cbn in Hin. intuition (subst; discriminate).
  - intros v Hv. cbn in Hin.
    destruct Hin as [<-|[<-|[<-|[]]]]; vm_compute in Hv; try discriminate;
      injection Hv as <-; lia.
Qed.

(** C10. The limit check of [/badge] reads a numeric prefix: [10abc] and
    [7.9] are neither integers nor [all], and a request carrying them is
    handled exactly as with limit [10], respectively [7]; for instance it is
    answered with a badge of ten contributors. *)
Theorem limit_prefix_accepted :
  (is_integer_literal "10abc" = false /\ "10abc" <> "all" /\
   forall q env w, badge (with_limit q "10abc") env w = badge (with_limit q "10") env w)
  /\
  (is_integer_literal "7.9" = false /\ "7.9" <> "all" /\
   forall q env w, badge (with_limit q "7.9") env w = badge (with_limit q "7") env w)
  /\
  (exists doc w' t,
      badge (query "octocat/hello" "10abc" "horizontal") (repoEnv 30 AvatarFail) emptyWorld
      = (Ok {| status := 200; body := Svg doc;
               cache_control := Some "public, max-age=300, s-maxage=300" |}, w', t)
      /\ length (svg_elements doc) = 10
      /\ In (EvListContributors "octocat/hello" 10 None) t).
Proof.
  split; [|split].
  - split; [reflexivity|]. split; [discriminate|]. intros q env w. reflexivity.
  - split; [reflexivity|]. split; [discriminate|]. intros q env w. reflexivity.
  - eexists _, _, _. split; [vm_compute; reflexivity|].
    split; [reflexivity|]. right. left. reflexivity.
Qed.

(* ===================================================================== *)
(** * Avatar inlining and the per-contributor records                      *)
(* ===================================================================== *)

Lemma getBase64Avatar_run url env a :
  exists o, upstream_run (getBase64Avatar url) env a (Ok o) (S a) [EvAvatarFetch url]
            /\ (avatar_api env a url = AvatarFail -> o = None).
Proof.
  unfold upstream_run, getBase64Avatar, try_catch, bind, axios_avatar, ret, count_call.
  cbn [api_calls cache clock_reads].
  destruct (avatar_api env a url) as [b64 ct|].
  - eexists. split; [intros; reflexivity | discriminate].
  - exists None. split; [intros; reflexivity | reflexivity].
Qed.

Lemma process_contributor_run incl c i env a :
  exists p a' t,
    upstream_run (process_contributor incl c i) env a (Ok p) a' t
    /\ processed_from env c i p /\ (incl = false -> avatar_base64 p = None)
    /\ Forall (fun ev => is_list_request ev = false) t.
Proof.
  unfold process_contributor. destruct incl.
  - destruct (getBase64Avatar_run (raw_avatar_url c) env a) as (o & Hr & Ho).
    eexists _, _, _. split; [|split; [|split]].
    + intros ch n. unfold bind. rewrite Hr. reflexivity.
    + unfold processed_from. cbn. repeat split; auto.
    + discriminate.
    + repeat constructor.
  - eexists _, _, _. split; [|split; [|split]].
    + intros ch n. reflexivity.
    + unfold processed_from. cbn. repeat split; auto.
    + reflexivity.
    + constructor.
Qed.

Lemma process_batch_item_run incl i c j env a :
  exists p a' t,
    upstream_run (process_batch_item incl i c j) env a (Ok p) a' t
    /\ processed_from env c (i + j) p /\ (incl = false -> avatar_base64 p = None)
    /\ Forall (fun ev => is_list_request ev = false) t.
Proof.
  unfold process_batch_item. destruct (incl && (i + j <? 50)) eqn:E.
  - destruct (getBase64Avatar_run (raw_avatar_url c) env a) as (o & Hr & Ho).
    eexists _, _, _. split; [|split; [|split]].
    + intros ch n. unfold bind. rewrite Hr. reflexivity.
    + unfold processed_from. cbn. repeat split; auto.
    + intros ->. discriminate.
    + repeat constructor.
  - eexists _, _, _. split; [|split; [|split]].
    + intros ch n. reflexivity.
    + unfold processed_from. cbn. repeat split; auto.
    + reflexivity.
    + constructor.
Qed.

(** [Promise.all] over a processing callback: never throws, one record per
    upstream item, in order. *)
Lemma map_async_run (f : RawContributor -> nat -> M Contributor) (g : nat -> nat) incl env :
  (forall c j a, exists p a' t,
      upstream_run (f c j) env a (Ok p) a' t
      /\ processed_from env c (g j) p /\ (incl = false -> avatar_base64 p = None)
      /\ Forall (fun ev => is_list_request ev = false) t) ->
  forall items index a, exists ps a' t,
    upstream_run (map_async_from f index items) env a (Ok ps) a' t
    /\ length ps = length items
    /\ (forall j c p, items !! j = Some c -> ps !! j = Some p ->
                      processed_from env c (g (index + j)) p)
    /\ (incl = false -> Forall (fun p => avatar_base64 p = None) ps)
    /\ Forall (fun ev => is_list_request ev = false) t.
Proof.
  intros Hf. induction items as [|c items IH]; intros index a.
  - exists [], a, []. split; [intros ch n; reflexivity|]. split; [reflexivity|].
    split; [intros j c p H; destruct j; discriminate H|].
    split; [intros _; constructor | constructor].
  - destruct (Hf c index a) as (p & a1 & t1 & Hp & Hok & Hnone & Ht1).
    destruct (IH (S index) a1) as (ps & a2 & t2 & Hps & Hlen & Hall & Hnones & Ht2).
    exists (p :: ps), a2, (t1 ++ (t2 ++ [])).
    split; [|split; [|split; [|split]]].
    + intros ch n. cbn [map_async_from]. unfold bind at 1. rewrite Hp.
      unfold bind at 1. rewrite Hps. reflexivity.
    + cbn. now rewrite Hlen.
    + intros [|j] c' p' Hc Hp'; cbn in Hc, Hp'.
      * injection Hc as <-. injection Hp' as <-. now rewrite Nat.add_0_r.
      * replace (index + S j) with (S index + j) by lia. eauto.
    + intros Hi. constructor; auto.
    + rewrite app_nil_r. apply Forall_app. split; assumption.
Qed.

Lemma processed_list_app env r1 r2 p1 p2 :
  processed_list env r1 0 p1 ->
  length p2 = length r2 ->
  (forall j c p, r2 !! j = Some c -> p2 !! j = Some p ->
                 processed_from env c (length r1 + j) p) ->
  processed_list env (r1 ++ r2) 0 (p1 ++ p2).
Proof.
  intros [Hl1 H1] Hl2 H2. split.
  - rewrite !length_app. lia.
  - intros j c p Hc Hp. destruct (lt_dec j (length r1)) as [Hlt|Hge].
    + rewrite lookup_app_l in Hc by exact Hlt.
      rewrite lookup_app_l in Hp by (rewrite Hl1; exact Hlt). eauto.
    + rewrite lookup_app_r in Hc by lia. rewrite lookup_app_r in Hp by lia.
      rewrite Hl1 in Hp. specialize (H2 _ _ _ Hc Hp).
      replace (0 + j) with (length r1 + (j - length r1)) by lia. exact H2.
Qed.

(** The batch loop: never throws, issues no listing request, and returns
    the processed form of the whole list. *)
Lemma processBatches_run incl env all :
  forall d i acc a,
    length all - i <= d ->
    processed_list env (take i all) 0 acc ->
    (incl = false -> Forall (fun p => avatar_base64 p = None) acc) ->
    exists ps a' t,
      upstream_run (processBatches incl all i acc) env a (Ok ps) a' t
      /\ processed_list env all 0 ps
      /\ (incl = false -> Forall (fun p => avatar_base64 p = None) ps)
      /\ Forall (fun ev => is_list_request ev = false) t.
Proof.
  induction d as [|d IH]; intros i acc a Hd Hacc Hnone;
    rewrite processBatches_equation_1;
    destruct (lt_dec i (length all)) as [Hlt|Hge]; try lia.
  - exists acc, a, []. split; [intros c n; reflexivity|].
    rewrite take_ge in Hacc by lia.
    split; [exact Hacc|]. split; [exact Hnone | constructor].
  - cbv zeta.
    destruct (map_async_run (process_batch_item incl i) (fun j => i + j) incl env
                (fun c j a0 => process_batch_item_run incl i c j env a0)
                (take batchSize (drop i all)) 0 a)
      as (pb & a1 & t1 & Hpb & Hlen & Hall & Hnones & Ht1).
    destruct (IH (i + batchSize) (acc ++ pb) a1) as (ps & a2 & t2 & Hps & Hok & Hn & Ht2).
    + unfold batchSize. lia.
    + rewrite <- take_take_drop.
      apply processed_list_app; [exact Hacc | exact Hlen |].
      intros j c p Hc Hp. rewrite length_take, Nat.min_l by lia. eauto.
    + intros Hi. apply Forall_app. split; auto.
    + exists ps, a2, (t1 ++ t2). split; [|split; [|split]]; auto.
      * intros c n. unfold bind, map_async. rewrite Hpb, Hps. reflexivity.
      * apply Forall_app. split; assumption.
  - exists acc, a, []. split; [intros c n; reflexivity|].
    rewrite take_ge in Hacc by lia.
    split; [exact Hacc|]. split; [exact Hnone | constructor].
Qed.

(* ===================================================================== *)
(** * The pagination loop                                                  *)
(* ===================================================================== *)

Lemma collected_S env repo a page k :
  collected env repo a page (S k)
  = pageItems env repo a page ++ collected env repo (S a) (S page) k.
Proof.
  unfold collected. cbn [seq flat_map]. rewrite !Nat.add_0_r. f_equal.
  rewrite <- seq_shift, flat_map_concat_map, map_map, <- flat_map_concat_map.
  apply flat_map_ext. intros j. f_equal; lia.
Qed.

Lemma page_requests_S repo page k :
  page_requests repo page (S k)
  = EvListContributors repo 100 (Some page) :: page_requests repo (S page) k.
Proof. reflexivity. Qed.

(** The loop entered at [page] (at most 100) with [a] upstream calls made:
    it asks for [k] successive pages, [k] at least one and [page + k] at
    most 101; every page but the last asked for was non-empty; and it ends
    on a failed request, on an empty page, or on a non-empty page that takes
    the page counter past 100. *)
Lemma fetchPages_run env repo :
  forall d page acc a,
    101 - page <= d -> page <= 100 ->
    exists k r t,
      1 <= k /\ page + k <= 101
      /\ upstream_run (fetchPages repo page acc) env a r (a + k) t
      /\ list_requests t = page_requests repo page k
      /\ Forall (fun ev => is_avatar_fetch ev = false) t
      /\ (forall j, j < k - 1 ->
            exists x xs, contributors_api env (a + j) repo 100 (Some (page + j))
                         = ListOk (x :: xs))
      /\ match contributors_api env (a + (k - 1)) repo 100 (Some (page + (k - 1))) with
         | ListFail st =>
             r = Throw {| message := "Request failed"; response_status := st |}
         | ListOk [] => r = Ok (acc ++ collected env repo a page k)
         | ListOk (_ :: _) =>
             page + k = 101 /\ r = Ok (acc ++ collected env repo a page k)
         end.
Proof.
  induction d as [|d IH]; intros page acc a Hd Hp; [lia|].
  rewrite fetchPages_equation_1.
  destruct (contributors_api env a repo 100 (Some page)) as [items|st] eqn:Hapi.
  2: { (* the request fails *)
    exists 1, (Throw {| message := "Request failed"; response_status := st |}),
           [EvListContributors repo 100 (Some page)].
    split; [lia|]. split; [lia|]. split.
    { intros c n. unfold bind, axios_contributors, count_call.
      cbn [api_calls cache clock_reads]. rewrite Hapi. f_equal. f_equal. f_equal. lia. }
    split; [reflexivity|]. split; [repeat constructor|]. split; [intros j Hj; lia|].
    cbn [Nat.sub]. rewrite !Nat.add_0_r, Hapi. reflexivity. }
  destruct items as [|x xs].
  - (* an empty page *)
    exists 1, (Ok acc),
           [EvListContributors repo 100 (Some page); EvDelay 100].
    split; [lia|]. split; [lia|]. split.
    { intros c n. unfold bind, axios_contributors, count_call.
      cbn [api_calls cache clock_reads]. rewrite Hapi. cbn [length Nat.eqb].
      assert ((100 <? page) = false) as -> by (apply Nat.ltb_ge; lia).
      cbn. f_equal. f_equal. f_equal. lia. }
    split; [reflexivity|]. split; [repeat constructor|]. split; [intros j Hj; lia|].
    cbn [Nat.sub]. rewrite !Nat.add_0_r, Hapi.
    unfold collected. cbn. unfold pageItems. rewrite !Nat.add_0_r, Hapi.
    now rewrite app_nil_r.
  - destruct (lt_dec 100 (page + 1)) as [Hlast|Hmore] eqn:Hdec.
    + (* the hundredth page *)
      exists 1, (Ok (acc ++ x :: xs)), [EvListContributors repo 100 (Some page)].
      split; [lia|]. split; [lia|]. split.
      { intros c n. unfold bind, axios_contributors, count_call.
        cbn [api_calls cache clock_reads]. rewrite Hapi. cbn [length Nat.eqb].
        cbn. f_equal. f_equal. f_equal. lia. }
      split; [reflexivity|]. split; [repeat constructor|]. split; [intros j Hj; lia|].
      cbn [Nat.sub]. rewrite !Nat.add_0_r, Hapi.
      split; [lia|]. unfold collected. cbn. unfold pageItems.
      rewrite !Nat.add_0_r, Hapi. now rewrite app_nil_r.
    + (* a non-empty page, and more to ask for *)
      destruct (IH (page + 1) (acc ++ x :: xs) (S a)) as
        (k & r & t & Hk & Hpk & Hrun & Hreq & Hav & Hbefore & Hstop); [lia | lia |].
      exists (S k), r,
             (EvListContributors repo 100 (Some page) :: EvDelay 100 :: t).
      split; [lia|]. split; [lia|]. split.
      { intros c n. unfold bind, axios_contributors, count_call.
        cbn [api_calls cache clock_reads]. rewrite Hapi. cbn [length Nat.eqb].
        cbn. rewrite (Hrun c n). f_equal. f_equal. f_equal. lia. }
      split.
      { rewrite page_requests_S. cbn. unfold list_requests in Hreq. rewrite Hreq.
        now rewrite Nat.add_1_r. }
      split; [repeat constructor; exact Hav|]. split.
      { intros [|j] Hj.
        - rewrite !Nat.add_0_r, Hapi. eauto.
        - replace (a + S j) with (S a + j) by lia.
          replace (page + S j) with (page + 1 + j) by lia.
          apply Hbefore. lia. }
      replace (a + (S k - 1)) with (S a + (k - 1)) by lia.
      replace (page + (S k - 1)) with (page + 1 + (k - 1)) by lia.
      rewrite collected_S. unfold pageItems. rewrite Hapi.
      replace (S page) with (page + 1) by lia.
      destruct (contributors_api env (S a + (k - 1)) repo 100 (Some (page + 1 + (k - 1))))
        as [[|y ys]|st'].
      * rewrite Hstop, <- app_assoc. reflexivity.
      * destruct Hstop as [Hk' ->]. split; [lia|].
        rewrite <- app_assoc. reflexivity.
      * exact Hstop.
Qed.

(* ===================================================================== *)
(** * The two fetchers                                                     *)
(* ===================================================================== *)

Lemma rethrow_upstream_run {A} (error : JsError) :
  @rethrow_upstream A error = throw (Error (upstreamMessage (response_status error))).
Proof.
  unfold rethrow_upstream, upstreamMessage, status_is.
  destruct (response_status error) as [st|]; [|reflexivity]. cbn [default from_option id].
  destruct (st =? 404); [reflexivity|].
  destruct (st =? 403); [reflexivity|].
  destruct (st =? 401); reflexivity.
Qed.

Lemma list_requests_app t1 t2 :
  list_requests (t1 ++ t2) = list_requests t1 ++ list_requests t2.
Proof. apply List.filter_app. Qed.

Lemma list_requests_none t :
  Forall (fun ev => is_list_request ev = false) t -> list_requests t = [].
Proof.
  induction 1 as [|ev t Hev _ IH]; [reflexivity|].
  unfold list_requests in *. cbn [List.filter]. now rewrite Hev.
Qed.

(** The [try] block of [getContributors], from [a] upstream calls: its
    outcome does not depend on the cache or the clock, it makes one listing
    request, stores what it returns, and fails exactly when the listing
    request does. *)
Lemma fetchContributors_run env repo limit incl a :
  exists r a' t,
    (forall c n,
        fetchContributors repo limit incl env
          {| cache := c; clock_reads := n; api_calls := a |}
        = (r, after_fetch env (contributorsKey repo limit incl) r c n a',
           EvListContributors repo (Nat.min limit 100) None :: t))
    /\ Forall (fun ev => is_list_request ev = false) t
    /\ match contributors_api env a repo (Nat.min limit 100) None with
       | ListFail st => r = Throw (Error (upstreamMessage st))
       | ListOk raws =>
           exists ps, r = Ok ps /\ processed_list env raws 0 ps
                      /\ (incl = false -> Forall (fun p => avatar_base64 p = None) ps)
       end.
Proof.
  destruct (contributors_api env a repo (Nat.min limit 100) None) as [raws|st] eqn:Hapi.
  - destruct (map_async_run (process_contributor incl) (fun j => j) incl env
                (fun c0 j a0 => process_contributor_run incl c0 j env a0) raws 0 (S a))
      as (ps & a' & t & Hps & Hlen & Hall & Hnone & Ht).
    exists (Ok ps), a', (t ++ [EvCacheSet (contributorsKey repo limit incl)]).
    split; [|split].
    + intros c n. unfold fetchContributors, try_catch; unfold bind at 1;
        unfold axios_contributors, count_call; cbn [api_calls cache clock_reads].
      rewrite Hapi. unfold bind, map_async. rewrite Hps. reflexivity.
    + apply Forall_app. split; [exact Ht | repeat constructor].
    + exists ps. split; [reflexivity|]. split; [split; [exact Hlen | exact Hall] | exact Hnone].
  - exists (Throw (Error (upstreamMessage st))), (S a), [].
    split; [|split; [constructor | reflexivity]].
    intros c n. unfold fetchContributors, try_catch; unfold bind at 1;
      unfold axios_contributors, count_call; cbn [api_calls cache clock_reads].
    rewrite Hapi, rethrow_upstream_run. reflexivity.
Qed.

(** The [try] block of [getAllContributors]: one pagination of [k] pages,
    [k] between 1 and 100, then the batches; its failures are those of the
    pagination. *)
Lemma fetchAllContributors_run env repo incl a :
  exists k rp r a' t,
    1 <= k <= 100
    /\ (forall c n,
          fetchAllContributors repo incl env
            {| cache := c; clock_reads := n; api_calls := a |}
          = (r, after_fetch env (allKey repo incl) r c n a', t))
    /\ list_requests t = page_requests repo 1 k
    /\ (forall j, j < k - 1 ->
          exists x xs, contributors_api env (a + j) repo 100 (Some (1 + j))
                       = ListOk (x :: xs))
    /\ match contributors_api env (a + (k - 1)) repo 100 (Some (1 + (k - 1))) with
       | ListFail st =>
           rp = Throw {| message := "Request failed"; response_status := st |}
       | ListOk [] => rp = Ok (collected env repo a 1 k)
       | ListOk (_ :: _) => k = 100 /\ rp = Ok (collected env repo a 1 k)
       end
    /\ match rp with
       | Throw e => r = Throw (Error (upstreamMessage (response_status e)))
       | Ok raws =>
           exists ps, r = Ok ps /\ processed_list env raws 0 ps
                      /\ (incl = false -> Forall (fun p => avatar_base64 p = None) ps)
       end.
Proof.
  destruct (fetchPages_run env repo 100 1 [] a) as
    (k & rp & tp & Hk & Hpk & Hrun & Hreq & _ & Hbefore & Hstop); [lia | lia |].
  destruct rp as [raws|e].
  - destruct (processBatches_run incl env raws (length raws) 0 [] (a + k))
      as (ps & a' & tb & Hps & Hok & Hnone & Htb).
    + lia.
    + split; [reflexivity|]. intros j c0 p H. destruct j; discriminate H.
    + intros _. constructor.
    + exists k, (Ok raws), (Ok ps), a', (tp ++ tb ++ [EvCacheSet (allKey repo incl)]).
      split; [lia|]. split; [|split; [|split; [exact Hbefore|split]]].
      * intros c n. unfold fetchAllContributors, try_catch, bind.
        rewrite Hrun, Hps. reflexivity.
      * rewrite !list_requests_app, Hreq, (list_requests_none tb Htb).
        cbn. now rewrite app_nil_r.
      * destruct (contributors_api env (a + (k - 1)) repo 100 (Some (1 + (k - 1))))
          as [[|y ys]|st]; [exact Hstop | | exact Hstop].
        destruct Hstop as [Hk' Hr]. split; [lia | exact Hr].
      * exists ps. auto.
  - exists k, (Throw e), (Throw (Error (upstreamMessage (response_status e)))), (a + k), tp.
    split; [lia|]. split; [|split; [exact Hreq|split; [exact Hbefore|split]]].
    + intros c n. unfold fetchAllContributors, try_catch. unfold bind at 1.
      rewrite Hrun, rethrow_upstream_run. cbn. rewrite app_nil_r. reflexivity.
    + destruct (contributors_api env (a + (k - 1)) repo 100 (Some (1 + (k - 1))))
        as [[|y ys]|st]; [exact Hstop | | exact Hstop].
      destruct Hstop as [Hk' Hr]. split; [lia | exact Hr].
    + reflexivity.
Qed.

(** Both [try] blocks at once. *)
Lemma fetchBlock_run kind env repo incl a :
  exists r a' t,
    (forall c n,
        fetchBlock kind repo incl env {| cache := c; clock_reads := n; api_calls := a |}
        = (r, after_fetch env (cacheKey kind repo incl) r c n a', t))
    /\ one_fetch kind repo (list_requests t)
    /\ (forall e, r = Throw e -> exists st, e = Error (upstreamMessage st))
    /\ (forall ps, r = Ok ps ->
          exists raws, processed_list env raws 0 ps
                       /\ (incl = false -> Forall (fun p => avatar_base64 p = None) ps))
    /\ (listing_healthy env repo -> exists ps, r = Ok ps).
Proof.
  destruct kind as [limit|]; cbn [fetchBlock cacheKey one_fetch].
  - destruct (fetchContributors_run env repo limit incl a) as (r & a' & t & Hrun & Ht & Hr).
    exists r, a', (EvListContributors repo (Nat.min limit 100) None :: t).
    split; [exact Hrun|]. split; [|split; [|split]].
    + change (EvListContributors repo (Nat.min limit 100) None :: t)
        with ([EvListContributors repo (Nat.min limit 100) None] ++ t).
      rewrite list_requests_app, (list_requests_none t Ht). reflexivity.
    + intros e ->.
      destruct (contributors_api env a repo (Nat.min limit 100) None) as [raws|st].
      * destruct Hr as (ps & Hr & _). discriminate.
      * injection Hr as ->. eauto.
    + intros ps ->.
      destruct (contributors_api env a repo (Nat.min limit 100) None) as [raws|st];
        [|discriminate].
      destruct Hr as (ps' & Hr & Hok & Hnone). injection Hr as ->. eauto.
    + intros Hh. destruct (Hh a (Nat.min limit 100) None) as [items Hi].
      rewrite Hi in Hr. destruct Hr as (ps & -> & _). eauto.
  - destruct (fetchAllContributors_run env repo incl a)
      as (k & rp & r & a' & t & Hk & Hrun & Hreq & Hbefore & Hstop & Hr).
    exists r, a', t. split; [exact Hrun|]. split; [|split; [|split]].
    + exists k. split; [lia | exact Hreq].
    + intros e ->. destruct rp as [raws|e'].
      * destruct Hr as (ps & Hr & _). discriminate.
      * injection Hr as ->. eauto.
    + intros ps ->. destruct rp as [raws|e']; [|discriminate].
      destruct Hr as (ps' & Hr & Hok & Hnone). injection Hr as ->. eauto.
    + intros Hh. destruct (Hh (a + (k - 1)) 100 (Some (1 + (k - 1)))) as [items Hi].
      rewrite Hi in Hstop.
      assert (exists raws, rp = Ok raws) as [raws ->]
        by (destruct items; [eauto | destruct Hstop; eauto]).
      destruct Hr as (ps & -> & _). eauto.
Qed.

Lemma world_eta w :
  w = {| cache := cache w; clock_reads := clock_reads w; api_calls := api_calls w |}.
Proof. destruct w. reflexivity. Qed.

Lemma fetcher_unfold kind repo incl :
  fetcher kind repo incl
  = (cached <- cache_get (cacheKey kind repo incl) ;;
     match cached with
     | Some entry =>
         t <- date_now ;;
         if freshEntry entry t then ret (data entry)
         else fetchBlock kind repo incl
     | None => fetchBlock kind repo incl
     end).
Proof. destruct kind; reflexivity. Qed.

Lemma fetcher_hit kind repo incl env w entry :
  cache w !! cacheKey kind repo incl = Some entry ->
  freshEntry entry (now env (clock_reads w)) = true ->
  fetcher kind repo incl env w
  = (Ok (data entry), tick w, [EvCacheGet (cacheKey kind repo incl)]).
Proof.
  intros Hc Hf. rewrite fetcher_unfold. unfold bind at 1, cache_get. rewrite Hc.
  unfold bind, date_now. rewrite Hf. reflexivity.
Qed.

Lemma fetcher_stale kind repo incl env w entry :
  cache w !! cacheKey kind repo incl = Some entry ->
  freshEntry entry (now env (clock_reads w)) = false ->
  fetcher kind repo incl env w
  = (let '(r, w', t) := fetchBlock kind repo incl env (tick w) in
     (r, w', EvCacheGet (cacheKey kind repo incl) :: t)).
Proof.
  intros Hc Hf. rewrite fetcher_unfold. unfold bind at 1, cache_get. rewrite Hc.
  unfold bind, date_now. rewrite Hf. unfold tick.
  destruct (fetchBlock kind repo incl env _) as [[r w'] t]. reflexivity.
Qed.

Lemma fetcher_miss kind repo incl env w :
  cache w !! cacheKey kind repo incl = None ->
  fetcher kind repo incl env w
  = (let '(r, w', t) := fetchBlock kind repo incl env w in
     (r, w', EvCacheGet (cacheKey kind repo incl) :: t)).
Proof.
  intros Hc. rewrite fetcher_unfold. unfold bind at 1, cache_get. rewrite Hc.
  destruct (fetchBlock kind repo incl env w) as [[r w'] t]. reflexivity.
Qed.

(** A fetcher that the cache cannot serve runs its [try] block, after one
    clock reading if there was a stale entry to look at. *)
Lemma fetcher_fetches kind repo incl env w :
  needs_fetch env w (cacheKey kind repo incl) ->
  exists r a' t n,
    fetcher kind repo incl env w
    = (r, after_fetch env (cacheKey kind repo incl) r (cache w) n a',
       EvCacheGet (cacheKey kind repo incl) :: t)
    /\ (forall c m,
          fetchBlock kind repo incl env
            {| cache := c; clock_reads := m; api_calls := api_calls w |}
          = (r, after_fetch env (cacheKey kind repo incl) r c m a', t))
    /\ one_fetch kind repo (list_requests t)
    /\ (forall ps, r = Ok ps ->
          exists raws, processed_list env raws 0 ps
                       /\ (incl = false -> Forall (fun p => avatar_base64 p = None) ps))
    /\ (listing_healthy env repo -> exists ps, r = Ok ps).
Proof.
  intros Hneed.
  destruct (fetchBlock_run kind env repo incl (api_calls w))
    as (r & a' & t & Hrun & Hone & _ & Hproc & Hok).
  destruct (cache w !! cacheKey kind repo incl) as [entry|] eqn:Hc.
  - exists r, a', t, (S (clock_reads w)).
    split; [|split; [exact Hrun|split; [exact Hone|split; [exact Hproc|exact Hok]]]].
    rewrite (fetcher_stale _ _ _ _ _ _ Hc (Hneed entry Hc)). unfold tick.
    rewrite Hrun. reflexivity.
  - exists r, a', t, (clock_reads w).
    split; [|split; [exact Hrun|split; [exact Hone|split; [exact Hproc|exact Hok]]]].
    rewrite (fetcher_miss _ _ _ _ _ Hc). rewrite (world_eta w) at 1.
    rewrite Hrun. reflexivity.
Qed.

(* ===================================================================== *)
(** * The cache contract                                                   *)
(* ===================================================================== *)

(** C4. A lookup less than five minutes after the entry was stored returns
    the stored list and makes no upstream call; a lookup at or past five
    minutes makes exactly one upstream fetch, whose result replaces the
    entry under a new timestamp (a failed fetch stores nothing), and the
    result and the events are those of a run that finds no entry at all. *)
Theorem cache_freshness kind repo incl env w entry :
  let key := cacheKey kind repo incl in
  let t := now env (clock_reads w) in
  cache w !! key = Some entry ->
  ((t - timestamp entry < CACHE_DURATION)%Z ->
   fetcher kind repo incl env w = (Ok (data entry), tick w, [EvCacheGet key]))
  /\
  ((CACHE_DURATION <= t - timestamp entry)%Z ->
   exists r w' tr,
     fetcher kind repo incl env w = (r, w', EvCacheGet key :: tr)
     /\ one_fetch kind repo (list_requests tr)
     /\ (forall l, r = Ok l ->
           cache w' = <[key := {| data := l;
                                  timestamp := now env (S (clock_reads w)) |}]> (cache w))
     /\ (forall e, r = Throw e -> cache w' = cache w)
     /\ (forall w0,
           cache w0 !! key = None ->
           clock_reads w0 = S (clock_reads w) -> api_calls w0 = api_calls w ->
           result_of (fetcher kind repo incl env w0) = r
           /\ trace_of (fetcher kind repo incl env w0) = EvCacheGet key :: tr)).
Proof.
  intros key t Hc. split.
  - intros Hlt. apply fetcher_hit; [exact Hc|]. apply Z.ltb_lt. exact Hlt.
  - intros Hge.
    destruct (fetchBlock_run kind env repo incl (api_calls w))
      as (r & a' & tr & Hrun & Hone & _).
    exists r, (after_fetch env key r (cache w) (S (clock_reads w)) a'), tr.
    split; [|split; [exact Hone|split; [|split]]].
    + rewrite (fetcher_stale _ _ _ _ _ _ Hc) by (apply Z.ltb_ge; exact Hge).
      unfold tick. rewrite Hrun. reflexivity.
    + intros l ->. reflexivity.
    + intros e ->. reflexivity.
    + intros w0 H0 Hn Ha. rewrite (fetcher_miss _ _ _ _ _ H0).
      rewrite (world_eta w0), Hn, Ha, Hrun. split; reflexivity.
Qed.

Lemma cache_freshness_witness :
  fetcher (Bounded 3) "octocat/hello" false (repoEnv 5 AvatarFail)
          (cachedWorld "octocat/hello-3-false" [] 0 299)
  = (Ok [], tick (cachedWorld "octocat/hello-3-false" [] 0 299),
     [EvCacheGet "octocat/hello-3-false"])
  /\
  exists r w' tr,
    fetcher (Bounded 3) "octocat/hello" false (repoEnv 5 AvatarFail)
            (cachedWorld "octocat/hello-3-false" [] 0 300)
    = (r, w', EvCacheGet "octocat/hello-3-false" :: tr)
    /\ list_requests tr = [EvListContributors "octocat/hello" 3 None]
    /\ (forall l, r = Ok l ->
          cache w' = <["octocat/hello-3-false" := {| data := l; timestamp := 301000 |}]>
                       (cache (cachedWorld "octocat/hello-3-false" [] 0 300))).
Proof.
  split.
  - apply (proj1 (cache_freshness (Bounded 3) "octocat/hello" false (repoEnv 5 AvatarFail)
                    (cachedWorld "octocat/hello-3-false" [] 0 299)
                    {| data := []; timestamp := 0 |} eq_refl)).
    vm_compute. reflexivity.
  - destruct (proj2 (cache_freshness (Bounded 3) "octocat/hello" false (repoEnv 5 AvatarFail)
                       (cachedWorld "octocat/hello-3-false" [] 0 300)
                       {| data := []; timestamp := 0 |} eq_refl))
      as (r & w' & tr & Hrun & Hone & Hok & _).
    + vm_compute. discriminate.
    + exists r, w', tr. split; [exact Hrun|]. split; [exact Hone | exact Hok].
Defined.

(** After a successful fetch the list is in the cache, and a second
    identical call within the window returns it without asking upstream. *)
Lemma second_fetch_within_window kind repo incl env w l w' t :
  fetcher kind repo incl env w = (Ok l, w', t) ->
  exists stored_at,
    cache w' !! cacheKey kind repo incl = Some {| data := l; timestamp := stored_at |}
    /\ ((now env (clock_reads w') - stored_at < CACHE_DURATION)%Z ->
        fetcher kind repo incl env w'
        = (Ok l, tick w', [EvCacheGet (cacheKey kind repo incl)])).
Proof.
  intros Hrun.
  assert (exists stored_at,
             cache w' !! cacheKey kind repo incl
             = Some {| data := l; timestamp := stored_at |}) as [ts Hts].
  { destruct (cache w !! cacheKey kind repo incl) as [entry|] eqn:Hc.
    - destruct (freshEntry entry (now env (clock_reads w))) eqn:Hf.
      + rewrite (fetcher_hit _ _ _ _ _ _ Hc Hf) in Hrun.
        injection Hrun as <- <- _. exists (timestamp entry).
        cbn [tick cache]. rewrite Hc. now destruct entry.
      + destruct (fetcher_fetches kind repo incl env w) as (r & a' & tr & n & Hfetch & _).
        { intros entry' He. congruence. }
        rewrite Hfetch in Hrun. injection Hrun as -> <- _.
        eexists. cbn [after_fetch cache]. apply lookup_insert_eq.
    - destruct (fetcher_fetches kind repo incl env w) as (r & a' & tr & n & Hfetch & _).
      { intros entry' He. congruence. }
      rewrite Hfetch in Hrun. injection Hrun as -> <- _.
      eexists. cbn [after_fetch cache]. apply lookup_insert_eq. }
  exists ts. split; [exact Hts|]. intros Hlt.
  rewrite (fetcher_hit _ _ _ _ _ _ Hts); [reflexivity|].
  apply Z.ltb_lt. exact Hlt.
Qed.

(* ===================================================================== *)
(** * Termination of the unbounded fetch                                   *)
(* ===================================================================== *)

Lemma fetcher_requests kind repo incl env w :
  list_requests (trace_of (fetcher kind repo incl env w)) = []
  \/ one_fetch kind repo (list_requests (trace_of (fetcher kind repo incl env w))).
Proof.
  destruct (cache w !! cacheKey kind repo incl) as [entry|] eqn:Hc.
  - destruct (freshEntry entry (now env (clock_reads w))) eqn:Hf.
    + left. rewrite (fetcher_hit _ _ _ _ _ _ Hc Hf). reflexivity.
    + right. rewrite (fetcher_stale _ _ _ _ _ _ Hc Hf).
      destruct (fetchBlock_run kind env repo incl (api_calls w))
        as (r & a' & tr & Hrun & Hone & _).
      unfold tick. rewrite Hrun. exact Hone.
  - right. rewrite (fetcher_miss _ _ _ _ _ Hc).
    destruct (fetchBlock_run kind env repo incl (api_calls w))
      as (r & a' & tr & Hrun & Hone & _).
    rewrite (world_eta w), Hrun. exact Hone.
Qed.

Lemma length_page_requests repo p k : length (page_requests repo p k) = k.
Proof. unfold page_requests. now rewrite length_map, length_seq. Qed.

(** C5. The pagination loop of the unbounded fetch always ends, after at
    most 100 page requests: it asks for the pages 1 .. k in order, k between
    1 and 100, every page before the last one was non-empty, and the last
    request either failed, or returned an empty page, or was the hundredth
    (the page counter then exceeds 100).  The whole of [getAllContributors]
    therefore makes at most 100 listing requests, whatever upstream
    answers. *)
Theorem unbounded_fetch_terminates env repo incl w :
  (exists k r w' t,
      fetchPages repo 1 [] env w = (r, w', t)
      /\ 1 <= k <= 100
      /\ list_requests t = page_requests repo 1 k
      /\ api_calls w' = api_calls w + k
      /\ (forall j, j < k - 1 ->
            exists x xs, contributors_api env (api_calls w + j) repo 100 (Some (1 + j))
                         = ListOk (x :: xs))
      /\ match contributors_api env (api_calls w + (k - 1)) repo 100
                 (Some (1 + (k - 1))) with
         | ListFail st =>
             r = Throw {| message := "Request failed"; response_status := st |}
         | ListOk [] => r = Ok (collected env repo (api_calls w) 1 k)
         | ListOk (_ :: _) =>
             k = 100 /\ r = Ok (collected env repo (api_calls w) 1 k)
         end)
  /\ length (list_requests (trace_of (getAllContributors repo incl env w))) <= 100.
Proof.
  split.
  - destruct (fetchPages_run env repo 100 1 [] (api_calls w)) as
      (k & r & t & Hk & Hpk & Hrun & Hreq & _ & Hbefore & Hstop); [lia | lia |].
    exists k, r, {| cache := cache w; clock_reads := clock_reads w;
                    api_calls := api_calls w + k |}, t.
    split; [rewrite (world_eta w) at 1; apply Hrun|].
    split; [lia|]. split; [exact Hreq|]. split; [reflexivity|].
    split; [exact Hbefore|].
    destruct (contributors_api env (api_calls w + (k - 1)) repo 100 (Some (1 + (k - 1))))
      as [[|y ys]|st]; [exact Hstop | | exact Hstop].
    destruct Hstop as [Hk' Hr]. split; [lia | exact Hr].
  - destruct (fetcher_requests Unbounded repo incl env w) as [H|(k & Hk & H)];
      cbn [fetcher] in H; rewrite H; [cbn; lia|].
    rewrite length_page_requests. lia.
Qed.

(** An upstream that never returns an empty page is asked exactly 100 times. *)
Lemma never_empty_upstream_stops_at_100 :
  length (list_requests
            (trace_of (getAllContributors "octocat/hello" false
                         (constEnv (ListOk (sampleList 1)) AvatarFail) emptyWorld)))
  = 100.
Proof. vm_compute. reflexivity. Qed.

(* ===================================================================== *)
(** * The renderer                                                         *)
(* ===================================================================== *)

Lemma grid_element contributors theme i c :
  contributors !! i = Some c ->
  svg_elements (generateSVGBadge contributors "grid" theme) !! i
  = Some (render_contributor (theme_colors theme)
            (i mod ceil_sqrt (length contributors) * 70 + 12)
            (i / ceil_sqrt (length contributors) * 74 + 12) i c).
Proof.
  intros H. unfold generateSVGBadge. cbn [String.eqb Ascii.eqb Bool.eqb svg_elements].
  rewrite list_lookup_imap, H. reflexivity.
Qed.

Lemma row_element contributors style theme i c :
  String.eqb style "grid" = false ->
  contributors !! i = Some c ->
  svg_elements (generateSVGBadge contributors style theme) !! i
  = Some (render_contributor (theme_colors theme) (i * 70 + 12) 12 i c).
Proof.
  intros Hs H. unfold generateSVGBadge. rewrite Hs. cbn [svg_elements].
  rewrite list_lookup_imap, H. reflexivity.
Qed.

Lemma ceil_div_bounds n c rows :
  0 < n -> ceil_div n c = Num rows -> (rows - 1) * c < n <= rows * c.
Proof.
  intros Hn H. destruct c as [|c']; [destruct n; discriminate H|].
  change (Num (n / S c' + (if n mod S c' =? 0 then 0 else 1)) = Num rows) in H.
  pose proof (Nat.div_mod_eq n (S c')) as Hdm.
  pose proof (Nat.mod_upper_bound n (S c') ltac:(lia)) as Hm.
  remember (n / S c') as q eqn:Hq. remember (n mod S c') as m eqn:Hmod.
  clear Hq Hmod. injection H as <-.
  destruct (m =? 0) eqn:E.
  - apply Nat.eqb_eq in E. subst m. destruct q; [lia | nia].
  - apply Nat.eqb_neq in E. nia.
Qed.

(** C6. Grid layout of a non-empty list of [n] contributors: the column
    count is the ceiling of the square root of [n], the row count the
    ceiling of [n / cols], the canvas is [cols * 70 + 12] by
    [rows * 74 + 12], and item [i] sits in column [i mod cols] and row
    [i / cols] of that grid. *)
Theorem grid_layout contributors theme :
  contributors <> [] ->
  let n := length contributors in
  let doc := generateSVGBadge contributors "grid" theme in
  exists cols rows,
    (cols - 1) * (cols - 1) < n <= cols * cols
    /\ (rows - 1) * cols < n <= rows * cols
    /\ svg_width doc = Num (cols * 70 + 12)
    /\ svg_height doc = Num (rows * 74 + 12)
    /\ length (svg_elements doc) = n
    /\ forall i c, contributors !! i = Some c ->
         exists el, svg_elements doc !! i = Some el
                    /\ el_username el = login c
                    /\ el_x el = (i mod cols) * 70 + 12
                    /\ el_y el = (i / cols) * 74 + 12.
Proof.
  intros Hne n doc.
  assert (Hn : 0 < n) by (subst n; destruct contributors; [congruence | simpl; lia]).
  pose proof (ceil_sqrt_pos n Hn) as Hc.
  destruct (ceil_div_num n (ceil_sqrt n) Hc) as [rows Hrows].
  exists (ceil_sqrt n), rows.
  split; [|split; [|split; [|split; [|split]]]].
  - unfold ceil_sqrt in *. destruct (Nat.sqrt_up_spec n Hn) as [Hlo Hhi].
    replace (Nat.sqrt_up n - 1) with (Nat.pred (Nat.sqrt_up n)) by lia.
    cbn [Nat.pow] in Hlo, Hhi. lia.
  - apply ceil_div_bounds; assumption.
  - reflexivity.
  - subst doc. unfold generateSVGBadge.
    cbn [String.eqb Ascii.eqb Bool.eqb svg_height]. fold n. rewrite Hrows. reflexivity.
  - subst doc. unfold generateSVGBadge.
    cbn [String.eqb Ascii.eqb Bool.eqb svg_elements]. apply length_imap.
  - intros i c Hi. eexists. split; [apply grid_element; exact Hi|].
    split; [reflexivity|]. split; reflexivity.
Qed.

Lemma grid_layout_witness :
  exists cols rows,
    (cols - 1) * (cols - 1) < 5 <= cols * cols
    /\ (rows - 1) * cols < 5 <= rows * cols
    /\ svg_width (generateSVGBadge (data_of 5) "grid" "dark") = Num (cols * 70 + 12)
    /\ svg_height (generateSVGBadge (data_of 5) "grid" "dark") = Num (rows * 74 + 12).
Proof.
  destruct (grid_layout (data_of 5) "dark") as (cols & rows & H1 & H2 & H3 & H4 & _).
  - discriminate.
  - exists cols, rows. repeat split; try apply H1; try apply H2; assumption.
Defined.

(** The five sizes named by the specification: columns, rows, width and
    height. *)
Lemma grid_sizes_of_the_specification :
  map (fun n => let doc := generateSVGBadge (data_of n) "grid" "light" in
                (ceil_sqrt n, ceil_div n (ceil_sqrt n), svg_width doc, svg_height doc))
      [1; 4; 5; 9; 13]
  = [ (1, Num 1, Num 82, Num 86);
      (2, Num 2, Num 152, Num 160);
      (3, Num 2, Num 222, Num 160);
      (3, Num 3, Num 222, Num 234);
      (4, Num 4, Num 292, Num 308) ].
Proof. vm_compute. reflexivity. Qed.

(** An empty list in grid layout has no columns and a height that is not a
    number. *)
Lemma grid_of_nothing theme :
  svg_width (generateSVGBadge [] "grid" theme) = Num 12
  /\ svg_height (generateSVGBadge [] "grid" theme) = NaN.
Proof. split; reflexivity. Qed.

(* ===================================================================== *)
(** * Avatar failures                                                      *)
(* ===================================================================== *)

Lemma placeholder_element l style theme i c :
  l !! i = Some c ->
  avatar_base64 c = None ->
  exists el,
    svg_elements (generateSVGBadge l style theme) !! i = Some el
    /\ el_username el = login c
    /\ el_avatar el = AvatarFallback (color (fallback c))
                                     (fallbackText (theme_colors theme))
                                     (initial (fallback c)).
Proof.
  intros Hi Hnone.
  destruct (String.eqb style "grid") eqn:Hs.
  - apply String.eqb_eq in Hs. subst style.
    eexists. split; [apply grid_element; exact Hi|].
    split; [reflexivity|]. unfold render_contributor. cbn [el_avatar].
    rewrite Hnone. reflexivity.
  - eexists. split; [apply row_element; [exact Hs | exact Hi]|].
    split; [reflexivity|]. unfold render_contributor. cbn [el_avatar].
    rewrite Hnone. reflexivity.
Qed.

(** C7. On a badge endpoint that has to fetch (no entry, or a stale one)
    from an upstream whose listing answers, a contributor whose avatar cannot be fetched does
    not fail the request: the answer is the rendered badge (status 200), the
    contributor's record has no inlined avatar, and its element is the
    placeholder, whose fill is the palette colour at the contributor's
    position modulo the palette size and whose glyph is the upper-cased
    first character of the login. *)
Theorem avatar_failure_degrades_to_placeholder e q kind incl env w :
  is_badge e = true ->
  fetcherOf e q = Some (kind, incl) ->
  needs_fetch env w (cacheKey kind (default EmptyString (q_repo q)) incl) ->
  listing_healthy env (default EmptyString (q_repo q)) ->
  exists l w' t,
    fetcher kind (default EmptyString (q_repo q)) incl env w = (Ok l, w', t)
    /\ forall i c,
        l !! i = Some c ->
        avatar_fails env (avatar_url c) ->
        avatar_base64 c = None
        /\ handle e q env w
           = (Ok (badgeResponse e q kind l), w',
              t ++ [EvRender (length l) (finalStyleOf e q kind l) (requestedTheme q)])
        /\ status (badgeResponse e q kind l) = 200
        /\ exists el,
             svg_elements
               (generateSVGBadge l (finalStyleOf e q kind l) (requestedTheme q)) !! i
             = Some el
             /\ el_username el = login c
             /\ el_avatar el
                = AvatarFallback (nth (i mod length palette) palette "undefined")
                                 (fallbackText (theme_colors (requestedTheme q)))
                                 (Js.toUpperCase (Js.charAt0 (login c))).
Proof.
  intros Hb Hf Hneed Hup.
  set (repo := default EmptyString (q_repo q)) in *.
  destruct (fetcher_fetches kind repo incl env w Hneed)
    as (r & a' & tr & n & Hfetch & _ & _ & Hproc & Hok).
  destruct (Hok Hup) as [l ->].
  destruct (Hproc l eq_refl) as (raws & [Hlen Hall] & _).
  eexists l, _, _. split; [exact Hfetch|].
  intros i c Hi Hfail.
  assert (Hlt : i < length raws) by (rewrite <- Hlen; eapply lookup_lt_Some; eauto).
  destruct (lookup_lt_is_Some_2 raws i Hlt) as [raw Hraw].
  destruct (Hall i raw c Hraw Hi) as (Hlogin & Hurl & _ & _ & Hfb & Hav).
  assert (Hnone : avatar_base64 c = None) by (apply Hav; rewrite <- Hurl; exact Hfail).
  split; [exact Hnone|]. split; [|split; [reflexivity|]].
  - pose proof (handle_run _ _ _ _ Hf Hb env w) as Hr. fold repo in Hr.
    rewrite Hfetch in Hr.
    assert ((length l =? 0) = false) as Hl
      by (apply Nat.eqb_neq; apply lookup_lt_Some in Hi; lia).
    rewrite Hl in Hr. exact Hr.
  - destruct (placeholder_element l (finalStyleOf e q kind l) (requestedTheme q) i c Hi Hnone)
      as (el & Hel & Hname & Havatar).
    exists el. split; [exact Hel|]. split; [exact Hname|].
    rewrite Havatar, Hfb, <- Hlogin. reflexivity.
Qed.

Lemma avatar_failure_degrades_to_placeholder_witness :
  exists l w' t c el,
    handle EBadge (query "octocat/hello" "3" "horizontal")
           (repoEnv 5 AvatarFail) emptyWorld
    = (Ok (badgeResponse EBadge (query "octocat/hello" "3" "horizontal") (Bounded 3) l),
       w', t ++ [EvRender 3 "horizontal" "light"])
    /\ l !! 1 = Some c
    /\ login c = "user1"
    /\ avatar_base64 c = None
    /\ svg_elements (generateSVGBadge l "horizontal" "light") !! 1 = Some el
    /\ el_avatar el = AvatarFallback "#4ECDC4" "#ffffff" "U".
Proof.
  destruct (avatar_failure_degrades_to_placeholder EBadge
              (query "octocat/hello" "3" "horizontal") (Bounded 3) true
              (repoEnv 5 AvatarFail) emptyWorld eq_refl eq_refl)
    as (l & w' & t & Hfetch & H).
  { intros entry Hentry. vm_compute in Hentry. discriminate. }
  { intros a per_page page. destruct page; eexists; reflexivity. }
  vm_compute in Hfetch. injection Hfetch as Hl Hw Ht. subst l w' t.
  edestruct (H 1) as (Hnone & Hrun & _ & el & Hel & _ & Hav);
    [reflexivity | intros k; reflexivity |].
  eexists _, _, _, _, el.
  split; [exact Hrun|]. split; [reflexivity|]. split; [reflexivity|].
  split; [exact Hnone|]. split; [exact Hel | exact Hav].
Defined.

(* ===================================================================== *)
(** * Upstream failures                                                    *)
(* ===================================================================== *)

Lemma fetchBlock_first_request_fails kind repo incl env c n a st :
  contributors_api env a repo (fst (firstRequest kind)) (snd (firstRequest kind))
  = ListFail st ->
  result_of (fetchBlock kind repo incl env {| cache := c; clock_reads := n; api_calls := a |})
  = Throw (Error (upstreamMessage st)).
Proof.
  intros Hapi.
  destruct kind as [limit|]; cbn [fetchBlock firstRequest fst snd] in *.
  - destruct (fetchContributors_run env repo limit incl a) as (r & a' & t & Hrun & _ & Hr).
    rewrite Hrun, Hapi in *. subst r. reflexivity.
  - destruct (fetchAllContributors_run env repo incl a)
      as (k & rp & r & a' & t & Hk & Hrun & _ & Hbefore & Hstop & Hr).
    rewrite Hrun.
    assert (k = 1) as ->.
    { destruct (Nat.eq_dec k 1) as [|Hne]; [assumption|].
      destruct (Hbefore 0) as (x & xs & Hx); [lia|].
      rewrite Nat.add_0_r in Hx. cbn in Hx. congruence. }
    cbn [Nat.sub Nat.add] in Hstop. rewrite Nat.add_0_r, Hapi in Hstop. subst rp.
    cbn [response_status] in Hr. subst r. reflexivity.
Qed.

(** The error a fetcher throws when the cache cannot serve the key and the
    first listing request fails with upstream status [st]. *)
Lemma fetcher_first_request_fails kind repo incl env w st :
  needs_fetch env w (cacheKey kind repo incl) ->
  contributors_api env (api_calls w) repo (fst (firstRequest kind)) (snd (firstRequest kind))
  = ListFail st ->
  result_of (fetcher kind repo incl env w) = Throw (Error (upstreamMessage st)).
Proof.
  intros Hneed Hapi.
  destruct (fetcher_fetches kind repo incl env w Hneed)
    as (r & a' & t & n & Hfetch & Hblock & _).
  rewrite Hfetch. unfold result_of. cbn [fst].
  pose proof (fetchBlock_first_request_fails kind repo incl env (cache w) n _ st Hapi) as H.
  rewrite Hblock in H. exact H.
Qed.

(** What each endpoint answers when the listing request of a fresh fetch
    fails. *)
Lemma upstream_failure_status e q kind incl env w st :
  fetcherOf e q = Some (kind, incl) ->
  needs_fetch env w (cacheKey kind (default EmptyString (q_repo q)) incl) ->
  contributors_api env (api_calls w) (default EmptyString (q_repo q))
                   (fst (firstRequest kind)) (snd (firstRequest kind))
  = ListFail st ->
  exists resp,
    result_of (handle e q env w) = Ok resp /\ status resp = reportedStatus e st.
Proof.
  intros Hf Hmiss Hapi.
  pose proof (fetcher_first_request_fails _ _ _ _ _ _ Hmiss Hapi) as Hthrow.
  rewrite (handle_anatomy _ _ _ _ Hf). unfold try_catch, bind, result_of in *.
  destruct (fetcher kind _ incl env w) as [[r w1] t1]. cbn in Hthrow. subst r.
  unfold reportedStatus, upstreamMessage.
  destruct e; cbn [catchOf];
    unfold badgeCatch, badgeAllCatch, badgeFastCatch, statsCatch, Error; cbn [message];
    destruct (default 0 st =? 404); [eexists; split; reflexivity| |
                                     eexists; split; reflexivity| |
                                     eexists; split; reflexivity| |
                                     eexists; split; reflexivity| ];
    (destruct (default 0 st =? 403); [eexists; split; reflexivity|]);
    (destruct (default 0 st =? 401); eexists; split; reflexivity).
Qed.

(** C3 at its failing input: upstream answers 401 to the listing request.
    [/badge] reports 401; [/badge/all], [/badge/fast] and [/stats] report
    500. *)
Theorem unauthorized_reported_as_500 :
  map (fun e => match result_of (handle e (query "octocat/hello" "all" "grid")
                                        (constEnv (ListFail (Some 401)) AvatarFail)
                                        emptyWorld) with
                | Ok resp => Some (status resp, body resp)
                | Throw _ => None
                end)
      [EBadge; EBadgeAll; EBadgeFast; EStats]
  = [ Some (401, ErrorJson "GitHub authentication failed");
      Some (500, ErrorJson "Failed to generate badge with all contributors");
      Some (500, ErrorJson "Failed to generate badge");
      Some (500, ErrorJson "Failed to fetch repository stats") ]
  /\ specStatus (Some 401) = 401.
Proof. split; vm_compute; reflexivity. Qed.

(** On [/badge] the four kinds of upstream failure are reported as the
    specification asks. *)
Lemma badge_reports_upstream_failures st :
  reportedStatus EBadge st = specStatus st.
Proof. reflexivity. Qed.

(** The other endpoints differ from it exactly on status 401. *)
Lemma other_endpoints_miss_unauthorized e st :
  e <> EBadge ->
  reportedStatus e st = if default 0 st =? 401 then 500 else specStatus st.
Proof.
  intros He. unfold reportedStatus, specStatus.
  destruct (default 0 st =? 404) eqn:E4.
  - apply Nat.eqb_eq in E4. rewrite E4. reflexivity.
  - destruct (default 0 st =? 403) eqn:E3.
    + apply Nat.eqb_eq in E3. rewrite E3. reflexivity.
    + destruct (default 0 st =? 401); [destruct e; congruence | reflexivity].
Qed.

(* ===================================================================== *)
(** * More on the renderer                                                 *)
(* ===================================================================== *)

Lemma append_cons a s t : String a s +:+ t = String a (s +:+ t).
Proof. reflexivity. Qed.

Lemma substring0_split n s :
  n <= String.length s ->
  exists rest, s = Js.substring0 n s +:+ rest
               /\ String.length (Js.substring0 n s) = n.
Proof.
  unfold Js.substring0. revert s.
  induction n as [|n IH]; intros s Hn.
  - exists s. destruct s; split; reflexivity.
  - destruct s as [|a s]; [simpl in Hn; lia|].
    destruct (IH s) as (rest & Hs & Hl); [simpl in Hn; lia|].
    exists rest. cbn [String.substring String.length]. rewrite append_cons.
    split; [f_equal; exact Hs | f_equal; exact Hl].
Qed.

Lemma length_append s t : String.length (s +:+ t) = String.length s + String.length t.
Proof.
  induction s as [|a s IH]; [reflexivity|].
  rewrite append_cons. cbn [String.length]. now rewrite IH.
Qed.

Lemma element_at contributors style theme i c :
  contributors !! i = Some c ->
  exists x y,
    svg_elements (generateSVGBadge contributors style theme) !! i
    = Some (render_contributor (theme_colors theme) x y i c).
Proof.
  intros Hi. destruct (String.eqb style "grid") eqn:Hs.
  - apply String.eqb_eq in Hs. subst style. eexists _, _. apply grid_element. exact Hi.
  - eexists _, _. apply row_element; [exact Hs | exact Hi].
Qed.

(** X1. The label of an element is the login when it has at most eight
    characters, and otherwise its first eight characters followed by three
    dots, eleven characters in all. *)
Theorem label_truncation contributors style theme i c :
  contributors !! i = Some c ->
  exists el,
    svg_elements (generateSVGBadge contributors style theme) !! i = Some el
    /\ (String.length (login c) <= 8 -> el_label el = login c)
    /\ (8 < String.length (login c) ->
        exists first rest,
          login c = first +:+ rest /\ String.length first = 8
          /\ el_label el = first +:+ "..."
          /\ String.length (el_label el) = 11).
Proof.
  intros Hi. destruct (element_at contributors style theme i c Hi) as (x & y & Hel).
  eexists. split; [exact Hel|]. cbn [render_contributor el_label]. unfold displayName.
  split.
  - intros Hle. assert ((maxUsernameLength <? String.length (login c)) = false) as ->
      by (apply Nat.ltb_ge; exact Hle). reflexivity.
  - intros Hlt. assert ((maxUsernameLength <? String.length (login c)) = true) as ->
      by (apply Nat.ltb_lt; exact Hlt).
    destruct (substring0_split maxUsernameLength (login c)) as (rest & Hs & Hl);
      [unfold maxUsernameLength; lia|].
    exists (Js.substring0 maxUsernameLength (login c)), rest.
    split; [exact Hs|]. split; [exact Hl|]. split; [reflexivity|].
    rewrite length_append, Hl. reflexivity.
Qed.

Lemma label_truncation_witness :
  exists el,
    svg_elements (generateSVGBadge (data_of 12) "grid" "light") !! 11 = Some el
    /\ el_label el = "user11"
    /\ exists el',
        svg_elements
          (generateSVGBadge
             [ {| login := "a-very-long-login"; avatar_url := "u"; avatar_base64 := None;
                  html_url := "h"; contributions := 1;
                  fallback := generateAvatarPattern "a-very-long-login" 0 |} ]
             "horizontal" "light") !! 0 = Some el'
        /\ el_label el' = "a-very-l...".
Proof.
  destruct (label_truncation (data_of 12) "grid" "light" 11
              {| login := "user11"; avatar_url := "https://avatars.example/u/11";
                 avatar_base64 := None; html_url := "https://github.com/user11";
                 contributions := 89;
                 fallback := generateAvatarPattern "user11" 11 |} eq_refl)
    as (el & Hel & Hshort & _).
  exists el. split; [exact Hel|]. split; [apply Hshort; vm_compute; lia|].
  destruct (label_truncation
              [ {| login := "a-very-long-login"; avatar_url := "u"; avatar_base64 := None;
                   html_url := "h"; contributions := 1;
                   fallback := generateAvatarPattern "a-very-long-login" 0 |} ]
              "horizontal" "light" 0 _ eq_refl)
    as (el' & Hel' & _ & Hlong).
  exists el'. split; [exact Hel'|].
  destruct Hlong as (first & rest & _ & _ & _ & _); [vm_compute; lia|].
  vm_compute in Hel'. injection Hel' as <-. reflexivity.
Defined.

(** X2. Any style other than [grid] is laid out as one row: the canvas is
    [n * 70 + 12] wide and 86 high, and item [i] sits at
    [(i * 70 + 12, 12)]; an empty list gives a canvas 12 wide. *)
Theorem row_layout contributors style theme :
  style <> "grid" ->
  let doc := generateSVGBadge contributors style theme in
  svg_width doc = Num (length contributors * 70 + 12)
  /\ svg_height doc = Num 86
  /\ length (svg_elements doc) = length contributors
  /\ forall i c, contributors !! i = Some c ->
       exists el, svg_elements doc !! i = Some el
                  /\ el_username el = login c
                  /\ el_x el = i * 70 + 12 /\ el_y el = 12.
Proof.
  intros Hs doc. apply String.eqb_neq in Hs. subst doc.
  split; [|split; [|split]].
  - unfold generateSVGBadge. rewrite Hs. reflexivity.
  - unfold generateSVGBadge. rewrite Hs. reflexivity.
  - unfold generateSVGBadge. rewrite Hs. cbn [svg_elements]. apply length_imap.
  - intros i c Hi. eexists. split; [apply row_element; [exact Hs | exact Hi]|].
    repeat split.
Qed.

Lemma row_layout_witness :
  svg_width (generateSVGBadge (data_of 3) "vertical" "light") = Num 222
  /\ svg_height (generateSVGBadge (data_of 3) "vertical" "light") = Num 86
  /\ svg_width (generateSVGBadge [] "horizontal" "light") = Num 12.
Proof.
  destruct (row_layout (data_of 3) "vertical" "light") as (Hw & Hh & _);
    [discriminate|].
  destruct (row_layout [] "horizontal" "light") as (Hw0 & _); [discriminate|].
  split; [exact Hw|]. split; [exact Hh | exact Hw0].
Defined.

Lemma div_lt_rows i n cols rows :
  0 < cols -> i < n -> n <= rows * cols -> i / cols < rows.
Proof.
  intros Hc Hi Hn. apply Nat.Div0.div_lt_upper_bound. nia.
Qed.

Lemma grid_canvas contributors theme :
  contributors <> [] ->
  exists cols rows,
    cols = ceil_sqrt (length contributors)
    /\ 0 < cols /\ length contributors <= rows * cols
    /\ svg_width (generateSVGBadge contributors "grid" theme) = Num (cols * 70 + 12)
    /\ svg_height (generateSVGBadge contributors "grid" theme) = Num (rows * 74 + 12).
Proof.
  intros Hne.
  assert (Hn : 0 < length contributors)
    by (destruct contributors; [congruence | simpl; lia]).
  pose proof (ceil_sqrt_pos _ Hn) as Hc.
  destruct (ceil_div_num (length contributors) _ Hc) as [rows Hrows].
  exists (ceil_sqrt (length contributors)), rows.
  split; [reflexivity|]. split; [exact Hc|].
  split; [apply (ceil_div_bounds _ _ _ Hn Hrows)|].
  split; [reflexivity|].
  unfold generateSVGBadge. cbn [String.eqb Ascii.eqb Bool.eqb svg_height].
  rewrite Hrows. reflexivity.
Qed.

Lemma elements_length contributors style theme :
  length (svg_elements (generateSVGBadge contributors style theme)) = length contributors.
Proof.
  unfold generateSVGBadge. destruct (String.eqb style "grid");
    cbn [svg_elements]; apply length_imap.
Qed.

Lemma element_source contributors style theme i a :
  svg_elements (generateSVGBadge contributors style theme) !! i = Some a ->
  exists c, contributors !! i = Some c.
Proof.
  intros Hi. apply lookup_lt_Some in Hi. rewrite elements_length in Hi.
  destruct (lookup_lt_is_Some_2 contributors i Hi) as [c Hc]. eauto.
Qed.

(** X3. In either layout of a non-empty list every cell (70 by 74 from the
    element's origin) lies inside the canvas, and the cells of two different
    contributors do not overlap. *)
Theorem cells_fit_and_are_disjoint contributors style theme :
  contributors <> [] ->
  let doc := generateSVGBadge contributors style theme in
  exists W H,
    svg_width doc = Num W /\ svg_height doc = Num H
    /\ forall i a, svg_elements doc !! i = Some a ->
         el_x a + cellWidth <= W /\ el_y a + cellHeight <= H
         /\ forall j b, svg_elements doc !! j = Some b -> i <> j -> cells_apart a b.
Proof.
  intros Hne doc. subst doc.
  destruct (String.eqb style "grid") eqn:Hs.
  - apply String.eqb_eq in Hs. subst style.
    destruct (grid_canvas contributors theme Hne)
      as (cols & rows & Hcdef & Hcols & Hr2 & Hw & Hh).
    assert (Hat : forall i a,
              svg_elements (generateSVGBadge contributors "grid" theme) !! i = Some a ->
              i < length contributors
              /\ el_x a = i mod cols * 70 + 12 /\ el_y a = i / cols * 74 + 12).
    { intros i a Hi. destruct (element_source _ _ _ _ _ Hi) as [c Hc].
      rewrite (grid_element _ _ _ _ Hc) in Hi. injection Hi as <-.
      split; [eapply lookup_lt_Some; eauto|]. subst cols. split; reflexivity. }
    exists (cols * 70 + 12), (rows * 74 + 12).
    split; [exact Hw|]. split; [exact Hh|].
    intros i a Hi. destruct (Hat i a Hi) as (Hlt & Hx & Hy).
    pose proof (Nat.mod_upper_bound i cols ltac:(lia)) as Hm.
    pose proof (div_lt_rows i _ cols rows Hcols Hlt Hr2) as Hd.
    change cellWidth with 70. change cellHeight with 74.
    split; [nia|]. split; [nia|].
    intros j b Hj Hij. destruct (Hat j b Hj) as (_ & Hxb & Hyb).
    unfold cells_apart. change cellWidth with 70. change cellHeight with 74.
    pose proof (Nat.div_mod_eq i cols) as Ei.
    pose proof (Nat.div_mod_eq j cols) as Ej.
    destruct (Nat.lt_trichotomy (i / cols) (j / cols)) as [Hl|[He|Hg]];
      [right; right; left; nia | | right; right; right; nia].
    destruct (Nat.lt_trichotomy (i mod cols) (j mod cols)) as [Hl|[He'|Hg]];
      [left; nia | | right; left; nia].
    exfalso. apply Hij. rewrite Ei, Ej, He, He'. reflexivity.
  - assert (Hat : forall i a,
              svg_elements (generateSVGBadge contributors style theme) !! i = Some a ->
              i < length contributors /\ el_x a = i * 70 + 12 /\ el_y a = 12).
    { intros i a Hi. destruct (element_source _ _ _ _ _ Hi) as [c Hc].
      rewrite (row_element _ _ _ _ _ Hs Hc) in Hi. injection Hi as <-.
      split; [eapply lookup_lt_Some; eauto|]. split; reflexivity. }
    exists (length contributors * 70 + 12), 86.
    split; [unfold generateSVGBadge; rewrite Hs; reflexivity|].
    split; [unfold generateSVGBadge; rewrite Hs; reflexivity|].
    intros i a Hi. destruct (Hat i a Hi) as (Hlt & Hx & Hy).
    change cellWidth with 70. change cellHeight with 74.
    split; [nia|]. split; [lia|].
    intros j b Hj Hij. destruct (Hat j b Hj) as (_ & Hxb & Hyb).
    unfold cells_apart. change cellWidth with 70. change cellHeight with 74. lia.
Qed.

Lemma cells_fit_and_are_disjoint_witness :
  exists W H,
    svg_width (generateSVGBadge (data_of 5) "grid" "light") = Num W
    /\ svg_height (generateSVGBadge (data_of 5) "grid" "light") = Num H
    /\ W = 222 /\ H = 160.
Proof.
  destruct (cells_fit_and_are_disjoint (data_of 5) "grid" "light")
    as (W & H & Hw & Hh & _); [discriminate|].
  exists W, H. split; [exact Hw|]. split; [exact Hh|].
  vm_compute in Hw, Hh. injection Hw as <-. injection Hh as <-. split; reflexivity.
Defined.

(** X4. Whatever the style and theme, the document has one element and one
    clip path per contributor, in the order of the list; the element links
    to the contributor's profile, and shows the inlined image exactly when
    the record carries a non-empty one, the placeholder of the record
    otherwise. *)
Theorem one_element_per_contributor contributors style theme :
  let doc := generateSVGBadge contributors style theme in
  length (svg_elements doc) = length contributors
  /\ svg_clips doc = length contributors
  /\ forall i c, contributors !! i = Some c ->
       exists el, svg_elements doc !! i = Some el
         /\ el_username el = login c /\ el_href el = html_url c
         /\ el_avatar el
            = match avatar_base64 c with
              | Some (String a s) => AvatarImage (String a s) i
              | _ => AvatarFallback (color (fallback c))
                                    (fallbackText (theme_colors theme))
                                    (initial (fallback c))
              end.
Proof.
  intros doc. subst doc. split; [apply elements_length|]. split.
  - unfold generateSVGBadge. destruct (String.eqb style "grid"); reflexivity.
  - intros i c Hi. destruct (element_at contributors style theme i c Hi) as (x & y & Hel).
    eexists. split; [exact Hel|]. split; [reflexivity|]. split; [reflexivity|].
    cbn [render_contributor el_avatar].
    destruct (avatar_base64 c) as [[|a s]|]; reflexivity.
Qed.

Lemma one_element_per_contributor_witness :
  length (svg_elements (generateSVGBadge (data_of 7) "grid" "dark")) = 7
  /\ svg_clips (generateSVGBadge (data_of 7) "grid" "dark") = 7.
Proof.
  destruct (one_element_per_contributor (data_of 7) "grid" "dark") as (Hl & Hc & _).
  split; [exact Hl | exact Hc].
Defined.


(* ===================================================================== *)
(** * More on the upstream client                                          *)
(* ===================================================================== *)

(** X6. [getBase64Avatar] never throws and makes exactly one request: a
    failure gives [null]; a success gives the data URI built from the
    [content-type] header ([image/png] when the header is missing or empty)
    and the encoded body, which is a non-empty string. *)
Theorem getBase64Avatar_outcome url env w :
  exists o,
    getBase64Avatar url env w = (Ok o, count_call w, [EvAvatarFetch url])
    /\ match avatar_api env (api_calls w) url with
       | AvatarFail => o = None
       | AvatarOk base64 ct =>
           o = Some ("data:" +:+ match ct with
                                 | Some (String a s) => String a s
                                 | _ => "image/png"
                                 end +:+ ";base64," +:+ base64)
           /\ Js.truthy o = true
       end.
Proof.
  unfold getBase64Avatar, try_catch, bind, axios_avatar, ret.
  destruct (avatar_api env (api_calls w) url) as [b64 ct|].
  - eexists. split; [reflexivity|].
    destruct ct as [[|a s]|]; split; reflexivity.
  - eexists. split; reflexivity.
Qed.

Lemma process_contributor_built incl c j env a :
  exists p t,
    upstream_run (process_contributor incl c j) env a (Ok p) (length t + a) t
    /\ built (fun _ => incl) c j p t.
Proof.
  unfold process_contributor. destruct incl.
  - destruct (getBase64Avatar_run (raw_avatar_url c) env a) as (o & Hr & _).
    eexists _, [avatarRequest c]. split.
    + intros ch n. unfold bind. rewrite Hr. reflexivity.
    + unfold built. cbn. repeat split; auto. discriminate.
  - eexists _, []. split.
    + intros ch n. reflexivity.
    + unfold built. cbn. repeat split; auto.
Qed.

Lemma process_batch_item_built incl i c j env a :
  exists p t,
    upstream_run (process_batch_item incl i c j) env a (Ok p) (length t + a) t
    /\ built (firstFifty incl) c (i + j) p t.
Proof.
  unfold process_batch_item, built, firstFifty.
  destruct (incl && (i + j <? 50)) eqn:E.
  - destruct (getBase64Avatar_run (raw_avatar_url c) env a) as (o & Hr & _).
    eexists _, [avatarRequest c]. split.
    + intros ch n. unfold bind. rewrite Hr. reflexivity.
    + cbn. repeat split; auto. discriminate.
  - eexists _, []. split.
    + intros ch n. reflexivity.
    + cbn. repeat split; auto.
Qed.

Lemma map_async_built (f : RawContributor -> nat -> M Contributor) R env :
  (forall c j a, exists p t,
      upstream_run (f c j) env a (Ok p) (length t + a) t /\ R c j p t) ->
  forall items index a, exists ps tss,
    upstream_run (map_async_from f index items) env a (Ok ps)
                 (length (concat tss) + a) (concat tss)
    /\ rel_from R index items ps tss.
Proof.
  intros Hf. induction items as [|c items IH]; intros index a.
  - exists [], []. split; [intros ch n; reflexivity | constructor].
  - destruct (Hf c index a) as (p & t & Hp & HR).
    destruct (IH (S index) (length t + a)) as (ps & tss & Hps & Hrel).
    exists (p :: ps), (t :: tss). split; [|constructor; assumption].
    intros ch n. cbn [map_async_from]. unfold bind at 1. rewrite Hp.
    unfold bind at 1. rewrite Hps. cbn [concat]. unfold ret.
    rewrite app_nil_r, length_app. do 2 f_equal.
    f_equal. lia.
Qed.

Lemma rel_from_length R index cs ps tss :
  rel_from R index cs ps tss -> length ps = length cs /\ length tss = length cs.
Proof. induction 1; cbn; lia. Qed.

Lemma rel_from_app R index cs1 ps1 tss1 cs2 ps2 tss2 :
  rel_from R index cs1 ps1 tss1 ->
  rel_from R (index + length cs1) cs2 ps2 tss2 ->
  rel_from R index (cs1 ++ cs2) (ps1 ++ ps2) (tss1 ++ tss2).
Proof.
  induction 1 as [index|index c cs p ps t tss HR Hrel IH]; intros H2.
  - rewrite Nat.add_0_r in H2. exact H2.
  - cbn. constructor; [exact HR|]. apply IH.
    cbn [length] in H2. replace (S index + length cs) with (index + S (length cs)) by lia.
    exact H2.
Qed.

Lemma rel_from_shift (R : RawContributor -> nat -> Contributor -> list Event -> Prop)
    i index cs ps tss :
  rel_from (fun c j p t => R c (i + j) p t) index cs ps tss ->
  rel_from R (i + index) cs ps tss.
Proof.
  induction 1 as [index|index c cs p ps t tss HR Hrel IH]; [constructor|].
  constructor; [exact HR|]. replace (S (i + index)) with (i + S index) by lia. exact IH.
Qed.

Lemma rel_from_lookup R index cs ps tss j c :
  rel_from R index cs ps tss -> cs !! j = Some c ->
  exists p t, ps !! j = Some p /\ tss !! j = Some t /\ R c (index + j) p t.
Proof.
  intros H. revert j. induction H as [index|index c0 cs p ps t tss HR Hrel IH]; intros j Hj.
  - destruct j; discriminate Hj.
  - destruct j as [|j]; cbn in Hj.
    + injection Hj as <-. exists p, t. rewrite Nat.add_0_r. auto.
    + destruct (IH j Hj) as (p' & t' & Hp & Ht & HR').
      exists p', t'. replace (index + S j) with (S index + j) by lia. auto.
Qed.

(** The batch loop, item by item. *)
Lemma processBatches_built incl env all :
  forall d i acc tacc a,
    length all - i <= d ->
    rel_from (built (firstFifty incl)) 0 (take i all) acc tacc ->
    exists ps tss,
      upstream_run (processBatches incl all i acc) env a (Ok ps)
                   (length (concat tss) + a) (concat tss)
      /\ rel_from (built (firstFifty incl)) 0 all ps (tacc ++ tss).
Proof.
  induction d as [|d IH]; intros i acc tacc a Hd Hacc;
    rewrite processBatches_equation_1;
    destruct (lt_dec i (length all)) as [Hlt|Hge]; try lia.
  - exists acc, []. split; [intros c n; reflexivity|].
    rewrite take_ge in Hacc by lia. now rewrite app_nil_r.
  - cbv zeta.
    destruct (map_async_built (process_batch_item incl i)
                (fun c j p t => built (firstFifty incl) c (i + j) p t) env
                (fun c j a0 => process_batch_item_built incl i c j env a0)
                (take batchSize (drop i all)) 0 a)
      as (pb & tb & Hpb & Hrel).
    apply rel_from_shift in Hrel. rewrite Nat.add_0_r in Hrel.
    destruct (IH (i + batchSize) (acc ++ pb) (tacc ++ tb) (length (concat tb) + a))
      as (ps & tss & Hps & Hall).
    + unfold batchSize. lia.
    + rewrite <- take_take_drop. apply rel_from_app; [exact Hacc|].
      rewrite length_take, Nat.min_l by lia. exact Hrel.
    + exists ps, (tb ++ tss). split.
      * intros c n. unfold bind, map_async. rewrite Hpb, Hps.
        rewrite concat_app, length_app. do 2 f_equal. f_equal. lia.
      * rewrite app_assoc. exact Hall.
  - exists acc, []. split; [intros c n; reflexivity|].
    rewrite take_ge in Hacc by lia. now rewrite app_nil_r.
Qed.

Lemma built_fields wanted index cs ps tss :
  rel_from (built wanted) index cs ps tss ->
  map login ps = map raw_login cs
  /\ map avatar_url ps = map raw_avatar_url cs
  /\ map html_url ps = map raw_html_url cs
  /\ map contributions ps = map raw_contributions cs
  /\ map fallback ps = imap (fun j c => generateAvatarPattern (raw_login c) (index + j)) cs.
Proof.
  induction 1 as [index|index c cs p ps t tss HR Hrel IH].
  - repeat split.
  - destruct HR as (H1 & H2 & H3 & H4 & H5 & _).
    destruct IH as (I1 & I2 & I3 & I4 & I5).
    cbn [map imap]. rewrite H1, H2, H3, H4, H5, I1, I2, I3, I4, I5, Nat.add_0_r.
    repeat split. f_equal. apply imap_ext. intros j c' _. cbn. f_equal. lia.
Qed.

Lemma built_requests_all incl index cs ps tss :
  rel_from (built (fun _ => incl)) index cs ps tss ->
  concat tss = (if incl then map avatarRequest cs else []).
Proof.
  induction 1 as [index|index c cs p ps t tss HR Hrel IH].
  - destruct incl; reflexivity.
  - destruct HR as (_ & _ & _ & _ & _ & -> & _). cbn [concat]. rewrite IH.
    destruct incl; reflexivity.
Qed.

Lemma built_requests_first_fifty incl index cs ps tss :
  rel_from (built (firstFifty incl)) index cs ps tss ->
  concat tss = (if incl then map avatarRequest (take (50 - index) cs) else []).
Proof.
  induction 1 as [index|index c cs p ps t tss HR Hrel IH].
  - destruct incl; [now rewrite take_nil | reflexivity].
  - destruct HR as (_ & _ & _ & _ & _ & -> & _). cbn [concat]. rewrite IH.
    unfold firstFifty. destruct incl; [|reflexivity]. cbn [andb].
    destruct (index <? 50) eqn:E.
    + apply Nat.ltb_lt in E. replace (50 - index) with (S (50 - S index)) by lia.
      reflexivity.
    + apply Nat.ltb_ge in E. replace (50 - index) with 0 by lia.
      replace (50 - S index) with 0 by lia. reflexivity.
Qed.

Lemma built_no_avatar wanted index cs ps tss j p :
  rel_from (built wanted) index cs ps tss ->
  ps !! j = Some p -> wanted (index + j) = false -> avatar_base64 p = None.
Proof.
  intros Hrel Hp Hw.
  destruct (rel_from_length _ _ _ _ _ Hrel) as [Hl _].
  assert (Hlt : j < length cs) by (rewrite <- Hl; eapply lookup_lt_Some; eauto).
  destruct (lookup_lt_is_Some_2 cs j Hlt) as [c Hc].
  destruct (rel_from_lookup _ _ _ _ _ _ _ Hrel Hc) as (p' & t & Hp' & _ & HR).
  rewrite Hp in Hp'. injection Hp' as <-.
  destruct HR as (_ & _ & _ & _ & _ & _ & Hnone). auto.
Qed.

Lemma avatar_requests_app t1 t2 :
  avatar_requests (t1 ++ t2) = avatar_requests t1 ++ avatar_requests t2.
Proof. apply List.filter_app. Qed.

Lemma avatar_requests_map cs : avatar_requests (map avatarRequest cs) = map avatarRequest cs.
Proof. induction cs as [|c cs IH]; [reflexivity|]. cbn. f_equal. exact IH. Qed.

Lemma list_requests_avatars cs : list_requests (map avatarRequest cs) = [].
Proof. induction cs as [|c cs IH]; [reflexivity | exact IH]. Qed.

Lemma avatar_requests_none t :
  Forall (fun ev => is_avatar_fetch ev = false) t -> avatar_requests t = [].
Proof.
  induction 1 as [|ev t Hev _ IH]; [reflexivity|].
  unfold avatar_requests in *. cbn [List.filter]. now rewrite Hev.
Qed.

(** A fetcher that the cache cannot serve runs its [try] block on the same
    cache and call counter, after zero or one clock reading. *)
Lemma fetcher_runs_block kind repo incl env w :
  needs_fetch env w (cacheKey kind repo incl) ->
  exists n,
    fetcher kind repo incl env w
    = (let '(r, w', t) :=
         fetchBlock kind repo incl env
           {| cache := cache w; clock_reads := n; api_calls := api_calls w |} in
       (r, w', EvCacheGet (cacheKey kind repo incl) :: t)).
Proof.
  intros Hneed.
  destruct (cache w !! cacheKey kind repo incl) as [entry|] eqn:Hc.
  - exists (S (clock_reads w)).
    rewrite (fetcher_stale _ _ _ _ _ _ Hc (Hneed entry Hc)). reflexivity.
  - exists (clock_reads w). rewrite (fetcher_miss _ _ _ _ _ Hc).
    rewrite <- world_eta. reflexivity.
Qed.

(** X7. When the cache cannot serve the key and upstream answers the
    listing request with [raws], [getContributors] returns one record per
    upstream item, in upstream order and with the upstream fields (it does
    not cut the list down to the limit); it makes one listing request, one
    avatar request per item in the same order when avatars are wanted and
    none otherwise, and stores the result under its key. *)
Theorem bounded_fetch_keeps_upstream_order repo limit incl env w raws :
  needs_fetch env w (contributorsKey repo limit incl) ->
  contributors_api env (api_calls w) repo (Nat.min limit 100) None = ListOk raws ->
  exists ps w' t,
    getContributors repo limit incl env w = (Ok ps, w', t)
    /\ map login ps = map raw_login raws
    /\ map avatar_url ps = map raw_avatar_url raws
    /\ map html_url ps = map raw_html_url raws
    /\ map contributions ps = map raw_contributions raws
    /\ list_requests t = [EvListContributors repo (Nat.min limit 100) None]
    /\ avatar_requests t = (if incl then map avatarRequest raws else [])
    /\ api_calls w' = api_calls w + 1 + length (avatar_requests t)
    /\ exists stored_at,
         cache w' !! contributorsKey repo limit incl
         = Some {| data := ps; timestamp := stored_at |}.
Proof.
  intros Hneed Hapi.
  destruct (fetcher_runs_block (Bounded limit) repo incl env w Hneed) as [n Hrun].
  cbn [fetcher fetchBlock cacheKey] in Hrun.
  destruct (map_async_built (process_contributor incl) (built (fun _ => incl)) env
              (fun c j a0 => process_contributor_built incl c j env a0) raws 0
              (S (api_calls w))) as (ps & tss & Hps & Hrel).
  assert (Hblock :
    fetchContributors repo limit incl env
      {| cache := cache w; clock_reads := n; api_calls := api_calls w |}
    = (Ok ps,
       {| cache := <[contributorsKey repo limit incl :=
                       {| data := ps; timestamp := now env n |}]> (cache w);
          clock_reads := S n; api_calls := length (concat tss) + S (api_calls w) |},
       EvListContributors repo (Nat.min limit 100) None
         :: concat tss ++ [EvCacheSet (contributorsKey repo limit incl)])).
  { unfold fetchContributors, try_catch; unfold bind at 1;
      unfold axios_contributors, count_call; cbn [api_calls cache clock_reads].
    rewrite Hapi. unfold bind, map_async. rewrite Hps. reflexivity. }
  rewrite Hblock in Hrun.
  destruct (built_fields _ _ _ _ _ Hrel) as (F1 & F2 & F3 & F4 & _).
  pose proof (built_requests_all _ _ _ _ _ Hrel) as Hreq.
  assert (Hav : avatar_requests
                  (EvCacheGet (contributorsKey repo limit incl)
                   :: EvListContributors repo (Nat.min limit 100) None
                   :: concat tss ++ [EvCacheSet (contributorsKey repo limit incl)])
                = (if incl then map avatarRequest raws else [])).
  { change (avatar_requests (concat tss ++ [EvCacheSet (contributorsKey repo limit incl)])
            = (if incl then map avatarRequest raws else [])).
    rewrite avatar_requests_app, Hreq. cbn. rewrite app_nil_r.
    destruct incl; [apply avatar_requests_map | reflexivity]. }
  eexists ps, _, _. split; [exact Hrun|].
  split; [exact F1|]. split; [exact F2|]. split; [exact F3|]. split; [exact F4|].
  split.
  { change (list_requests
              ([EvCacheGet (contributorsKey repo limit incl);
                EvListContributors repo (Nat.min limit 100) None]
               ++ concat tss ++ [EvCacheSet (contributorsKey repo limit incl)])
            = [EvListContributors repo (Nat.min limit 100) None]).
    rewrite !list_requests_app, Hreq.
    assert (list_requests (if incl then map avatarRequest raws else []) = []) as ->
      by (destruct incl; [apply list_requests_avatars | reflexivity]).
    reflexivity. }
  split; [exact Hav|]. split.
  - rewrite Hav. cbn [api_calls]. rewrite Hreq.
    destruct incl; cbn [length]; lia.
  - eexists. cbn [cache]. apply lookup_insert_eq.
Qed.

Lemma bounded_fetch_keeps_upstream_order_witness :
  exists ps w' t,
    getContributors "octocat/hello" 3 true (repoEnv 5 AvatarFail) emptyWorld = (Ok ps, w', t)
    /\ map login ps = ["user0"; "user1"; "user2"]
    /\ avatar_requests t = map avatarRequest (sampleList 3)
    /\ api_calls w' = 4.
Proof.
  destruct (bounded_fetch_keeps_upstream_order "octocat/hello" 3 true
              (repoEnv 5 AvatarFail) emptyWorld (sampleList 3))
    as (ps & w' & t & Hrun & Hl & _ & _ & _ & _ & Hav & Hcalls & _).
  - intros entry He. vm_compute in He. discriminate.
  - reflexivity.
  - exists ps, w', t. split; [exact Hrun|]. split; [exact Hl|]. split; [exact Hav|].
    rewrite Hcalls, Hav. reflexivity.
Defined.

(** A run of [getAllContributors] that the cache cannot serve and that
    returns: the pages it asked for, then the records built from them item
    by item, then the store. *)
Lemma unbounded_fetch_built repo incl env w ps w' t :
  needs_fetch env w (allKey repo incl) ->
  getAllContributors repo incl env w = (Ok ps, w', t) ->
  exists k tp tss,
    1 <= k <= 100
    /\ list_requests tp = page_requests repo 1 k
    /\ avatar_requests tp = []
    /\ rel_from (built (firstFifty incl)) 0 (collected env repo (api_calls w) 1 k) ps tss
    /\ t = EvCacheGet (allKey repo incl)
             :: tp ++ concat tss ++ [EvCacheSet (allKey repo incl)]
    /\ api_calls w' = length (concat tss) + (api_calls w + k)
    /\ exists stored_at,
         cache w' = <[allKey repo incl := {| data := ps; timestamp := stored_at |}]> (cache w).
Proof.
  intros Hneed Hrun.
  destruct (fetcher_runs_block Unbounded repo incl env w Hneed) as [n Hblock].
  cbn [fetcher fetchBlock cacheKey] in Hblock. rewrite Hrun in Hblock.
  destruct (fetchPages_run env repo 100 1 [] (api_calls w)) as
    (k & rp & tp & Hk & Hpk & Hpages & Hreq & Hnoav & _ & Hstop); [lia | lia |].
  exists k, tp.
  unfold fetchAllContributors, try_catch in Hblock. unfold bind at 1 in Hblock.
  rewrite Hpages in Hblock.
  destruct rp as [raws|e].
  2: { rewrite rethrow_upstream_run in Hblock. discriminate Hblock. }
  assert (Hraws : raws = collected env repo (api_calls w) 1 k).
  { destruct (contributors_api env (api_calls w + (k - 1)) repo 100 (Some (1 + (k - 1))))
      as [[|x xs]|st].
    - injection Hstop as ->. reflexivity.
    - destruct Hstop as [_ Hstop]. injection Hstop as ->. reflexivity.
    - discriminate Hstop. }
  destruct (processBatches_built incl env raws (length raws) 0 [] [] (api_calls w + k))
    as (ps' & tss & Hps & Hrel); [lia | constructor |].
  cbn [app] in Hrel.
  unfold bind in Hblock. rewrite Hps in Hblock. cbn in Hblock.
  injection Hblock as -> -> ->. subst raws.
  exists tss. split; [lia|]. split; [exact Hreq|].
  split; [exact (avatar_requests_none tp Hnoav)|]. split; [exact Hrel|].
  split; [reflexivity|]. split; [reflexivity|]. eexists. reflexivity.
Qed.

(** X8. When the cache cannot serve the key and [getAllContributors]
    returns, its result is the concatenation of the pages it asked for, in
    order and with the upstream fields; avatars are requested for the first
    fifty contributors only, in order, and not at all when they are not
    wanted; a record at position fifty or later has no inlined avatar. *)
Theorem unbounded_fetch_result repo incl env w ps w' t :
  needs_fetch env w (allKey repo incl) ->
  getAllContributors repo incl env w = (Ok ps, w', t) ->
  exists k,
    1 <= k <= 100
    /\ list_requests t = page_requests repo 1 k
    /\ map login ps = map raw_login (collected env repo (api_calls w) 1 k)
    /\ map html_url ps = map raw_html_url (collected env repo (api_calls w) 1 k)
    /\ map contributions ps = map raw_contributions (collected env repo (api_calls w) 1 k)
    /\ avatar_requests t
       = (if incl then map avatarRequest (take 50 (collected env repo (api_calls w) 1 k))
          else [])
    /\ (forall i p, ps !! i = Some p -> 50 <= i -> avatar_base64 p = None)
    /\ api_calls w' = api_calls w + k + length (avatar_requests t).
Proof.
  intros Hneed Hrun.
  destruct (unbounded_fetch_built _ _ _ _ _ _ _ Hneed Hrun)
    as (k & tp & tss & Hk & Hreq & Hnoav & Hrel & -> & Hcalls & _).
  exists k. split; [exact Hk|].
  destruct (built_fields _ _ _ _ _ Hrel) as (F1 & _ & F3 & F4 & _).
  pose proof (built_requests_first_fifty _ _ _ _ _ Hrel) as Hav.
  change (50 - 0) with 50 in Hav.
  assert (Havt : avatar_requests
                   (EvCacheGet (allKey repo incl)
                    :: tp ++ concat tss ++ [EvCacheSet (allKey repo incl)])
                 = (if incl
                    then map avatarRequest (take 50 (collected env repo (api_calls w) 1 k))
                    else [])).
  { change (avatar_requests (tp ++ concat tss ++ [EvCacheSet (allKey repo incl)]) = 
            (if incl
             then map avatarRequest (take 50 (collected env repo (api_calls w) 1 k))
             else [])).
    rewrite !avatar_requests_app, Hnoav, Hav.
    cbn. rewrite app_nil_r.
    destruct incl; [apply avatar_requests_map | reflexivity]. }
  split.
  { change (list_requests
              ([EvCacheGet (allKey repo incl)]
               ++ tp ++ concat tss ++ [EvCacheSet (allKey repo incl)])
            = page_requests repo 1 k).
    rewrite !list_requests_app, Hreq, Hav.
    assert (list_requests
              (if incl
               then map avatarRequest (take 50 (collected env repo (api_calls w) 1 k))
               else []) = []) as ->
      by (destruct incl; [apply list_requests_avatars | reflexivity]).
    cbn. now rewrite app_nil_r. }
  split; [exact F1|]. split; [exact F3|]. split; [exact F4|].
  split; [exact Havt|]. split.
  - intros i p Hp Hi. apply (built_no_avatar _ _ _ _ _ _ _ Hrel Hp).
    unfold firstFifty. cbn [Nat.add].
    assert ((i <? 50) = false) as -> by (apply Nat.ltb_ge; exact Hi).
    apply andb_false_r.
  - rewrite Havt, Hcalls, Hav.
    destruct incl; cbn [length]; lia.
Qed.

Lemma unbounded_fetch_result_witness :
  exists ps w' t,
    getAllContributors "octocat/hello" true (repoEnv 120 AvatarFail) emptyWorld
    = (Ok ps, w', t)
    /\ length ps = 120
    /\ length (list_requests t) = 3
    /\ length (avatar_requests t) = 50
    /\ api_calls w' = 53.
Proof.
  destruct (getAllContributors "octocat/hello" true (repoEnv 120 AvatarFail) emptyWorld)
    as [[r w'] t] eqn:Hrun.
  assert (exists ps, r = Ok ps /\ length ps = 120
                     /\ length (list_requests t) = 3
                     /\ length (avatar_requests t) = 50) as (ps & -> & Hl & Hq & Ha).
  { vm_compute in Hrun. injection Hrun as <- _ <-. eexists. repeat split. }
  destruct (unbounded_fetch_result "octocat/hello" true (repoEnv 120 AvatarFail)
              emptyWorld ps w' t) as (k & Hk & Hreq & _ & _ & _ & _ & _ & Hcalls).
  - intros entry He. vm_compute in He. discriminate.
  - exact Hrun.
  - exists ps, w', t. split; [reflexivity|]. split; [exact Hl|]. split; [exact Hq|].
    split; [exact Ha|]. rewrite Hcalls, Ha.
    rewrite Hreq, length_page_requests in Hq. subst k. reflexivity.
Defined.


(* ===================================================================== *)
(** * Requests that do without avatars                                     *)
(* ===================================================================== *)

Lemma plain_fetchPages repo page acc :
  emits (fun ev => is_avatar_fetch ev = false) (fetchPages repo page acc).
Proof.
  funelim (fetchPages repo page acc).
  apply emits_bind; [intros env w; repeat constructor|]. intros response.
  destruct (length response =? 0).
  - destruct (100 <? page); [apply emits_ret|].
    apply emits_bind; [apply emits_emit; reflexivity|]. intros _. apply emits_ret.
  - destruct (lt_dec 100 (page + 1)); [apply emits_ret|].
    apply emits_bind; [apply emits_emit; reflexivity|]. intros u env w.
    match goal with IH : forall r, _ -> unit -> Env -> World -> _ |- _ =>
      exact (IH response n u env w env w) end.
Qed.

Lemma plain_processBatches all i acc :
  emits (fun ev => is_avatar_fetch ev = false) (processBatches false all i acc).
Proof.
  funelim (processBatches false all i acc).
  destruct (lt_dec i (length allContributors)); [|apply emits_ret].
  apply emits_bind.
  - apply emits_map_async. intros c j. unfold process_batch_item. cbn [andb].
    apply emits_bind; [apply emits_ret|]. intros a. apply emits_ret.
  - intros pb env w.
    match goal with IH : forall _ : _ < _, _ |- _ =>
      exact (IH l pb env w env w) end.
Qed.

Lemma plain_rethrow {A} e : emits (fun ev => is_avatar_fetch ev = false) (@rethrow_upstream A e).
Proof.
  unfold rethrow_upstream.
  repeat match goal with |- context [if ?b then _ else _] => destruct b end;
    apply emits_throw.
Qed.

(** A fetcher called with [includeAvatars = false] never asks the avatar
    host. *)
Lemma plain_fetcher kind repo :
  emits (fun ev => is_avatar_fetch ev = false) (fetcher kind repo false).
Proof.
  destruct kind as [limit|]; cbn [fetcher].
  - unfold getContributors.
    assert (Hf : emits (fun ev => is_avatar_fetch ev = false)
                       (fetchContributors repo limit false)).
    { apply emits_try_catch; [|intros; apply plain_rethrow].
      apply emits_bind; [intros env w; repeat constructor|]. intros response.
      apply emits_bind.
      { apply emits_map_async. intros c j. unfold process_contributor.
        apply emits_bind; [apply emits_ret|]. intros a. apply emits_ret. }
      intros l. apply emits_bind; [apply emits_date_now|]. intros t.
      apply emits_bind; [intros env w; repeat constructor|]. intros _. apply emits_ret. }
    apply emits_bind; [intros env w; repeat constructor|]. intros [entry|]; [|exact Hf].
    apply emits_bind; [apply emits_date_now|]. intros t.
    destruct (freshEntry entry t); [apply emits_ret|exact Hf].
  - unfold getAllContributors.
    assert (Hf : emits (fun ev => is_avatar_fetch ev = false)
                       (fetchAllContributors repo false)).
    { apply emits_try_catch; [|intros; apply plain_rethrow].
      apply emits_bind; [apply plain_fetchPages|]. intros response.
      apply emits_bind; [apply plain_processBatches|].
      intros l. apply emits_bind; [apply emits_date_now|]. intros t.
      apply emits_bind; [intros env w; repeat constructor|]. intros _. apply emits_ret. }
    apply emits_bind; [intros env w; repeat constructor|]. intros [entry|]; [|exact Hf].
    apply emits_bind; [apply emits_date_now|]. intros t.
    destruct (freshEntry entry t); [apply emits_ret|exact Hf].
Qed.

Lemma plain_afterFetch e q kind l :
  emits (fun ev => is_avatar_fetch ev = false) (afterFetch e q kind l).
Proof.
  intros env w. destruct e; unfold afterFetch;
    repeat match goal with |- context [if ?b then _ else _] => destruct b end;
    repeat constructor.
Qed.

Lemma plain_catchOf e err : emits (fun ev => is_avatar_fetch ev = false) (catchOf e err).
Proof.
  intros env w. destruct (catchOf_run e err) as (resp & Hr & _). rewrite Hr. constructor.
Qed.

(** The avatars flag of a validated query, as the handlers compute it. *)
Lemma fetcherOf_avatars e q kind incl :
  fetcherOf e q = Some (kind, incl) ->
  incl = match e with
         | EBadge | EBadgeAll => negb (String.eqb (default "true" (q_avatars q)) "false")
         | EBadgeFast | EStats => false
         end.
Proof.
  unfold fetcherOf. intros Hf.
  destruct (negb _ || _); [discriminate|].
  destruct e.
  - destruct (negb _ || _); [discriminate|].
    destruct (String.eqb _ "all"); [congruence|].
    destruct (checkLimit _); congruence.
  - congruence.
  - destruct (String.eqb _ "all"); [congruence|].
    destruct (checkLimit _); congruence.
  - congruence.
Qed.

(** X9. [/badge/fast] and [/stats], and [/badge] and [/badge/all] called
    with [avatars=false], never ask the avatar host, whatever the cache
    holds and whatever upstream answers. *)
Theorem no_avatar_traffic e q env w :
  e = EBadgeFast \/ e = EStats \/ q_avatars q = Some "false" ->
  avatar_requests (trace_of (handle e q env w)) = [].
Proof.
  intros Hc. apply avatar_requests_none.
  destruct (fetcherOf e q) as [[kind incl]|] eqn:Hf.
  2: { destruct (handle_rejected _ _ Hf) as [msg Hr]. rewrite Hr. constructor. }
  assert (incl = false) as ->.
  { rewrite (fetcherOf_avatars _ _ _ _ Hf).
    destruct e; try reflexivity; destruct Hc as [|[|Hq]]; try discriminate;
      rewrite Hq; reflexivity. }
  rewrite (handle_anatomy _ _ _ _ Hf).
  apply emits_try_catch; [|intros; apply plain_catchOf].
  apply emits_bind; [apply plain_fetcher|]. intros l. apply plain_afterFetch.
Qed.

Lemma no_avatar_traffic_witness :
  avatar_requests
    (trace_of (handle EBadgeFast (query "octocat/hello" "all" "grid")
                 (repoEnv 120 AvatarFail) emptyWorld)) = [].
Proof. apply no_avatar_traffic. left. reflexivity. Defined.

(* ===================================================================== *)
(** * The shape of the answers                                             *)
(* ===================================================================== *)

(** An answer as the handlers build them: the status tells the body apart,
    and only a badge carries a [Cache-Control] header. *)
Lemma catchOf_shape e err :
  exists code msg,
    (forall env w, catchOf e err env w
                   = (Ok {| status := code; body := ErrorJson msg; cache_control := None |},
                      w, []))
    /\ In code [404; 429; 401; 500].
Proof.
  destruct e; cbn [catchOf];
    unfold badgeCatch, badgeAllCatch, badgeFastCatch, statsCatch;
    repeat match goal with |- context [if ?b then _ else _] => destruct b end;
    eexists _, _; (split; [intros; reflexivity | cbn; tauto]).
Qed.


(* ===================================================================== *)
(** * The repository endpoint                                              *)
(* ===================================================================== *)

(** X11. [/repo-info] with a non-empty identifier, well formed or not,
    makes exactly one upstream request and never looks at or changes the
    cache.  It answers 200 with the repository data when upstream answers,
    404 when upstream says 404, and 500 for every other failure: a rate
    limit (403) or a rejected token (401) is reported as 500 here. *)
Theorem repo_info_outcome q env w repo :
  q_repo q = Some repo -> repo <> EmptyString ->
  exists resp,
    repoInfo q env w = (Ok resp, count_call w, [EvRepoFetch repo])
    /\ cache_control resp = None
    /\ match repo_api env (api_calls w) repo with
       | RepoOk info => status resp = 200 /\ body resp = RepoJson info
       | RepoFail st =>
           status resp = (if decide (st = Some 404) then 404 else 500)
           /\ exists msg, body resp = ErrorJson msg
       end.
Proof.
  intros Hq Hne. unfold repoInfo. rewrite Hq.
  destruct repo as [|a s]; [congruence|]. cbn [Js.truthy negb from_option id].
  unfold try_catch, bind, axios_repo.
  destruct (repo_api env (api_calls w) (String a s)) as [info|st].
  - eexists. split; [reflexivity|]. cbn. auto.
  - unfold status_is. cbn [response_status].
    destruct st as [st|].
    + destruct (st =? 404) eqn:E.
      * apply Nat.eqb_eq in E. subst st.
        eexists. split; [reflexivity|]. cbn. split; [reflexivity|].
        split; [reflexivity | eauto].
      * apply Nat.eqb_neq in E.
        eexists. split; [reflexivity|]. cbn. split; [reflexivity|].
        destruct (decide (Some st = Some 404)) as [Heq|_]; [congruence|]. eauto.
    + eexists. split; [reflexivity|]. cbn. split; [reflexivity|]. eauto.
Qed.

Lemma repo_info_outcome_witness :
  exists resp,
    repoInfo (query "no-slash-here" "10" "grid")
             {| now := fun _ => 0%Z;
                contributors_api := fun _ _ _ _ => ListFail None;
                avatar_api := fun _ _ => AvatarFail;
                repo_api := fun _ _ => RepoFail (Some 403) |} emptyWorld
    = (Ok resp, count_call emptyWorld, [EvRepoFetch "no-slash-here"])
    /\ status resp = 500.
Proof.
  destruct (repo_info_outcome (query "no-slash-here" "10" "grid")
              {| now := fun _ => 0%Z;
                 contributors_api := fun _ _ _ _ => ListFail None;
                 avatar_api := fun _ _ => AvatarFail;
                 repo_api := fun _ _ => RepoFail (Some 403) |} emptyWorld "no-slash-here")
    as (resp & Hrun & _ & Hst & _).
  - reflexivity.
  - discriminate.
  - exists resp. split; [exact Hrun | exact Hst].
Defined.

(* ===================================================================== *)
(** * Repeated requests                                                    *)
(* ===================================================================== *)

(** X12. When a badge endpoint has answered 200, the same request sent
    again while the stored entry is less than five minutes old gets the
    same answer, and the handler makes no upstream request at all: it reads
    the cache and the clock once and invokes the renderer. *)
Theorem repeated_request_served_from_cache e q kind incl env w resp w1 t1 :
  is_badge e = true ->
  fetcherOf e q = Some (kind, incl) ->
  handle e q env w = (Ok resp, w1, t1) ->
  status resp = 200 ->
  (forall entry,
      cache w1 !! cacheKey kind (default EmptyString (q_repo q)) incl = Some entry ->
      (now env (clock_reads w1) - timestamp entry < CACHE_DURATION)%Z) ->
  exists n style theme,
    handle e q env w1
    = (Ok resp, tick w1,
       [EvCacheGet (cacheKey kind (default EmptyString (q_repo q)) incl);
        EvRender n style theme]).
Proof.
  intros Hb Hf Hrun Hst Hwin.
  pose proof (handle_run _ _ _ _ Hf Hb env w) as H1.
  destruct (fetcher kind _ incl env w) as [[[l|err] w1'] t1'] eqn:Hfetch.
  - destruct (length l =? 0) eqn:Hl; rewrite H1 in Hrun; injection Hrun as <- <- <-;
      [discriminate Hst|].
    destruct (second_fetch_within_window _ _ _ _ _ _ _ _ Hfetch) as (ts & Hts & Hagain).
    specialize (Hagain (Hwin _ Hts)).
    pose proof (handle_run _ _ _ _ Hf Hb env w1') as H2.
    rewrite Hagain, Hl in H2. eexists _, _, _. exact H2.
  - destruct H1 as (resp' & Hr & Hs & _). rewrite Hr in Hrun.
    injection Hrun as <- <- <-. rewrite Hst in Hs. cbn in Hs.
    repeat destruct Hs as [Hs|Hs]; try discriminate. destruct Hs.
Qed.

Lemma repeated_request_served_from_cache_witness :
  exists resp w1 t1 n style theme,
    handle EBadge (query "octocat/hello" "5" "grid") (repoEnv 5 AvatarFail) emptyWorld
    = (Ok resp, w1, t1)
    /\ handle EBadge (query "octocat/hello" "5" "grid") (repoEnv 5 AvatarFail) w1
       = (Ok resp, tick w1,
          [EvCacheGet (cacheKey (Bounded 5) "octocat/hello" true); EvRender n style theme]).
Proof.
  destruct (handle EBadge (query "octocat/hello" "5" "grid") (repoEnv 5 AvatarFail)
              emptyWorld) as [[r w1] t1] eqn:Hrun.
  assert (exists resp, r = Ok resp /\ status resp = 200
                       /\ forall entry,
                            cache w1 !! cacheKey (Bounded 5) "octocat/hello" true
                            = Some entry ->
                            (now (repoEnv 5 AvatarFail) (clock_reads w1) - timestamp entry
                             < CACHE_DURATION)%Z) as (resp & -> & Hst & Hwin).
  { vm_compute in Hrun. injection Hrun as <- <- _.
    eexists. split; [reflexivity|]. split; [reflexivity|].
    intros entry He. vm_compute in He. injection He as <-. vm_compute. reflexivity. }
  destruct (repeated_request_served_from_cache EBadge (query "octocat/hello" "5" "grid")
              (Bounded 5) true (repoEnv 5 AvatarFail) emptyWorld resp w1 t1
              eq_refl eq_refl Hrun Hst Hwin) as (n & style & theme & Hagain).
  exists resp, w1, t1, n, style, theme. split; [reflexivity | exact Hagain].
Defined.

(* ===================================================================== *)
(** * What a handler asks of upstream                                      *)
(* ===================================================================== *)

(** The listing requests of a handler are those of its fetcher. *)
Lemma handle_list_requests e q kind incl env w :
  fetcherOf e q = Some (kind, incl) ->
  list_requests (trace_of (handle e q env w))
  = list_requests (trace_of (fetcher kind (default EmptyString (q_repo q)) incl env w)).
Proof.
  intros Hf. rewrite (handle_anatomy _ _ _ _ Hf). unfold try_catch, bind, trace_of.
  destruct (fetcher kind _ incl env w) as [[[l|err] w1] t1]; cbn [fst snd].
  - assert (exists resp w2 t2,
               afterFetch e q kind l env w1 = (Ok resp, w2, t2) /\ list_requests t2 = [])
      as (resp & w2 & t2 & -> & Hnone).
    { destruct e; unfold afterFetch;
        repeat match goal with |- context [if ?b then _ else _] => destruct b end;
        eexists _, _, _; split; reflexivity. }
    cbn [fst snd]. now rewrite list_requests_app, Hnone, app_nil_r.
  - destruct (catchOf_run e err) as (resp & Hr & _). rewrite Hr. cbn [snd].
    now rewrite app_nil_r.
Qed.



(* ===================================================================== *)
(** * The statistics endpoint                                              *)
(* ===================================================================== *)

Lemma reduce_sum (f : Contributor -> nat) l a :
  foldl (fun sum c => sum + f c) a l = a + list_sum (map f l).
Proof.
  revert a. induction l as [|c l IH]; intros a; cbn [foldl]; [cbn; lia|].
  rewrite IH. cbn [map]. unfold list_sum. cbn [fold_right]. lia.
Qed.

(** X14. When the cache cannot serve the key and [/stats] answers 200, the
    totals are those of upstream: the number of items on the pages that
    were fetched and the sum of their contribution counts, and the top
    list is made of the first ten items, in upstream order.  No avatar is
    requested. *)
Theorem stats_totals q repo env w resp w' t :
  q_repo q = Some repo ->
  needs_fetch env w (allKey repo false) ->
  stats q env w = (Ok resp, w', t) ->
  status resp = 200 ->
  exists k top stamp,
    1 <= k <= 100
    /\ list_requests t = page_requests repo 1 k
    /\ avatar_requests t = []
    /\ body resp
       = StatsJson repo
           (length (collected env repo (api_calls w) 1 k))
           (list_sum (map raw_contributions (collected env repo (api_calls w) 1 k)))
           top stamp
    /\ map login top = map raw_login (take 10 (collected env repo (api_calls w) 1 k))
    /\ map contributions top
       = map raw_contributions (take 10 (collected env repo (api_calls w) 1 k)).
Proof.
  intros Hq Hneed Hrun Hst.
  destruct (fetcherOf EStats q) as [[kind incl]|] eqn:Hf.
  2: { destruct (handle_rejected _ _ Hf) as [msg Hr]. cbn [handle] in Hr.
       rewrite Hr in Hrun. injection Hrun as <- _ _. discriminate Hst. }
  assert (kind = Unbounded /\ incl = false) as [-> ->].
  { unfold fetcherOf in Hf. destruct (negb _ || _); [discriminate|].
    injection Hf as <- <-. auto. }
  pose proof (handle_anatomy _ _ _ _ Hf env w) as Han. cbn [handle] in Han.
  rewrite Han in Hrun. rewrite Hq in Hrun. cbn [from_option id fetcher] in Hrun.
  unfold try_catch in Hrun. unfold bind at 1 in Hrun.
  destruct (getAllContributors repo false env w) as [[[l|err] w1] t1] eqn:Hfetch.
  2: { destruct (catchOf_shape EStats err) as (code & msg & Hr & Hs).
       rewrite Hr in Hrun. injection Hrun as <- _ _. cbn in Hst, Hs. subst code.
       repeat destruct Hs as [Hs|Hs]; try discriminate. destruct Hs. }
  destruct (unbounded_fetch_built _ _ _ _ _ _ _ Hneed Hfetch)
    as (k & tp & tss & Hk & Hreq & Hnoav & Hrel & -> & _).
  cbn in Hrun. injection Hrun as <- _ <-.
  destruct (built_fields _ _ _ _ _ Hrel) as (F1 & _ & _ & F4 & _).
  destruct (rel_from_length _ _ _ _ _ Hrel) as [Hlen _].
  pose proof (built_requests_first_fifty _ _ _ _ _ Hrel) as Hav. cbn beta iota in Hav.
  exists k, (take 10 l), (now env (clock_reads w1)).
  split; [exact Hk|]. split; [|split; [|split; [|split]]].
  - rewrite app_nil_r.
    change (list_requests
              ([EvCacheGet (allKey repo false)]
               ++ tp ++ concat tss ++ [EvCacheSet (allKey repo false)])
            = page_requests repo 1 k).
    rewrite !list_requests_app, Hreq, Hav. cbn. now rewrite app_nil_r.
  - rewrite app_nil_r.
    change (avatar_requests (tp ++ concat tss ++ [EvCacheSet (allKey repo false)]) = []).
    rewrite !avatar_requests_app, Hnoav, Hav. reflexivity.
  - cbn [body]. rewrite reduce_sum, F4, Hlen, Hq. reflexivity.
  - rewrite <- !List.firstn_map, F1. reflexivity.
  - rewrite <- !List.firstn_map, F4. reflexivity.
Qed.

Lemma stats_totals_witness :
  exists resp w' t top stamp,
    stats (query "octocat/hello" "10" "grid") (repoEnv 120 AvatarFail) emptyWorld
    = (Ok resp, w', t)
    /\ body resp = StatsJson "octocat/hello" 120 (list_sum (map (fun k => 100 - k) (seq 0 120)))
                     top stamp
    /\ map login top = map raw_login (sampleList 10).
Proof.
  destruct (stats (query "octocat/hello" "10" "grid") (repoEnv 120 AvatarFail) emptyWorld)
    as [[r w'] t] eqn:Hrun.
  assert (exists resp, r = Ok resp /\ status resp = 200
                       /\ length (list_requests t) = 3) as (resp & -> & Hst & Hq).
  { vm_compute in Hrun. injection Hrun as <- _ <-. eexists. repeat split. }
  destruct (stats_totals (query "octocat/hello" "10" "grid") "octocat/hello"
              (repoEnv 120 AvatarFail) emptyWorld resp w' t)
    as (k & top & stamp & Hk & Hreq & _ & Hbody & Hlogin & _).
  - reflexivity.
  - intros entry He. vm_compute in He. discriminate.
  - exact Hrun.
  - exact Hst.
  - rewrite Hreq, length_page_requests in Hq. subst k.
    exists resp, w', t, top, stamp. split; [reflexivity|].
    split; [rewrite Hbody; vm_compute; reflexivity | rewrite Hlogin; vm_compute; reflexivity].
Defined.

(* ===================================================================== *)
(** * Cache keys                                                           *)
(* ===================================================================== *)





Lemma of_nat_not_all n : Js.of_nat n <> "all".
Proof.
  unfold Js.of_nat. intros H.
  apply (f_equal NilEmpty.uint_of_string) in H. rewrite NilEmpty.usu in H. discriminate H.
Qed.



Lemma append_assoc a b c : (a +:+ b) +:+ c = a +:+ (b +:+ c).
Proof.
  induction a as [|x a IH]; [reflexivity|].
  change (String x ((a +:+ b) +:+ c) = String x (a +:+ (b +:+ c))). now rewrite IH.
Qed.







(* ===================================================================== *)
(** * The cache over a request                                             *)
(* ===================================================================== *)

(** The cache after a handler is the cache after its fetcher. *)
Lemma handle_cache e q kind incl env w :
  fetcherOf e q = Some (kind, incl) ->
  cache (world_of (handle e q env w))
  = cache (world_of (fetcher kind (default EmptyString (q_repo q)) incl env w)).
Proof.
  intros Hf. rewrite (handle_anatomy _ _ _ _ Hf). unfold try_catch, bind, world_of.
  destruct (fetcher kind _ incl env w) as [[[l|err] w1] t1]; cbn [fst snd].
  - assert (exists resp w2 t2,
               afterFetch e q kind l env w1 = (Ok resp, w2, t2) /\ cache w2 = cache w1)
      as (resp & w2 & t2 & -> & Hsame).
    { destruct e; unfold afterFetch;
        repeat match goal with |- context [if ?b then _ else _] => destruct b end;
        eexists _, _, _; split; reflexivity. }
    exact Hsame.
  - destruct (catchOf_run e err) as (resp & Hr & _). rewrite Hr. reflexivity.
Qed.

(** The cache after a fetcher: the one before, or the one before with the
    fetcher's key set. *)
Lemma fetcher_cache kind repo incl env w :
  cache (world_of (fetcher kind repo incl env w)) = cache w
  \/ exists entry,
       cache (world_of (fetcher kind repo incl env w))
       = <[cacheKey kind repo incl := entry]> (cache w).
Proof.
  destruct (cache w !! cacheKey kind repo incl) as [entry|] eqn:Hc.
  - destruct (freshEntry entry (now env (clock_reads w))) eqn:Hf.
    + left. rewrite (fetcher_hit _ _ _ _ _ _ Hc Hf). reflexivity.
    + destruct (fetcher_fetches kind repo incl env w) as (r & a' & t & n & Hrun & _).
      { intros entry' He. congruence. }
      rewrite Hrun. unfold world_of. cbn [fst snd].
      destruct r; cbn [after_fetch cache]; eauto.
  - destruct (fetcher_fetches kind repo incl env w) as (r & a' & t & n & Hrun & _).
    { intros entry' He. congruence. }
    rewrite Hrun. unfold world_of. cbn [fst snd].
    destruct r; cbn [after_fetch cache]; eauto.
Qed.

(** X16. The request handlers never evict: every key present in the cache
    before a request is present after it, and a request adds at most one
    entry.  (Only [/clear-cache] and [/webhook/invalidate] remove entries.) *)
Theorem cache_only_grows e q env w key :
  is_Some (cache w !! key) ->
  is_Some (cache (world_of (handle e q env w)) !! key)
  /\ size (cache w) <= size (cache (world_of (handle e q env w))) <= S (size (cache w)).
Proof.
  intros Hin.
  destruct (fetcherOf e q) as [[kind incl]|] eqn:Hf.
  2: { destruct (handle_rejected _ _ Hf) as [msg Hr]. rewrite Hr.
       unfold world_of. cbn [fst snd]. split; [exact Hin | lia]. }
  rewrite (handle_cache _ _ _ _ env w Hf).
  destruct (fetcher_cache kind (default EmptyString (q_repo q)) incl env w)
    as [->|[entry ->]]; [split; [exact Hin | lia]|].
  split.
  - destruct (decide (key = cacheKey kind (default EmptyString (q_repo q)) incl)) as [->|Hne].
    + rewrite lookup_insert_eq. eauto.
    + rewrite lookup_insert_ne by congruence. exact Hin.
  - rewrite map_size_insert.
    destruct (cache w !! cacheKey kind _ incl); unfold id; lia.
Qed.

Lemma cache_only_grows_witness :
  is_Some (cache (world_of (handle EBadgeFast (query "octocat/hello" "5" "grid")
                              (repoEnv 5 AvatarFail)
                              (cachedWorld "other/repo-all-true" (data_of 2) 0 0)))
             !! "other/repo-all-true").
Proof.
  apply (cache_only_grows EBadgeFast (query "octocat/hello" "5" "grid")
           (repoEnv 5 AvatarFail) (cachedWorld "other/repo-all-true" (data_of 2) 0 0)
           "other/repo-all-true").
  exists {| data := data_of 2; timestamp := 0 |}. apply lookup_insert_eq.
Defined.

(* ===================================================================== *)
(** * Clearing and invalidating the cache                                  *)
(* ===================================================================== *)

(** X17. [/clear-cache] reports the number of entries the cache held and
    leaves it empty, so that the next fetch of any kind, for any
    repository, asks upstream. *)
Theorem clear_cache_forces_refetch kind repo incl env w :
  exists stamp w',
    clearCache env w
    = (Ok {| admin_status := 200;
             admin_body := ClearedJson "Cache cleared successfully" (size (cache w)) stamp |},
       w', [])
    /\ cache w' = ∅
    /\ one_fetch kind repo (list_requests (trace_of (fetcher kind repo incl env w'))).
Proof.
  eexists _, _. split; [reflexivity|]. split; [reflexivity|].
  match goal with |- context [fetcher _ _ _ _ ?w0] =>
    destruct (fetcher_fetches kind repo incl env w0) as (r & a' & t & n & Hrun & _ & Hone & _)
  end.
  - intros entry He. cbn [cache] in He. rewrite lookup_empty in He. discriminate He.
  - rewrite Hrun. exact Hone.
Qed.

Lemma startsWith_append p s : startsWith (p +:+ s) p = true.
Proof.
  induction p as [|a p IH]; [reflexivity|].
  change (String a p +:+ s) with (String a (p +:+ s)). cbn [startsWith].
  now rewrite Ascii.eqb_refl, IH.
Qed.

Lemma startsWith_cacheKey kind repo suffix incl :
  startsWith (cacheKey kind (repo +:+ suffix) incl) repo = true.
Proof.
  destruct kind as [limit|]; cbn [cacheKey]; unfold contributorsKey, allKey;
    rewrite append_assoc; apply startsWith_append.
Qed.

Lemma forEach_delete_run keys env w :
  forEach cache_delete keys env w
  = (Ok tt,
     {| cache := foldl (fun m key => delete key m) (cache w) keys;
        clock_reads := clock_reads w; api_calls := api_calls w |},
     []).
Proof.
  revert w. induction keys as [|key keys IH]; intros w; cbn [forEach foldl].
  - unfold ret. now rewrite <- world_eta.
  - unfold bind, cache_delete. rewrite IH. reflexivity.
Qed.

Lemma lookup_deleted (m : gmap string CacheEntry) keys key :
  foldl (fun m key => delete key m) m keys !! key
  = if decide (key ∈ keys) then None else m !! key.
Proof.
  revert m. induction keys as [|k keys IH]; intros m; cbn [foldl].
  - destruct (decide (key ∈ [])) as [Hin|_]; [inversion Hin | reflexivity].
  - rewrite IH. destruct (decide (key ∈ keys)) as [Hin|Hout].
    + destruct (decide (key ∈ k :: keys)) as [_|Hno]; [reflexivity|].
      destruct Hno. now right.
    + destruct (decide (k = key)) as [->|Hne].
      * rewrite lookup_delete_eq. destruct (decide (key ∈ key :: keys)) as [_|Hno];
          [reflexivity|]. destruct Hno. now left.
      * rewrite lookup_delete_ne by exact Hne.
        destruct (decide (key ∈ k :: keys)) as [Hin|_]; [|reflexivity].
        apply elem_of_cons in Hin. destruct Hin as [->|Hin]; [congruence|contradiction].
Qed.

Lemma size_deleted (m : gmap string CacheEntry) keys :
  List.NoDup keys -> (forall key, In key keys -> is_Some (m !! key)) ->
  length keys + size (foldl (fun m key => delete key m) m keys) = size m.
Proof.
  revert m. induction keys as [|k keys IH]; intros m Hnd Hin; cbn [foldl length]; [lia|].
  apply List.NoDup_cons_iff in Hnd. destruct Hnd as [Hk Hnd].
  destruct (Hin k (or_introl eq_refl)) as [entry He].
  assert (Hs : size m = S (size (delete k m))).
  { rewrite map_size_delete, He.
    assert (size m <> 0) by (intros H0; apply map_size_empty_inv in H0; subst m;
                             rewrite lookup_empty in He; discriminate He).
    lia. }
  assert (Hrest : length keys + size (foldl (fun m key => delete key m) (delete k m) keys)
                  = size (delete k m)).
  { apply IH; [exact Hnd|]. intros key Hkey.
    rewrite lookup_delete_ne; [apply Hin; now right|]. intros ->. contradiction. }
  lia.
Qed.

Lemma cache_keys_spec (m : gmap string CacheEntry) key :
  In key (map fst (map_to_list m)) <-> is_Some (m !! key).
Proof.
  rewrite List.in_map_iff. split.
  - intros ([k v] & <- & H). apply list_elem_of_In, elem_of_map_to_list in H. cbn. eauto.
  - intros [v Hv]. exists (key, v). split; [reflexivity|].
    now apply list_elem_of_In, elem_of_map_to_list.
Qed.

Lemma cache_keys_NoDup (m : gmap string CacheEntry) : List.NoDup (map fst (map_to_list m)).
Proof. apply NoDup_ListNoDup. exact (NoDup_fst_map_to_list m). Qed.

(** X18. [/webhook/invalidate], given a body with a non-empty [repo],
    removes exactly the entries whose key starts with that string and
    reports how many they were; the other entries stay.  Every entry of the
    repository goes, of whatever kind, limit and avatars flag, and so does
    every entry of a repository whose name merely begins with the same
    characters: the next fetch for any of them asks upstream. *)
Theorem webhook_invalidates_by_prefix repo env w :
  repo <> EmptyString ->
  exists n stamp w',
    webhookInvalidate (Some (Some repo)) env w
    = (Ok {| admin_status := 200;
             admin_body := InvalidatedJson "Cache invalidated successfully" repo n stamp |},
       w', [])
    /\ (forall key,
          cache w' !! key = if startsWith key repo then None else cache w !! key)
    /\ n + size (cache w') = size (cache w)
    /\ (forall kind suffix incl env',
          needs_fetch env' w' (cacheKey kind (repo +:+ suffix) incl)).
Proof.
  intros Hne. unfold webhookInvalidate.
  destruct repo as [|a s]; [congruence|]. cbn [Js.truthy negb from_option id].
  set (repo := String a s).
  set (keysToDelete := List.filter (fun key => startsWith key repo)
                                   (map fst (map_to_list (cache w)))).
  assert (Hlookup : forall key,
             foldl (fun m key => delete key m) (cache w) keysToDelete !! key
             = if startsWith key repo then None else cache w !! key).
  { intros key. rewrite lookup_deleted.
    destruct (decide (key ∈ keysToDelete)) as [Hin|Hout].
    - apply list_elem_of_In, List.filter_In in Hin. destruct Hin as [_ ->]. reflexivity.
    - destruct (startsWith key repo) eqn:Hs; [|reflexivity].
      destruct (cache w !! key) as [entry|] eqn:He; [|reflexivity].
      destruct Hout. apply list_elem_of_In, List.filter_In. split; [|exact Hs].
      apply cache_keys_spec. eauto. }
  eexists (length keysToDelete), _, _. split; [|split; [|split]].
  - unfold bind at 1, cache_keys. fold keysToDelete.
    unfold bind at 1. rewrite forEach_delete_run. reflexivity.
  - exact Hlookup.
  - cbn [cache]. apply size_deleted.
    + apply List.NoDup_filter, cache_keys_NoDup.
    + intros key Hin. apply List.filter_In in Hin. apply cache_keys_spec, Hin.
  - intros kind suffix incl env' entry He. cbn [cache] in He.
    rewrite Hlookup, startsWith_cacheKey in He. discriminate He.
Qed.

Lemma webhook_invalidates_by_prefix_witness :
  exists n stamp w',
    webhookInvalidate (Some (Some "a/b")) (repoEnv 3 AvatarFail)
      (cachedWorld (cacheKey (Bounded 5) "a/bc" true) (data_of 2) 0 0)
    = (Ok {| admin_status := 200;
             admin_body := InvalidatedJson "Cache invalidated successfully" "a/b" n stamp |},
       w', [])
    /\ n + size (cache w') = 1
    /\ cache w' !! cacheKey (Bounded 5) "a/bc" true = None.
Proof.
  destruct (webhook_invalidates_by_prefix "a/b" (repoEnv 3 AvatarFail)
              (cachedWorld (cacheKey (Bounded 5) "a/bc" true) (data_of 2) 0 0))
    as (n & stamp & w' & Hrun & Hlookup & Hsize & _).
  - discriminate.
  - exists n, stamp, w'. split; [exact Hrun|]. split.
    + rewrite Hsize. unfold cachedWorld. cbn [cache].
      rewrite map_size_insert_None by apply lookup_empty. now rewrite map_size_empty.
    + rewrite Hlookup. reflexivity.
Defined.

(* ===================================================================== *)
(** * The report of the batch endpoint                                     *)
(* ===================================================================== *)

Lemma imap_labels {A B} (g : option string -> A -> B) (h : B -> option string)
    (repositories : list string) (items : list A) :
  (forall o a, h (g o a) = o) ->
  length items <= length repositories ->
  map h (imap (fun index a => g (repositories !! index) a) items)
  = map Some (take (length items) repositories).
Proof.
  intros Hh. revert repositories.
  induction items as [|a items IH]; intros repositories Hlen; [reflexivity|].
  destruct repositories as [|r repositories]; [cbn in Hlen; lia|].
  cbn [imap map length take]. rewrite Hh. cbn [lookup list_lookup]. f_equal.
  rewrite <- (IH repositories) by (cbn in Hlen; lia).
  f_equal.
Qed.

Lemma settled_count {A} (results : list (Settled A)) repositories :
  length (batchSuccessful results) + length (batchFailed repositories results)
  = length results.
Proof.
  unfold batchSuccessful, batchFailed. rewrite length_imap.
  induction results as [|[v|reason] results IH]; cbn [omap list_omap length] in *; lia.
Qed.

(** X19. In the report of [/batch] the successful and the failed entries
    together are as many as the repositories of the request, but a failed
    entry is named by its position among the failures: the failed list
    names the first k repositories of the request, k being the number of
    failures, whichever repositories failed. *)
Theorem batch_failures_named_by_position {A} repositories (results : list (Settled A)) :
  length results = length repositories ->
  length (batchSuccessful results) + length (batchFailed repositories results)
  = length repositories
  /\ map failed_repository (batchFailed repositories results)
     = map Some (take (length (batchFailed repositories results)) repositories).
Proof.
  intros Hlen. pose proof (settled_count results repositories) as Hcount.
  split; [lia|].
  unfold batchFailed at 1.
  rewrite (imap_labels (fun o reason => {| failed_repository := o;
                                           failed_error := message reason |})
                       failed_repository).
  - unfold batchFailed. now rewrite length_imap.
  - reflexivity.
  - unfold batchFailed in Hcount. rewrite length_imap in Hcount. lia.
Qed.

Lemma batch_failures_named_by_position_witness :
  map failed_repository
      (batchFailed ["good/repo"; "bad/repo"]
                   [Fulfilled 5; Rejected (Error "Repository not found")])
  = [Some "good/repo"].
Proof.
  destruct (batch_failures_named_by_position ["good/repo"; "bad/repo"]
              [Fulfilled 5; Rejected (Error "Repository not found")] eq_refl)
    as [_ H].
  rewrite H. reflexivity.
Defined.

(* ===================================================================== *)
(** * Limits written in decimal                                            *)
(* ===================================================================== *)

Lemma decimal_limits_read_back n :
  1 <= n <= 100 -> checkLimit (Js.parseInt (Js.of_nat n)) = Some n.
Proof.
  intros Hn.
  assert (Hall : forallb (fun m => match checkLimit (Js.parseInt (Js.of_nat m)) with
                                   | Some v => v =? m
                                   | None => false
                                   end) (seq 1 100) = true) by (vm_compute; reflexivity).
  rewrite forallb_forall in Hall. specialize (Hall n).
  destruct (checkLimit _) as [v|].
  - f_equal. apply Nat.eqb_eq, Hall, in_seq. lia.
  - discriminate Hall. apply in_seq. lia.
Qed.

(** X20. A limit between 1 and 100 written in decimal passes the check of
    [/badge] and [/badge/fast] as the number it denotes: with the other
    parameters valid the request is not answered 400, and when the cache
    cannot serve it the handler asks upstream once, for exactly that many
    contributors. *)
Theorem decimal_limit_is_fetched e q n env w :
  e = EBadge \/ e = EBadgeFast ->
  1 <= n <= 100 ->
  Js.truthy (q_repo q) = true ->
  Js.count "/" (default EmptyString (q_repo q)) = 1 ->
  str_in (default "horizontal" (q_style q)) ["horizontal"; "grid"] = true ->
  str_in (default "light" (q_theme q)) ["light"; "dark"] = true ->
  exists incl resp,
    result_of (handle e (with_limit q (Js.of_nat n)) env w) = Ok resp
    /\ status resp <> 400
    /\ (needs_fetch env w (contributorsKey (default EmptyString (q_repo q)) n incl) ->
        list_requests (trace_of (handle e (with_limit q (Js.of_nat n)) env w))
        = [EvListContributors (default EmptyString (q_repo q)) n None]).
Proof.
  intros He Hn Hrepo Hcount Hs Ht.
  assert (exists incl, fetcherOf e (with_limit q (Js.of_nat n)) = Some (Bounded n, incl))
    as [incl Hf].
  { unfold fetcherOf, with_limit. cbn [q_repo q_limit q_style q_theme q_avatars from_option id].
    rewrite Hrepo, badRepoFormat_count, Hcount, Hs, Ht.
    assert (String.eqb (Js.of_nat n) "all" = false) as ->
      by (apply String.eqb_neq, of_nat_not_all).
    rewrite (decimal_limits_read_back n Hn).
    destruct He as [-> | ->]; eexists; reflexivity. }
  destruct (handle_status _ _ _ _ Hf env w) as (resp & Hr & Hst).
  exists incl, resp. split; [exact Hr|]. split.
  - intros H400. rewrite H400 in Hst. cbn in Hst.
    repeat destruct Hst as [Hst|Hst]; try discriminate. destruct Hst.
  - intros Hneed. rewrite (handle_list_requests _ _ _ _ env w Hf).
    change (q_repo (with_limit q (Js.of_nat n))) with (q_repo q).
    destruct (fetcher_fetches (Bounded n) (default EmptyString (q_repo q)) incl env w Hneed)
      as (r & a' & t & m & Hrun & _ & Hone & _).
    rewrite Hrun. cbn [one_fetch] in Hone.
    change (list_requests (trace_of (r, after_fetch env
              (cacheKey (Bounded n) (default EmptyString (q_repo q)) incl) r (cache w) m a',
              EvCacheGet (cacheKey (Bounded n) (default EmptyString (q_repo q)) incl) :: t)))
      with (list_requests t).
    rewrite Hone. f_equal. f_equal. lia.
Qed.

Lemma decimal_limit_is_fetched_witness :
  exists resp,
    result_of (handle EBadge (with_limit (query "octocat/hello" "10" "grid") (Js.of_nat 37))
                 (repoEnv 50 AvatarFail) emptyWorld) = Ok resp
    /\ status resp <> 400.
Proof.
  destruct (decimal_limit_is_fetched EBadge (query "octocat/hello" "10" "grid") 37
              (repoEnv 50 AvatarFail) emptyWorld)
    as (incl & resp & Hr & Hst & _).
  - left. reflexivity.
  - lia.
  - reflexivity.
  - reflexivity.
  - reflexivity.
  - reflexivity.
  - exists resp. split; [exact Hr | exact Hst].
Defined.

(* ===================================================================== *)
(** * What reaches the renderer                                            *)
(* ===================================================================== *)

Lemma str_in_two s a b : str_in s [a; b] = true -> s = a \/ s = b.
Proof.
  unfold str_in. cbn [existsb]. rewrite orb_false_r. intros H.
  apply orb_true_iff in H. destruct H as [H|H]; apply String.eqb_eq in H; auto.
Qed.

(** X21. [/badge] invokes the renderer with a validated style and theme
    only: the style is [horizontal] or [grid], the theme [light] or [dark],
    so the palette of the badge is one of the two the renderer defines. *)
Theorem badge_renders_validated_parameters q env w n s th :
  In (EvRender n s th) (trace_of (badge q env w)) ->
  (s = "horizontal" \/ s = "grid")
  /\ (th = "light" \/ th = "dark")
  /\ (theme_colors th = theme_light \/ theme_colors th = theme_dark).
Proof.
  intros Hin.
  destruct (renders_of_handle EBadge q env w n s th Hin)
    as (_ & kind & incl & l & w1 & t1 & Hf & _ & _ & _ & -> & ->).
  assert (str_in (default "horizontal" (q_style q)) ["horizontal"; "grid"] = true
          /\ str_in (default "light" (q_theme q)) ["light"; "dark"] = true) as [Hs Ht].
  { unfold fetcherOf in Hf. destruct (negb _ || _); [discriminate|].
    destruct (str_in (default "horizontal" _) _); [|discriminate].
    destruct (str_in (default "light" _) _); [|discriminate]. auto. }
  apply str_in_two in Hs, Ht. unfold requestedTheme.
  split; [|split; [exact Ht|]].
  - unfold finalStyleOf, requestedStyle.
    destruct kind; [exact Hs|]. destruct (_ && _); [now right | exact Hs].
  - destruct Ht as [-> | ->]; [left | right]; reflexivity.
Qed.

Lemma badge_renders_validated_parameters_witness :
  theme_colors "light" = theme_light \/ theme_colors "light" = theme_dark.
Proof.
  apply (badge_renders_validated_parameters (query "octocat/hello" "5" "grid")
           (repoEnv 5 AvatarFail) emptyWorld 5 "grid" "light").
  vm_compute. do 12 (try (left; reflexivity); right).
Defined.

(* ===================================================================== *)
(** * Pacing of the pagination                                             *)
(* ===================================================================== *)

Lemma fetchPages_paced env repo :
  forall d page acc w,
    101 - page <= d -> page <= 100 ->
    exists k,
      1 <= k /\ page + k <= 101
      /\ (trace_of (fetchPages repo page acc env w) = paced_requests repo page k
          \/ trace_of (fetchPages repo page acc env w)
             = paced_requests repo page (k - 1)
               ++ [EvListContributors repo 100 (Some (page + (k - 1)))]
             /\ (page + k = 101
                 \/ exists st,
                      result_of (fetchPages repo page acc env w)
                      = Throw {| message := "Request failed"; response_status := st |})).
Proof.
  induction d as [|d IH]; intros page acc w Hd Hp; [lia|].
  rewrite fetchPages_equation_1.
  destruct (contributors_api env (api_calls w) repo 100 (Some page)) as [items|st] eqn:Hapi.
  2: { exists 1. split; [lia|]. split; [lia|]. right.
       cbn [Nat.sub]. rewrite Nat.add_0_r.
       unfold bind, axios_contributors, trace_of, result_of. rewrite Hapi.
       split; [reflexivity|]. right. eauto. }
  destruct items as [|x xs].
  - exists 1. split; [lia|]. split; [lia|]. left.
    unfold bind, axios_contributors, trace_of. rewrite Hapi. cbn [length Nat.eqb].
    assert ((100 <? page) = false) as -> by (apply Nat.ltb_ge; lia). reflexivity.
  - destruct (lt_dec 100 (page + 1)) as [Hlast|Hmore] eqn:Hdec.
    + exists 1. split; [lia|]. split; [lia|]. right.
      cbn [Nat.sub]. rewrite Nat.add_0_r.
      unfold bind, axios_contributors, trace_of. rewrite Hapi. cbn [length Nat.eqb].
      split; [reflexivity|]. left. lia.
    + destruct (IH (page + 1) (acc ++ x :: xs) (count_call w)) as (k & Hk & Hpk & Ht);
        [lia | lia |].
      exists (S k). split; [lia|]. split; [lia|].
      unfold bind, axios_contributors, delay, emit, trace_of, result_of in *.
      rewrite Hapi. cbn [length Nat.eqb].
      destruct (fetchPages repo (page + 1) (acc ++ x :: xs) env (count_call w))
        as [[r w'] t]. cbn [fst snd] in *.
      replace (S k - 1) with (S (k - 1)) by lia.
      replace (page + S (k - 1)) with (page + 1 + (k - 1)) by lia.
      unfold paced_requests in *. cbn [seq flat_map].
      replace (S page) with (page + 1) by lia.
      destruct Ht as [-> | [-> Hwhy]].
      * left. reflexivity.
      * right. split; [reflexivity|].
        destruct Hwhy as [Hend | [st ->]]; [left; lia | right; eauto].
Qed.

(** X22. The pagination of the unbounded fetch is paced: it asks for the
    pages 1 .. k in order, k at most 100, and every request is followed by a
    pause of 100 ms before anything else happens, except the last one when
    that request failed or was the hundredth. *)
Theorem pagination_is_paced repo env w :
  exists k,
    1 <= k <= 100
    /\ (trace_of (fetchPages repo 1 [] env w) = paced_requests repo 1 k
        \/ trace_of (fetchPages repo 1 [] env w)
           = paced_requests repo 1 (k - 1) ++ [EvListContributors repo 100 (Some k)]
           /\ (k = 100
               \/ exists st,
                    result_of (fetchPages repo 1 [] env w)
                    = Throw {| message := "Request failed"; response_status := st |})).
Proof.
  destruct (fetchPages_paced env repo 100 1 [] w) as (k & Hk & Hpk & Ht); [lia | lia |].
  exists k. split; [lia|].
  replace (1 + (k - 1)) with k in Ht by lia.
  destruct Ht as [Ht | [Ht Hwhy]]; [left; exact Ht | right].
  split; [exact Ht|]. destruct Hwhy as [Hend | Hfail]; [left; lia | right; exact Hfail].
Qed.
